(** * Order edit / change-control workflow: a shallow embedding

    The development follows the TypeScript sources
    [src/order/edit.ts], [src/order/edit-participants.ts] and
    [src/order/create.ts], and, for the read side and the provisioning of
    organisations, [src/orders-by.ts], [src/booking-confirmations-by.ts],
    [src/locations.ts] and [src/order/validate-order-org.ts].  Stateful
    code is written in a small state-and-error monad over a record of the
    stores the resolvers touch;
    a thrown error keeps the writes made before it, exactly as an [await]
    chain does.  Modules the sources import but which are not part of the
    repository (storage adapters, utilities, loaders) are Section
    variables, or are modelled from their contract where a statement
    depends on what they do. *)

From Stdlib Require Import ZArith Lia.
From stdpp Require Import base option list gmap strings pretty sorting.

Open Scope Z_scope.

(** ** Identifiers and JSON scalars *)

(** Entity keys are opaque values compared with [===]; the keys of
    [OrderChangeRequest] are additionally ordered ([orderBy("Oid", "DESC")]). *)
Abbreviation Id := Z.

Inductive ErrorKind :=
| ForbiddenError | ApolloError | TypeError | SyntaxError | QueryFailedError.

Record Error := mkError { errKind : ErrorKind; errMessage : string }.

(** ** Participant authorization guard ([edit-participants.ts]) *)

Module Guard.

(** [Pick<OrderParticipant, "userId" | "approvalIsRequired">] *)
Record ParticipantPick := mkPick {
  userId : Id;
  approvalIsRequired : bool;
}.

(** The inner [for (const p of participants)] loop for one current
    participant [c]; the loop state is [(foundController,
    countModChangeControllers)]. *)
Fixpoint scanProposed (c : ParticipantPick) (participants : list ParticipantPick)
    (foundController : bool) (countModChangeControllers : nat) : bool * nat :=
  match participants with
  | [] => (foundController, countModChangeControllers)
  | p :: rest =>
      if bool_decide (userId p = userId c) then
        scanProposed c rest true
          (if bool_decide (approvalIsRequired p ≠ approvalIsRequired c)
           then S countModChangeControllers else countModChangeControllers)
      else scanProposed c rest foundController countModChangeControllers
  end.

(** The outer [for (const c of currentParticipants)] loop; the loop state
    is [(isSelf, countModChangeControllers)]. *)
Fixpoint scanCurrent (currentParticipants participants : list ParticipantPick)
    (thisUser : Id) (isSelf countModChangeControllers : nat) : nat * nat :=
  match currentParticipants with
  | [] => (isSelf, countModChangeControllers)
  | c :: rest =>
      if approvalIsRequired c then
        if bool_decide (userId c = thisUser) then
          scanCurrent rest participants thisUser (S isSelf) (S countModChangeControllers)
        else
          let '(foundController, count) :=
            scanProposed c participants false countModChangeControllers in
          scanCurrent rest participants thisUser isSelf
            (if negb foundController then S count else count)
      else scanCurrent rest participants thisUser isSelf countModChangeControllers
  end.

Definition isAllowedToEditParticipants
    (currentParticipants participants : list ParticipantPick) (thisUser : Id) : bool :=
  let '(isSelf, countModChangeControllers) :=
    scanCurrent currentParticipants participants thisUser 0%nat 0%nat in
  if bool_decide (isSelf = 0%nat) && bool_decide (0 < countModChangeControllers)%nat
  then false
  else if bool_decide (1 < countModChangeControllers)%nat then false
  else true.

(** *** The counters as the specification words them *)

(** A current participant counts when it is a required approver. *)
Definition isSelfAffecting (thisUser : Id) (c : ParticipantPick) : bool :=
  approvalIsRequired c && bool_decide (userId c = thisUser).

Definition selfAffectedCount (currentParticipants : list ParticipantPick)
    (thisUser : Id) : nat :=
  length (filter (λ c, isSelfAffecting thisUser c = true) currentParticipants).

(** A non-self required approver is mutated when the proposed list lacks
    the user, or holds the user with another flag. *)
Definition stillPresent (c : ParticipantPick) (participants : list ParticipantPick) : bool :=
  bool_decide (Exists (λ p, userId p = userId c) participants).

Definition flagChanged (c : ParticipantPick) (participants : list ParticipantPick) : bool :=
  bool_decide (Exists (λ p, userId p = userId c ∧
                            approvalIsRequired p ≠ approvalIsRequired c) participants).

Definition controllerMutated (participants : list ParticipantPick) (thisUser : Id)
    (c : ParticipantPick) : bool :=
  approvalIsRequired c &&
  (bool_decide (userId c = thisUser) ||
   negb (stillPresent c participants) || flagChanged c participants).

Definition controllerMutationCount (currentParticipants participants : list ParticipantPick)
    (thisUser : Id) : nat :=
  length (filter (λ c, controllerMutated participants thisUser c = true) currentParticipants).

(** What the loops add up for one current participant: to [isSelf] and to
    [countModChangeControllers]. *)
Definition changedEntries (c : ParticipantPick) (participants : list ParticipantPick)
    : nat :=
  length (filter (λ p, userId p = userId c ∧ approvalIsRequired p ≠ approvalIsRequired c)
            participants).

Definition otherContribution (participants : list ParticipantPick) (thisUser : Id)
    (c : ParticipantPick) : nat :=
  if approvalIsRequired c && negb (bool_decide (userId c = thisUser))
  then changedEntries c participants + (if stillPresent c participants then 0 else 1)
  else 0.

Definition otherTotal (cur participants : list ParticipantPick) (thisUser : Id) : nat :=
  foldr (λ c n, (otherContribution participants thisUser c + n)%nat) 0%nat cur.

(** The edit that changes nothing but the acting user's own flag. *)
Definition flipOwnFlag (thisUser : Id) (c : ParticipantPick) : ParticipantPick :=
  if bool_decide (userId c = thisUser)
  then mkPick (userId c) (negb (approvalIsRequired c)) else c.

(** No required approver other than [thisUser] has a second row that
    does not require approval. *)
Definition othersConsistent (cur : list ParticipantPick) (thisUser : Id) : Prop :=
  ∀ c p, c ∈ cur → p ∈ cur → approvalIsRequired c = true → userId c ≠ thisUser →
         userId p = userId c → approvalIsRequired p = true.

End Guard.

(** ** Payloads *)

(** A JSON scalar of a GraphQL input object. *)
Inductive Value :=
| VNull
| VBool (b : bool)
| VNum (n : Z)
| VStr (s : string).

Global Instance Value_eq_dec : EqDecision Value.
Proof. solve_decision. Defined.

(** A JavaScript object used as a bag of named scalars. *)
Abbreviation Fields := (gmap string Value).

(** JavaScript truthiness of a scalar ([!x], [x && ...]). *)
Definition truthy (v : option Value) : bool :=
  match v with
  | None | Some VNull => false
  | Some (VBool b) => b
  | Some (VNum n) => negb (n =? 0)
  | Some (VStr s) => negb (bool_decide (s = ""%string))
  end.

(** [{...a, ...b}]: the keys of [b] win. *)
Definition spread {A} (a b : gmap string A) : gmap string A := b ∪ a.

(** A collection in an order the maps and tables here do not record (the
    own keys of an object as the client sent them, the rows of a
    statement without [ORDER BY]): [rank] is the place of an element. *)
Definition rankedBefore {T} (rank : T → Z) : relation T := λ a b, rank a ≤ rank b.

Global Instance rankedBefore_dec {T} (rank : T → Z) a b :
  Decision (rankedBefore rank a b).
Proof. unfold rankedBefore. apply _. Defined.

Definition arrangedBy {T} (rank : T → Z) (l : list T) : list T :=
  merge_sort (rankedBefore rank) l.

Record EditOrderLineItemInput := mkEditLineItem {
  lineItemId : Id;
  lineItemFields : Fields;
}.

(** [OrderLineItemsInput]: four optional keys, each an array when present. *)
Record OrderLineItemsInput := mkLineItemsInput {
  addLineItems : option (list Fields);
  editLineItems : option (list EditOrderLineItemInput);
  removeLineItems : option (list Id);
  replaceLineItems : option (list Fields);
}.

(** A key of a JavaScript object is present (arrays are truthy, so for the
    array-valued keys this is also [if (key)]). *)
Definition present {A} (o : option A) : bool :=
  match o with Some _ => true | None => false end.

(** [{} as OrderLineItemsInput] *)
Definition noLineItems : OrderLineItemsInput := mkLineItemsInput None None None None.

(** lodash [isEmpty] on the line-item object: no own key. *)
Definition isEmptyLineItems (lineItems : OrderLineItemsInput) : bool :=
  negb (present (addLineItems lineItems)) && negb (present (editLineItems lineItems))
  && negb (present (removeLineItems lineItems))
  && negb (present (replaceLineItems lineItems)).

Record ExtraDataInput := mkExtraData { extraKey : string; extraValue : Value }.

(** [OrderShippingInformationInput]: the scalar keys plus the optional
    [extraData] array, which the resolver splits off
    ([const { extraData, ...shippingInfoSubExtra } = shippingInformation]). *)
Record OrderShippingInformationInput := mkShipping {
  extraData : option (list ExtraDataInput);
  shippingInfoSubExtra : Fields;
}.

(** [shippingInformation = {}] *)
Definition noShippingInformation : OrderShippingInformationInput := mkShipping None ∅.

Record LocationInput := mkLocationInput { locationName : string; locationOrgId : option Id }.

(** [EditOrderInput].  [inputRest] holds every top-level key other than
    [userId], [orderId], [shipToLocation], [shippingInformation],
    [lineItems] and [orderStatusId] (so also [orderChangeRequestNote]). *)
Record EditOrderInput := mkEditOrderInput {
  userId : Id;
  orderId : Id;
  shipToLocation : option LocationInput;
  shippingInformation : option OrderShippingInformationInput;
  lineItems : option OrderLineItemsInput;
  orderStatusId : option Id;
  inputRest : Fields;
}.

(** One entry of [editFields = {...shippingInformation, ...inputSubShip}]. *)
Inductive EditParam :=
| PScalar (v : Value)
| PLineItems (li : OrderLineItemsInput)
| PExtraData (l : list ExtraDataInput).

(** lodash [isEmpty] on an entry: primitives other than strings are empty,
    strings and arrays by length, objects by own keys. *)
Definition isEmptyParam (p : option EditParam) : bool :=
  match p with
  | None => true
  | Some (PScalar (VStr s)) => bool_decide (s = ""%string)
  | Some (PScalar _) => true
  | Some (PLineItems li) => isEmptyLineItems li
  | Some (PExtraData l) => bool_decide (l = [])
  end.

(** ** Stored entities *)

Module Order.
Record t := mk {
  id : Id;
  buyerId : Id;
  supplierId : option Id;
  orderStatusId : Id;
  isReadyForBooking : bool;
  columns : Fields;
}.
End Order.

Module OrderLineItem.
Record t := mk { id : Id; orderId : Id; item : Fields }.
End OrderLineItem.

Module OrderParticipant.
Record t := mk {
  id : Id;
  orderId : Id;
  userId : Id;
  approvalIsRequired : bool;
}.
End OrderParticipant.

Module OrderChangeRequest.
Record t := mk {
  id : Id;
  orderId : Id;
  entityId : Id;
  changeStatusId : Id;
  title : string;
  description : string;
  createdOn : Z;
  note : option Value;
  changeRequestNumber : Z;
}.
End OrderChangeRequest.

Module OrderChangeReview.
Record t := mk {
  orderChangeRequestId : Id;
  entityId : Id;
  reviewDate : option Z;
  changeStatusId : Id;
}.
End OrderChangeReview.

Module OrderChangeRequestLineItem.
Record t := mk { orderChangeRequestId : Id; delta : Fields }.
End OrderChangeRequestLineItem.

Module ExtraData.
Record t := mk { orgId : Id; ownerId : Id; ownerType : string; entry : ExtraDataInput }.
End ExtraData.

Module User.
Record t := mk { id : Id; orgId : Id }.
End User.

Module Company.
(** [preferencesString] is kept parsed: the two keys the resolvers read
    from [JSON.parse(buyer?.preferencesString)]. *)
Record t := mk {
  orgId : Id;
  enableLocationAutoCreate : bool;
  locationAutoCreateContactList : list string;
  allowExternalCreation : option bool;
  enableCompanyAutoCreate : bool;
  companyAutoCreateContactList : list string;
}.
End Company.

(** The relational order store. *)
Record Sql := mkSql {
  orders : list Order.t;
  orderLineItems : list OrderLineItem.t;
  orderParticipants : list OrderParticipant.t;
  orderChangeRequests : list OrderChangeRequest.t;
  orderChangeReviews : list OrderChangeReview.t;
  orderChangeRequestLineItems : list OrderChangeRequestLineItem.t;
  extraDataRows : list ExtraData.t;
  nextOid : Id;
}.

(** ** The booking and shipment stores read by the cancellation check *)

Module FulfillmentRollup.
Record t := mk { orderId : Id; bookingRequestId : Id }.
End FulfillmentRollup.

Module BookingRequest.
Record t := mk { id : Id; bookingStatusId : Id }.
End BookingRequest.

Module BookingConfirmation.
(** [statusId] is [bc.fields->>'statusId'], SQL [NULL] when absent. *)
Record t := mk { id : Id; statusId : option Id; created_at : Z; updated_at : Z }.
End BookingConfirmation.

Module Shipment.
Record t := mk { id : Id; created_at : Z; updated_at : Z }.
End Shipment.

Module LineItem.
(** The generic line-item linkage: [orderId] and [shipmentStatusId] are
    [li.fields->>'...'], nullable like [deleted_at]. *)
Record t := mk {
  target_id : Id;
  orderId : option Id;
  shipmentStatusId : option Id;
  deleted_at : option Z;
}.
End LineItem.

Record Bookings := mkBookings {
  fulfillmentRollup : list FulfillmentRollup.t;
  bookingRequestLoader : Id → BookingRequest.t;
  bookingConfirmations : list BookingConfirmation.t;
  shipments : list Shipment.t;
  lineItemLinks : list LineItem.t;
}.

(** ** The world the resolvers run in *)

(** Operations of the environment that can fail (a statement that affects
    no row, a rejected promise). *)
Inductive Op :=
| OpUpdateOrder
| OpResetOrder
| OpInsertOrder
| OpInsertOrderParticipants
| OpDeleteOrderParticipants
| OpInsertOrderChangeRequest
| OpInsertOrderChangeReviews
| OpInsertOrderChangeRequestLineItems
| OpCreateExtraData
| OpCreateOrderMilestones
| OpCompleteMilestone
| OpCreateMongoMessages
| OpMessageThread
| OpLineItems
| OpCheckReadyForBooking
| OpCreateOrGetLocation
| OpValidateOrderOrg
| OpGenAndUpdatePONumber
| OpNotify.

Global Instance Op_eq_dec : EqDecision Op.
Proof. solve_decision. Defined.

(** Calls that leave the relational tables: messaging, milestones,
    notifications, organisation and location provisioning.  [updateOrder]
    is logged as well, with the arguments it was given. *)
Inductive Call :=
| CallUpdateOrder (orderId orgId : Id) (fields : Fields)
    (extraData : option (list ExtraDataInput))
| CallResetOrder (orderId : Id)
| CallCompleteMilestone (milestone : Id)
| CallCreateMongoMessagesEditOrder (changeRequest : option OrderChangeRequest.t)
    (sender : Id) (rest : list Id) (orgId : Id)
| CallCreateMongoMessagesCreateOrder (orderId : Id) (purchaseOrderNumber : option Value)
    (sender : option Id) (rest : list (option Id))
| CallEditPOMessageThread (orderId : Id)
| CallCreatePOMessageThread (userId orderId : Id)
| CallCreateOrGetLocation (location : LocationInput)
| CallNotifyOrderMissingLocation (orderId : Id) (contacts : list string)
| CallNotifyOrderOrgsAutoCreation (orderId : Id) (contacts : list string)
| CallNotifyOrderAssignment (orderId : Id)
| CallValidateOrderOrg (buyerOrgId : Id)
| CallGenAndUpdatePONumber (orgId orderId : Id)
| CallCreateOrderMilestones (orderId orgId : Id)
| CallAddLineItemsToOrder (orderId : Id).

(** A TypeORM query runner holding one connection and at most one
    transaction; [snapshot] is the relational store when the transaction
    was started, which [rollbackTransaction] restores. *)
Record QueryRunner := mkRunner {
  isTransactionActive : bool;
  isReleased : bool;
  snapshot : Sql;
}.

Record World := mkWorld {
  sql : Sql;
  bookings : Bookings;
  runners : list QueryRunner;
  failing : list Op;
  now : Z;
  calls : list Call;
}.

Definition withSql (f : Sql → Sql) (w : World) : World :=
  mkWorld (f (sql w)) (bookings w) (runners w) (failing w) (now w) (calls w).

Definition withRunners (f : list QueryRunner → list QueryRunner) (w : World) : World :=
  mkWorld (sql w) (bookings w) (f (runners w)) (failing w) (now w) (calls w).

Definition withCalls (f : list Call → list Call) (w : World) : World :=
  mkWorld (sql w) (bookings w) (runners w) (failing w) (now w) (f (calls w)).

Definition withOrders (f : list Order.t → list Order.t) (s : Sql) : Sql :=
  mkSql (f (orders s)) (orderLineItems s) (orderParticipants s) (orderChangeRequests s)
    (orderChangeReviews s) (orderChangeRequestLineItems s) (extraDataRows s) (nextOid s).

Definition withOrderLineItems (f : list OrderLineItem.t → list OrderLineItem.t)
    (s : Sql) : Sql :=
  mkSql (orders s) (f (orderLineItems s)) (orderParticipants s) (orderChangeRequests s)
    (orderChangeReviews s) (orderChangeRequestLineItems s) (extraDataRows s) (nextOid s).

Definition withOrderParticipants (f : list OrderParticipant.t → list OrderParticipant.t)
    (s : Sql) : Sql :=
  mkSql (orders s) (orderLineItems s) (f (orderParticipants s)) (orderChangeRequests s)
    (orderChangeReviews s) (orderChangeRequestLineItems s) (extraDataRows s) (nextOid s).

Definition withOrderChangeRequests
    (f : list OrderChangeRequest.t → list OrderChangeRequest.t) (s : Sql) : Sql :=
  mkSql (orders s) (orderLineItems s) (orderParticipants s) (f (orderChangeRequests s))
    (orderChangeReviews s) (orderChangeRequestLineItems s) (extraDataRows s) (nextOid s).

Definition withOrderChangeReviews
    (f : list OrderChangeReview.t → list OrderChangeReview.t) (s : Sql) : Sql :=
  mkSql (orders s) (orderLineItems s) (orderParticipants s) (orderChangeRequests s)
    (f (orderChangeReviews s)) (orderChangeRequestLineItems s) (extraDataRows s) (nextOid s).

Definition withOrderChangeRequestLineItems
    (f : list OrderChangeRequestLineItem.t → list OrderChangeRequestLineItem.t)
    (s : Sql) : Sql :=
  mkSql (orders s) (orderLineItems s) (orderParticipants s) (orderChangeRequests s)
    (orderChangeReviews s) (f (orderChangeRequestLineItems s)) (extraDataRows s) (nextOid s).

Definition withExtraDataRows (f : list ExtraData.t → list ExtraData.t) (s : Sql) : Sql :=
  mkSql (orders s) (orderLineItems s) (orderParticipants s) (orderChangeRequests s)
    (orderChangeReviews s) (orderChangeRequestLineItems s) (f (extraDataRows s)) (nextOid s).

Definition withNextOid (f : Id → Id) (s : Sql) : Sql :=
  mkSql (orders s) (orderLineItems s) (orderParticipants s) (orderChangeRequests s)
    (orderChangeReviews s) (orderChangeRequestLineItems s) (extraDataRows s) (f (nextOid s)).

(** ** The state-and-error monad *)

Inductive Result (A : Type) :=
| Ok (a : A)
| Throw (e : Error).
Arguments Ok {A} a.
Arguments Throw {A} e.

(** An [async] function: it runs on the world and either returns or
    throws; the world it leaves holds every write made up to that point. *)
Definition M (A : Type) : Type := World → Result A * World.

Definition ret {A} (a : A) : M A := λ w, (Ok a, w).

Definition bind {A B} (m : M A) (f : A → M B) : M B := λ w,
  match m w with
  | (Ok a, w') => f a w'
  | (Throw e, w') => (Throw e, w')
  end.

Notation "'let!' x ':=' m 'in' k" := (bind m (λ x, k))
  (at level 10, x binder, m at level 100, k at level 200,
   format "'[v' 'let!'  x  ':='  m  'in' '/' k ']'").
Notation "m '>>' k" := (bind m (λ _, k))
  (at level 100, k at level 200, right associativity,
   format "'[v' m  '>>' '/' k ']'").

Definition throw {A} (kind : ErrorKind) (message : string) : M A :=
  λ w, (Throw (mkError kind message), w).

Definition rethrow {A} (e : Error) : M A := λ w, (Throw e, w).

Definition gets {A} (f : World → A) : M A := λ w, (Ok (f w), w).

Definition modify (f : World → World) : M unit := λ w, (Ok tt, f w).

(** [try { body } catch (error) { handler }] *)
Definition tryCatch {A} (body : M A) (handler : Error → M A) : M A := λ w,
  match body w with
  | (Ok a, w') => (Ok a, w')
  | (Throw e, w') => handler e w'
  end.

(** [if (c) { m }] for a statement. *)
Definition when (c : bool) (m : M unit) : M unit := if c then m else ret tt.

(** A property read on [undefined] throws a [TypeError]. *)
Definition must {A} (o : option A) : M A :=
  match o with
  | Some a => ret a
  | None => throw TypeError "Cannot read properties of undefined"
  end.

Definition fails (op : Op) : M bool := gets (λ w, bool_decide (op ∈ failing w)).

Definition call (c : Call) : M unit := modify (withCalls (λ l, l ++ [c])).

(** An external call with no result the resolvers use: it is logged, and
    rejects when the environment makes it fail. *)
Definition external (op : Op) (c : Call) (message : string) : M unit :=
  call c >>
  let! bad := fails op in
  if bad then throw ApolloError message else ret tt.

(** [list.map(x => { ... })] run for its effects, in order. *)
Fixpoint forEach {A} (l : list A) (f : A → M unit) : M unit :=
  match l with
  | [] => ret tt
  | x :: rest => f x >> forEach rest f
  end.

(** The next identity value of the relational store. *)
Definition freshOid : M Id :=
  let! oid := gets (λ w, nextOid (sql w)) in
  modify (withSql (withNextOid (λ n, n + 1))) >>
  ret oid.

(** ** Request context, preferences and the collaborators *)

Module GraphQLContext.
Record t := mk { orgId : Id; userId : Id; permissions : list string }.
End GraphQLContext.

(** [userPermissions] *)
Definition INTEGRATION : string := "INTEGRATION".
Definition ADMIN : string := "ADMIN".
Definition STAFF : string := "STAFF".

Abbreviation FieldConfig := Fields.

Inductive ConfigurationAction := EDIT | CREATE.

(** [preferences?.purchaseOrder] *)
Record PurchaseOrderPreferences := mkPoPrefs {
  enableChangeControl : option bool;
  excludeChangeControl : option (list string);
  headerFields : gmap string FieldConfig;
  ownKeys : gmap string FieldConfig;
}.

Record Preferences := mkPreferences {
  purchaseOrder : option PurchaseOrderPreferences;
  termsAndConditions : option Value;
  prefEnableLocationAutoCreate : bool;
  prefLocationAutoCreateContactList : list string;
}.

Module OrderParticipantsRights.
Record t := mk {
  participantId : Id;
  orgId : Id;
  isAllowedToAcceptChangeRequest : bool;
}.
End OrderParticipantsRights.

(** What a line-item utility resolves to, as far as [handleErrors] looks
    at it: the class of the result, and [raw], an array of rows (each row
    by its property names) or another object (by the names under
    [columns], if it has that property). *)
Inductive ResultKind := InsertResult | UpdateResult | OtherResult.

Inductive Raw :=
| RawArray (rows : list (list string))
| RawObject (columns : option (list string)).

Record CombinedResponse := mkResponse { kind : ResultKind; raw : Raw }.

(** The imported modules that are not part of the repository.  The pure
    ones are functions; the line-item utilities act on the line-item
    table and resolve to a [CombinedResponse]. *)
Class Collaborators := {
  getStatusId : string → string → Id;
  getChangeStatusId : string → Id;
  lookupByValueLoader : string → option Id;
  findUser : Id → option User.t;
  findCompany : Id → option Company.t;
  entityRolesLoader : Id → list Id;
  isVisible : GraphQLContext.t → Order.t → bool;
  getFulfillmentsForOrder : Id → Bookings → list Id;
  isOrderEditable : Order.t → option User.t → GraphQLContext.t → list Id → bool * string;
  checkPermissions : list string → list string → bool;
  isUserInAssociatedCompany : Order.t → option User.t → bool;
  getPreferences : Id → Id → Id → option Preferences;
  isEditOrderKey : string → bool;
  getFieldConfig : option FieldConfig → ConfigurationAction → option bool;
  generateChangeRequestDescription :
    OrderLineItemsInput → Fields → Order.t → string;
  generateOrderChangeRequestLineItems :
    OrderLineItemsInput → Fields → Order.t → Id → list OrderChangeRequestLineItem.t;
  orderReadyForBookingErrors : Sql → Order.t → list string;
  readyForBookingState : Sql → Id → bool;
  getOrderMilestoneByName : string → Order.t → option Id;
  locationIdOf : LocationInput → Id;
  (** what [genAndUpdatePONumber(orgId, orderId)] resolves to *)
  generatedPONumber : Id → Id → Value;
  (** the offset of the server's local time from UTC at an instant, in
      milliseconds *)
  utcOffset : Z → Z;
  (** the place of a key among the own keys of a payload object, as
      [Object.keys] lists them *)
  keyPlace : string → Z;
  createdOrgsOf : Fields → Fields;
  orderParticipantsRights : list OrderParticipantsRights.t;
  replaceLineItemsInOrder : list Fields → Id → option Id → Id →
    list OrderLineItem.t → CombinedResponse * list OrderLineItem.t;
  addLineItemsToOrder : list Fields → Id → option Id → Id →
    list OrderLineItem.t → CombinedResponse * list OrderLineItem.t;
  editLineItemsInOrder : list EditOrderLineItemInput → Id → Id →
    list OrderLineItem.t → CombinedResponse * list OrderLineItem.t;
  removeLineItemsFromOrder : list Id → Id →
    list OrderLineItem.t → CombinedResponse * list OrderLineItem.t;
}.

Section Resolvers.
Context `{Collaborators}.

(** ** Storage primitives *)

(** [dataLoaders.orderLoader.clear(orderId).load(orderId)]: the row as
    stored now; loading a key with no row rejects. *)
Definition orderLoader (orderId : Id) : M Order.t :=
  let! found := gets (λ w, find (λ o, bool_decide (Order.id o = orderId)) (orders (sql w))) in
  match found with
  | Some o => ret o
  | None => throw ApolloError "Order not found"
  end.

(** The columns of [Order.t] that are not kept in [Order.columns]. *)
Definition typedColumns : list string :=
  ["supplierId"; "orderStatusId"; "isReadyForBooking"]%string.

(** The row after an update with a [Partial<Order>]. *)
Definition applyFields (fields : Fields) (o : Order.t) : Order.t :=
  Order.mk (Order.id o) (Order.buyerId o)
    (match fields !! "supplierId"%string with
     | Some (VNum s) => Some s | _ => Order.supplierId o end)
    (match fields !! "orderStatusId"%string with
     | Some (VNum s) => s | _ => Order.orderStatusId o end)
    (match fields !! "isReadyForBooking"%string with
     | Some (VBool b) => b | _ => Order.isReadyForBooking o end)
    (spread (Order.columns o) (filter (λ kv, kv.1 ∉ typedColumns) fields)).

(** Modelled from the spec: [updateOrder(orderId, orgId, fields, extraData?)]
    is missing from the sources; its contract is that it persists the
    given field mutations on the order row, and the extra-data entries
    with them.  The call is logged with its arguments. *)
Definition updateOrder (orderId orgId : Id) (fields : Fields)
    (extraData : option (list ExtraDataInput)) : M unit :=
  call (CallUpdateOrder orderId orgId fields extraData) >>
  let! bad := fails OpUpdateOrder in
  if bad then throw ApolloError "Failed to update order" else
  modify (withSql (λ s,
    withExtraDataRows
      (λ rows, rows ++ map (ExtraData.mk orgId orderId "Order") (default [] extraData))
      (withOrders
         (map (λ o, if bool_decide (Order.id o = orderId) then applyFields fields o else o))
         s))).

(** Modelled from the spec: [resetOrder(order)] is missing from the
    sources; its contract is that it reverts booking-readiness and the
    dependent booking state, which lives outside the relational tables
    and is recorded as the call. *)
Definition resetOrder (order : Order.t) : M unit :=
  external OpResetOrder (CallResetOrder (Order.id order)) "Failed to reset order" >>
  modify (withSql (withOrders
    (map (λ o, if bool_decide (Order.id o = Order.id order)
               then applyFields {[ "isReadyForBooking"%string := VBool false ]} o else o)))).

(** Modelled from the spec: an order is under active change control when
    one of its change requests is still Proposed. *)
Definition underChangeControl (orderId : Id) (requests : list OrderChangeRequest.t)
    : bool :=
  existsb (λ cr, bool_decide (OrderChangeRequest.orderId cr = orderId)
                 && bool_decide (OrderChangeRequest.changeStatusId cr
                                 = getChangeStatusId "Proposed")) requests.

(** Modelled from the spec: [checkReadyForBookingResolver] is missing from
    the sources; the router calls it to see whether the order's
    ready-for-booking state has changed and, if it has, to update the
    stored flag.  An order under active change control is not considered
    booking-ready until the request is resolved; for any other order the
    derived state is [readyForBookingState]. *)
Definition checkReadyForBookingResolver (orderId : Id) (context : GraphQLContext.t)
    : M unit :=
  let! bad := fails OpCheckReadyForBooking in
  if bad then throw ApolloError "Failed to check ready for booking" else
  let! order := orderLoader orderId in
  let! ready := gets (λ w,
    readyForBookingState (sql w) orderId
    && negb (underChangeControl orderId (orderChangeRequests (sql w)))) in
  when (negb (bool_decide (ready = Order.isReadyForBooking order)))
    (modify (withSql (withOrders
       (map (λ o, if bool_decide (Order.id o = orderId)
                  then applyFields {[ "isReadyForBooking"%string := VBool ready ]} o
                  else o))))).

(** ** Cancellation eligibility ([canOrderBeCancelled], edit.ts) *)

(** SQL [a != b]: unknown, hence not selected, when either side is NULL. *)
Definition sqlNe (a b : option Id) : bool :=
  match a, b with
  | Some x, Some y => bool_decide (x ≠ y)
  | _, _ => false
  end.

(** SQL [a is NULL] *)
Definition sqlIsNull {A} (a : option A) : bool := negb (present a).

(** The rows of the booking-confirmation query: joined to a live line-item
    row of the order, status different from [statusId] or NULL, and
    [created_at != updated_at]. *)
Definition selectBookingConfirmations (b : Bookings) (orderId : Id)
    (statusId : option Id) : list BookingConfirmation.t :=
  filter (λ bc,
    existsb (λ li,
      bool_decide (LineItem.target_id li = BookingConfirmation.id bc)
      && bool_decide (LineItem.orderId li = Some orderId)
      && (sqlNe (BookingConfirmation.statusId bc) statusId
          || sqlIsNull (BookingConfirmation.statusId bc))
      && bool_decide (BookingConfirmation.created_at bc ≠ BookingConfirmation.updated_at bc)
      && sqlIsNull (LineItem.deleted_at li)) (lineItemLinks b) = true)
    (bookingConfirmations b).

(** The rows of the shipment query; the status compared is the one on the
    line-item row ([li.fields->>'shipmentStatusId']). *)
Definition selectShipments (b : Bookings) (orderId : Id)
    (statusId : option Id) : list Shipment.t :=
  filter (λ shipment,
    existsb (λ li,
      bool_decide (LineItem.target_id li = Shipment.id shipment)
      && bool_decide (LineItem.orderId li = Some orderId)
      && (sqlNe (LineItem.shipmentStatusId li) statusId
          || sqlIsNull (LineItem.shipmentStatusId li))
      && bool_decide (Shipment.created_at shipment ≠ Shipment.updated_at shipment)
      && sqlIsNull (LineItem.deleted_at li)) (lineItemLinks b) = true)
    (shipments b).

(** The booking requests loaded for the order's fulfillment rollup. *)
Definition linkedBookingRequests (b : Bookings) (orderId : Id) : list BookingRequest.t :=
  let bookingRequestIds :=
    map FulfillmentRollup.bookingRequestId
      (filter (λ f, FulfillmentRollup.orderId f = orderId) (fulfillmentRollup b)) in
  map (bookingRequestLoader b) bookingRequestIds.

(** lodash [isEmpty] on an array. *)
Definition isEmptyList {A} (l : list A) : bool :=
  match l with [] => true | _ => false end.

Definition canOrderBeCancelled (orderId : Id) : M bool :=
  let! b := gets bookings in
  let bookingRequests := linkedBookingRequests b orderId in
  let! bookingCancelStatusId := must (lookupByValueLoader "BookingStatus,Canceled") in
  let activeBR :=
    find (λ br, bool_decide (BookingRequest.bookingStatusId br ≠ bookingCancelStatusId))
      bookingRequests in
  if present activeBR then ret false else
  let bookingConfirmations :=
    selectBookingConfirmations b orderId (Some bookingCancelStatusId) in
  if negb (isEmptyList bookingConfirmations) then ret false else
  let shipmentCanceledStatusId := lookupByValueLoader "ShipmentStatus,Canceled" in
  let shipments := selectShipments b orderId shipmentCanceledStatusId in
  if negb (isEmptyList shipments) then ret false else
  ret true.

(** ** Status changes ([editOrderStatus], edit.ts) *)

Definition completeMilestone (milestone : Id) : M unit :=
  external OpCompleteMilestone (CallCompleteMilestone milestone)
    "Failed to complete milestone".

Definition editOrderStatus (orderId orderStatusId : Id) (context : GraphQLContext.t)
    : M Order.t :=
  let orgId := GraphQLContext.orgId context in
  let! order := orderLoader orderId in
  let canceledStatusId := getStatusId "Canceled" "OrderStatus" in
  let rejectedStatusId := getStatusId "Rejected" "OrderStatus" in
  let acceptedStatusId := getStatusId "Accepted" "OrderStatus" in
  (if bool_decide (orderStatusId = canceledStatusId) then
     let! availableToCancel := canOrderBeCancelled orderId in
     if negb availableToCancel then
       throw ForbiddenError
         "Cannot cancel a Purchase Order that has a booked request, booked confirmation or shipment."
     else ret tt
   else ret tt) >>
  when (bool_decide (orderStatusId = canceledStatusId)
        || bool_decide (orderStatusId = rejectedStatusId))
    (resetOrder order) >>
  let! updateBookingReady :=
    (if bool_decide (orderStatusId = acceptedStatusId)
        && bool_decide (Order.orderStatusId order ≠ acceptedStatusId)
     then
       let! readyForBookingErrors :=
         gets (λ w, orderReadyForBookingErrors (sql w) order) in
       if negb (isEmptyList readyForBookingErrors) then
         throw ForbiddenError (String.concat ", " readyForBookingErrors)
       else
         (match getOrderMilestoneByName "PO Accepted" order with
          | Some acceptedMilestone => completeMilestone acceptedMilestone
          | None => ret tt
          end) >>
         (match getOrderMilestoneByName "Ready for Booking" order with
          | Some bookingReadyMilestone => completeMilestone bookingReadyMilestone
          | None => ret tt
          end) >>
         ret ({[ "isReadyForBooking"%string := VBool true ]} : Fields)
     else ret (∅ : Fields)) in
  updateOrder orderId orgId
    (spread {[ "orderStatusId"%string := VNum orderStatusId ]} updateBookingReady) None >>
  orderLoader orderId.

(** ** Line items ([handleErrors], [updateLineItems], [checkLineItems]) *)

(** [errorObjectType]: the [in] operator throws when [response.raw] has
    no [columns] object, which is the case for every array. *)
Definition errorObjectType (response : CombinedResponse) : M string :=
  match raw response with
  | RawObject (Some columns) =>
      let isNote := bool_decide ("Note"%string ∈ columns) in
      let isLineItem := bool_decide ("OrderOid"%string ∈ columns) in
      let errorEntity := "object"%string in
      let errorEntity := if isNote then "note"%string else errorEntity in
      let errorEntity := if isLineItem then "line item"%string else errorEntity in
      ret errorEntity
  | _ => throw TypeError "Cannot use 'in' operator to search for 'Note' in undefined"
  end.

(** [!Array.isArray(response.raw) || response.raw.length === 0] *)
Definition noRows (response : CombinedResponse) : bool :=
  match raw response with
  | RawArray (_ :: _) => false
  | _ => true
  end.

Definition handleErrors (responses : list CombinedResponse) : M unit :=
  forEach responses (λ response,
    match kind response with
    | InsertResult =>
        if noRows response then
          let! entity := errorObjectType response in
          throw ForbiddenError
            ("Failed to create " +:+ entity +:+ " and relate it to order.")
        else ret tt
    | UpdateResult =>
        if noRows response then
          let! entity := errorObjectType response in
          throw ForbiddenError ("Failed to update " +:+ entity +:+ ".")
        else ret tt (* the line-item loader entry is cleared: no stored effect *)
    | OtherResult => ret tt
    end).

(** One line-item utility run on the line-item table. *)
Definition lineItemQuery
    (q : list OrderLineItem.t → CombinedResponse * list OrderLineItem.t)
    : M CombinedResponse :=
  let! r := gets (λ w, q (orderLineItems (sql w))) in
  modify (withSql (withOrderLineItems (λ _, r.2))) >>
  ret r.1.

(** Each utility is called when its promise is pushed on [queries];
    [Promise.all(queries)] then resolves to the responses in that order,
    or rejects. *)
Definition updateLineItems (order : Order.t) (user : option User.t)
    (lineItems : OrderLineItemsInput) : M unit :=
  let! responses :=
    match replaceLineItems lineItems with
    | Some items =>
        (* Replace and/or add line items *)
        let! user := must user in
        let! response :=
          lineItemQuery
            (replaceLineItemsInOrder items (Order.id order) (Order.supplierId order)
               (User.orgId user)) in
        ret [response]
    | None =>
        let! added :=
          match addLineItems lineItems with
          | Some items =>
              let! user := must user in
              let! response :=
                lineItemQuery
                  (addLineItemsToOrder items (Order.id order) (Order.supplierId order)
                     (User.orgId user)) in
              ret [response]
          | None => ret []
          end in
        let! edited :=
          match editLineItems lineItems with
          | Some items =>
              let! user := must user in
              let! response :=
                lineItemQuery
                  (editLineItemsInOrder items (Order.id order) (User.orgId user)) in
              ret [response]
          | None => ret []
          end in
        let! removed :=
          match removeLineItems lineItems with
          | Some items =>
              let! response :=
                lineItemQuery (removeLineItemsFromOrder items (Order.id order)) in
              ret [response]
          | None => ret []
          end in
        ret (added ++ edited ++ removed)
    end in
  let! rejected := fails OpLineItems in
  if rejected then throw ApolloError "Failed to update line items" else
  handleErrors responses.

Definition checkLineItems (orderId : Id) (lineItems : OrderLineItemsInput) : M unit :=
  (if present (replaceLineItems lineItems)
      && (present (addLineItems lineItems) || present (editLineItems lineItems)
          || present (removeLineItems lineItems))
   then throw ForbiddenError "You cannot replace and add/edit/remove line items."
   else ret tt) >>
  (match editLineItems lineItems, removeLineItems lineItems with
   | Some edits, Some removes =>
       forEach edits (λ editItem,
         if bool_decide (lineItemId editItem ∈ removes)
         then throw ForbiddenError "You cannot edit and remove the same line item."
         else ret tt)
   | _, _ => ret tt
   end) >>
  (* the line-item loader entries of the order are cleared: no stored effect *)
  ret tt.

(** ** Field permissions ([checkFieldsEditable]) *)

(** [Object.keys(o)] with the value under each key. *)
Definition entriesOf {A} (o : gmap string A) : list (string * A) :=
  arrangedBy (λ kv, keyPlace kv.1) (map_to_list o).

Definition checkFieldsEditable (userId orgId buyerOrgId : Id)
    (editFields : gmap string EditParam) : M (option PurchaseOrderPreferences) :=
  let preferences := getPreferences userId orgId buyerOrgId in
  let poPrefs := preferences ≫= purchaseOrder in
  forEach (entriesOf editFields) (λ '(key, value),
    if negb (isEmptyParam (Some value)) && isEditOrderKey key then
      if negb (default false
                 (getFieldConfig (poPrefs ≫= λ p, headerFields p !! key) EDIT))
      then throw ForbiddenError ("User does not have permission to edit field " +:+ key)
      else ret tt
    else ret tt) >>
  ret poPrefs.

(** ** Change control ([invokeChangeControl], edit.ts) *)

(** [.where({ orderId }).orderBy("Oid", "DESC").getOne()]: the change
    request of the order with the greatest key. *)
Definition lastChangeRequestOf (orderId : Id) (requests : list OrderChangeRequest.t)
    : option OrderChangeRequest.t :=
  foldl (λ last cr,
    if bool_decide (OrderChangeRequest.orderId cr = orderId) then
      match last with
      | Some l =>
          if OrderChangeRequest.id l <? OrderChangeRequest.id cr then Some cr else Some l
      | None => Some cr
      end
    else last) None requests.

(** [lastChangeRequest ? +lastChangeRequest.changeRequestNumber + 1 : 1] *)
Definition nextChangeRequestNumber (orderId : Id) (requests : list OrderChangeRequest.t)
    : Z :=
  match lastChangeRequestOf orderId requests with
  | Some lastChangeRequest => OrderChangeRequest.changeRequestNumber lastChangeRequest + 1
  | None => 1
  end.

(** [new Date(moment(new Date()).format("YYYY-MM-DD"))]: the calendar day
    of a millisecond timestamp in the server's local time, read back as
    midnight UTC of that day. *)
Definition dayOf (t : Z) : Z :=
  let localTime := t + utcOffset t in
  localTime - localTime `mod` 86400000.

(** The values of the review insert for one approver. *)
Definition reviewRow (orderChangeRequestId : Id) (author : Id)
    (approvedChangeStatusId proposedChangeStatusId : Id) (reviewedAt : Z)
    (p : OrderParticipant.t) : OrderChangeReview.t :=
  OrderChangeReview.mk orderChangeRequestId (OrderParticipant.userId p)
    (if bool_decide (OrderParticipant.userId p = author) then Some reviewedAt else None)
    (if bool_decide (OrderParticipant.userId p = author)
     then approvedChangeStatusId else proposedChangeStatusId).

(** [OrderParticipant.find({ orderId, approvalIsRequired: true })] *)
Definition approversOf (orderId : Id) (participants : list OrderParticipant.t)
    : list OrderParticipant.t :=
  filter (λ p, OrderParticipant.orderId p = orderId
               ∧ OrderParticipant.approvalIsRequired p = true) participants.

(** The users joined to the order's participant rows. *)
Definition participantUsersOf (orderId : Id) (participants : list OrderParticipant.t)
    : list User.t :=
  omap (λ p, if bool_decide (OrderParticipant.orderId p = orderId)
             then findUser (OrderParticipant.userId p) else None) participants.

(** [invokeChangeControl] up to the [await] that resolves to
    [lastChangeRequest]: the readiness reset and the number of the next
    request. *)
Definition readChangeRequestNumber (order : Order.t) (orgId : Id)
    (extraData : option (list ExtraDataInput)) : M Z :=
  (* 1) Update the order status to IsReadyForBooking = 0 *)
  updateOrder (Order.id order) orgId
    {[ "isReadyForBooking"%string := VBool false ]} extraData >>
  (* 2) Insert into [OrderChangeRequest] *)
  gets (λ w, nextChangeRequestNumber (Order.id order) (orderChangeRequests (sql w))).

(** [invokeChangeControl] from the insert of the request on, with the
    number read before. *)
Definition storeChangeRequest (order : Order.t) (user : option User.t) (orgId : Id)
    (lineItems : OrderLineItemsInput) (shippingInformation : Fields)
    (orderChangeRequestNote : option Value) (changeRequestNumber : Z) : M unit :=
  let proposedChangeStatusId := getChangeStatusId "Proposed" in
  let! user := must user in
  let description :=
    generateChangeRequestDescription lineItems shippingInformation order in
  let! noRow := fails OpInsertOrderChangeRequest in
  (if noRow then throw ForbiddenError "Failed to create order change request" else ret tt) >>
  let! orderChangeRequestId := freshOid in
  let! date := gets now in
  let changeRequest :=
    OrderChangeRequest.mk orderChangeRequestId (Order.id order) (User.id user)
      proposedChangeStatusId ("Change Request #" +:+ pretty changeRequestNumber)
      description (dayOf date) orderChangeRequestNote changeRequestNumber in
  modify (withSql (withOrderChangeRequests (λ rows, rows ++ [changeRequest]))) >>
  let! found := gets (λ w,
    find (λ cr, bool_decide (OrderChangeRequest.id cr = orderChangeRequestId))
      (orderChangeRequests (sql w))) in
  let! participantUsers :=
    gets (λ w, participantUsersOf (Order.id order) (orderParticipants (sql w))) in
  let rest := filter (λ p, User.id p ≠ User.id user) participantUsers in
  external OpCreateMongoMessages
    (CallCreateMongoMessagesEditOrder found (User.id user) (map User.id rest) orgId)
    "Failed to create messages" >>
  (* 3) Insert into [OrderChangeReview] *)
  let approvedChangeStatusId := getChangeStatusId "Approved" in
  let! approvers :=
    gets (λ w, approversOf (Order.id order) (orderParticipants (sql w))) in
  let! rejected := fails OpInsertOrderChangeReviews in
  (if rejected then throw ApolloError "Failed to insert order change reviews" else ret tt) >>
  modify (withSql (withOrderChangeReviews (λ rows, rows ++
    map (reviewRow orderChangeRequestId (User.id user) approvedChangeStatusId
           proposedChangeStatusId date) approvers))) >>
  (* 4) Insert into [OrderChangeRequestLineItem] *)
  let! rejected := fails OpInsertOrderChangeRequestLineItems in
  (if rejected then throw ApolloError "Failed to insert order change request line items"
   else ret tt) >>
  modify (withSql (withOrderChangeRequestLineItems (λ rows, rows ++
    generateOrderChangeRequestLineItems lineItems shippingInformation order
      orderChangeRequestId))).

Definition invokeChangeControl (order : Order.t) (user : option User.t) (orgId : Id)
    (lineItems : OrderLineItemsInput) (shippingInformation : Fields)
    (orderChangeRequestNote : option Value)
    (extraData : option (list ExtraDataInput)) : M unit :=
  let! changeRequestNumber := readChangeRequestNumber order orgId extraData in
  storeChangeRequest order user orgId lineItems shippingInformation
    orderChangeRequestNote changeRequestNumber.

(** ** The order mutation router ([editOrder], edit.ts) *)

Definition editPOMessageThread (orderId : Id) : M unit :=
  external OpMessageThread (CallEditPOMessageThread orderId)
    "Failed to edit message thread".

(** [orderStatusId && orderStatusId !== order.orderStatusId] *)
Definition statusChange (orderStatusId : option Id) (order : Order.t) : option Id :=
  match orderStatusId with
  | Some s =>
      if negb (s =? 0) && bool_decide (s ≠ Order.orderStatusId order) then Some s else None
  | None => None
  end.

(** The [orderStatusId] key of an input object, when it has one. *)
Definition statusField (orderStatusId : option Id) : Fields :=
  match orderStatusId with
  | Some s => {[ "orderStatusId"%string := VNum s ]}
  | None => ∅
  end.

(** Edit order and reset it, without change control. Used by integration.
    [inputSubShip] is given by its three parts; the [inputRest] of this
    function keeps the [orderStatusId] key. *)
Definition editAndResetOrder (user : option User.t) (order : Order.t)
    (shippingInformation : OrderShippingInformationInput)
    (lineItemsKey : option OrderLineItemsInput) (orderStatusIdKey : option Id)
    (otherKeys : Fields) (context : GraphQLContext.t) : M Order.t :=
  let orgId := GraphQLContext.orgId context in
  let lineItems := default noLineItems lineItemsKey in
  let inputRest := spread otherKeys (statusField orderStatusIdKey) in
  checkLineItems (Order.id order) lineItems >>
  let! _order :=
    match statusChange orderStatusIdKey order with
    | Some orderStatusId => editOrderStatus (Order.id order) orderStatusId context
    | None => ret order
    end in
  resetOrder _order >>
  updateOrder (Order.id _order) orgId
    (spread inputRest (shippingInfoSubExtra shippingInformation))
    (extraData shippingInformation) >>
  let! _order := orderLoader (Order.id order) in
  updateLineItems _order user lineItems >>
  checkReadyForBookingResolver (Order.id order) context >>
  orderLoader (Order.id order).

(** [editFields = {...shippingInformation, ...inputSubShip}] *)
Definition editFieldsOf (shippingInformation : OrderShippingInformationInput)
    (input : EditOrderInput) : gmap string EditParam :=
  let shipping : gmap string EditParam :=
    spread (PScalar <$> shippingInfoSubExtra shippingInformation)
      (match extraData shippingInformation with
       | Some l => {[ "extraData"%string := PExtraData l ]}
       | None => ∅
       end) in
  let inputSubShip : gmap string EditParam :=
    spread (PScalar <$> spread (inputRest input) (statusField (orderStatusId input)))
      (match lineItems input with
       | Some li => {[ "lineItems"%string := PLineItems li ]}
       | None => ∅
       end) in
  spread shipping inputSubShip.

Definition defaultExcludedFromChangeCtl : list string :=
  ["cargoReadyDate"; "hotFlag"; "specialInstructions"]%string.

(** [poPrefs?.excludeChangeControl || [...]] (an array is truthy) *)
Definition excludedFromChangeCtl (poPrefs : option PurchaseOrderPreferences)
    : list string :=
  default defaultExcludedFromChangeCtl (poPrefs ≫= excludeChangeControl).

(** shippingInformation field(s) that never have change control *)
Definition shippingNoChangeCtl (excluded : list string) (shipping : Fields) : Fields :=
  filter (λ kv, kv.1 ∈ excluded) shipping.

Definition shippingInfoChangeReq (excluded : list string) (shipping : Fields) : Fields :=
  filter (λ kv, kv.1 ∉ excluded) shipping.

(** lodash [isEmpty] on an object of scalars. *)
Definition isEmptyFields (m : Fields) : bool := bool_decide (m = ∅).

Definition hasChangeControl (poPrefs : option PurchaseOrderPreferences)
    (order : Order.t) (shipping : Fields) (lineItems : OrderLineItemsInput) : bool :=
  let receivedStatusId := getStatusId "Received" "OrderStatus" in
  let acceptedStatusId := getStatusId "Accepted" "OrderStatus" in
  bool_decide (poPrefs ≫= enableChangeControl = Some true)
  && (bool_decide (Order.orderStatusId order = receivedStatusId)
      || bool_decide (Order.orderStatusId order = acceptedStatusId))
  && (negb (isEmptyFields (shippingInfoChangeReq (excludedFromChangeCtl poPrefs) shipping))
      || negb (isEmptyLineItems lineItems)).

Definition hasOnlyChangeControl (poPrefs : option PurchaseOrderPreferences)
    (order : Order.t) (shipping : Fields) (lineItems : OrderLineItemsInput) : bool :=
  hasChangeControl poPrefs order shipping lineItems
  && isEmptyFields (shippingNoChangeCtl (excludedFromChangeCtl poPrefs) shipping).

(** The fork in the road (edit.ts, from the computation of
    [excludedFromChangeCtl] to the end of the [if]/[else]): whether to
    change the stored order or to propose the edits as a change request. *)
Definition editOrderRoute (input : EditOrderInput) (order : Order.t)
    (user : option User.t) (orgId : Id) (poPrefs : option PurchaseOrderPreferences)
    (lineItems : OrderLineItemsInput)
    (shippingInformation : OrderShippingInformationInput) : M unit :=
  let excluded := excludedFromChangeCtl poPrefs in
  let shipping := shippingInfoSubExtra shippingInformation in
  if negb (hasChangeControl poPrefs order shipping lineItems) then
    (* Path A: no change control. *)
    updateOrder (orderId input) orgId (spread (inputRest input) shipping)
      (extraData shippingInformation) >>
    let! _order := orderLoader (orderId input) in
    updateLineItems _order user lineItems
  else
    (* Path B & C *)
    invokeChangeControl order user orgId lineItems shipping
      (inputRest input !! "orderChangeRequestNote"%string)
      (extraData shippingInformation) >>
    (* Path C *)
    when (negb (hasOnlyChangeControl poPrefs order shipping lineItems))
      (updateOrder (orderId input) orgId
         (spread (inputRest input) (shippingNoChangeCtl excluded shipping))
         (extraData shippingInformation)).

Definition associatedCompanyIdKeys : list string :=
  ["agentId"; "brokerId"; "consigneeId"; "forwarderId"; "supplierId"; "truckerId"]%string.

(** The housekeeping after the fork: the ready-for-booking check, the
    re-read of the order, and the message-thread notification. *)
Definition editOrderFinish (input : EditOrderInput) (context : GraphQLContext.t)
    (order : Order.t) (editFields : gmap string EditParam) : M Order.t :=
  checkReadyForBookingResolver (Order.id order) context >>
  let! updatedOrder := orderLoader (orderId input) in
  let participantUpdated :=
    find (λ associatedCompanyIdKey,
            bool_decide (is_Some (editFields !! associatedCompanyIdKey)))
      associatedCompanyIdKeys in
  when (present participantUpdated) (editPOMessageThread (orderId input)) >>
  ret updatedOrder.

(** What the first part of [editOrder] hands to the fork: the order as
    re-read after a status change, and the values computed on the way. *)
Record Routing := mkRouting {
  routedOrder : Order.t;
  routedUser : option User.t;
  routedOrgId : Id;
  routedPoPrefs : option PurchaseOrderPreferences;
  routedLineItems : OrderLineItemsInput;
  routedShippingInformation : OrderShippingInformationInput;
  routedEditFields : gmap string EditParam;
}.

(** [editOrder] up to the fork: loading, authorization, editability, the
    integration path (which returns from here), field permissions,
    line-item validation and the status sub-operation. *)
Definition editOrderPrepare (input : EditOrderInput) (context : GraphQLContext.t)
    : M (Order.t + Routing) :=
  let orgId := GraphQLContext.orgId context in
  let shippingInformation := default noShippingInformation (shippingInformation input) in
  (* Clear the cache of this order to prevent race conditions. *)
  let! order := orderLoader (orderId input) in
  let! buyer :=
    match findCompany (Order.buyerId order) with
    | Some buyer => ret buyer
    | None => throw SyntaxError "Unexpected token u in JSON at position 0"
    end in
  let user := findUser (userId input) in
  let! fulfillments := gets (λ w, getFulfillmentsForOrder (orderId input) (bookings w)) in
  (* Check user assosiated company *)
  (if negb (isVisible context order)
   then throw ForbiddenError "User does not have permission to edit this order."
   else ret tt) >>
  let '(isEditable, message) := isOrderEditable order user context fulfillments in
  (if negb isEditable then throw ForbiddenError message else ret tt) >>
  let isIntegration := checkPermissions (GraphQLContext.permissions context) [INTEGRATION] in
  let missingLocation (shippingInformation : OrderShippingInformationInput) : bool :=
    negb (truthy (shippingInfoSubExtra shippingInformation !! "destinationId"%string))
    && isIntegration && Company.enableLocationAutoCreate buyer in
  (* Handle unknown Locations coming in via integration: *)
  let! shippingInformation :=
    if missingLocation shippingInformation then
      match shipToLocation input with
      | Some shipToLocation =>
          let shipToLocation :=
            mkLocationInput (locationName shipToLocation) (Some (Order.buyerId order)) in
          external OpCreateOrGetLocation (CallCreateOrGetLocation shipToLocation)
            "Failed to create location" >>
          ret (mkShipping (extraData shippingInformation)
                 (<[ "destinationId"%string := VNum (locationIdOf shipToLocation) ]>
                    (shippingInfoSubExtra shippingInformation)))
      | None => ret shippingInformation
      end
    else ret shippingInformation in
  if isIntegration then
    (* Integration resets the order and never invokes change control. *)
    let! updatedOrder :=
      editAndResetOrder user order shippingInformation (lineItems input)
        (orderStatusId input) (inputRest input)
        (GraphQLContext.mk (Order.buyerId order) (GraphQLContext.userId context)
           (GraphQLContext.permissions context)) in
    (* Notify the buyer if this order is missing a destinationId: *)
    when (missingLocation shippingInformation)
      (external OpNotify
         (CallNotifyOrderMissingLocation (Order.id updatedOrder)
            (Company.locationAutoCreateContactList buyer))
         "Failed to notify") >>
    ret (inl updatedOrder)
  else
    let editFields := editFieldsOf shippingInformation input in
    let! poPrefs :=
      checkFieldsEditable (userId input) orgId (Order.buyerId order) editFields in
    let lineItems := default noLineItems (lineItems input) in
    checkLineItems (orderId input) lineItems >>
    (* Editing order status needs to do additional housekeeping. *)
    let! order :=
      match statusChange (orderStatusId input) order with
      | Some orderStatusId => editOrderStatus (orderId input) orderStatusId context
      | None => ret order
      end in
    ret (inr (mkRouting order user orgId poPrefs lineItems shippingInformation editFields)).

Definition editOrder (input : EditOrderInput) (context : GraphQLContext.t)
    : M Order.t :=
  let! prepared := editOrderPrepare input context in
  match prepared with
  | inl updatedOrder => ret updatedOrder
  | inr r =>
      editOrderRoute input (routedOrder r) (routedUser r) (routedOrgId r)
        (routedPoPrefs r) (routedLineItems r) (routedShippingInformation r) >>
      editOrderFinish input context (routedOrder r) (routedEditFields r)
  end.

(** ** Query runners *)

(** [queryRunnerStartTransaction()]: a new runner with its connection
    and an open transaction. *)
Definition queryRunnerStartTransaction : M nat :=
  let! qr := gets (λ w, length (runners w)) in
  modify (λ w, withRunners (λ l, l ++ [mkRunner true false (sql w)]) w) >>
  ret qr.

Definition commitTransaction (qr : nat) : M unit :=
  modify (withRunners (alter (λ r, mkRunner false (isReleased r) (snapshot r)) qr)).

(** The tables go back to the snapshot; identity values are not reused. *)
Definition rollbackTransaction (qr : nat) : M unit :=
  modify (λ w,
    match runners w !! qr with
    | Some r =>
        withRunners (alter (λ r, mkRunner false (isReleased r) (snapshot r)) qr)
          (withSql (λ s, withNextOid (λ _, nextOid s) (snapshot r)) w)
    | None => w
    end).

Definition release (qr : nat) : M unit :=
  modify (withRunners (alter (λ r, mkRunner (isTransactionActive r) true (snapshot r)) qr)).

(** [qr.isTransactionActive] *)
Definition transactionActive (qr : nat) : M bool :=
  gets (λ w, default false (isTransactionActive <$> runners w !! qr)).

(** ** Participant replacement ([editOrderParticipants], edit-participants.ts) *)

(** An insert of participant rows with [INSERTED.*] returned: [raw] holds
    the inserted rows, none when the statement affects no row. *)
Fixpoint insertOrderParticipants (orderId : Id) (values : list Guard.ParticipantPick)
    : M (list OrderParticipant.t) :=
  match values with
  | [] => ret []
  | p :: rest =>
      let! oid := freshOid in
      let row := OrderParticipant.mk oid orderId (Guard.userId p)
                   (Guard.approvalIsRequired p) in
      modify (withSql (withOrderParticipants (λ rows, rows ++ [row]))) >>
      let! rows := insertOrderParticipants orderId rest in
      ret (row :: rows)
  end.

Definition executeInsertOrderParticipants (orderId : Id)
    (values : list Guard.ParticipantPick) : M (list OrderParticipant.t) :=
  let! noRow := fails OpInsertOrderParticipants in
  if noRow then ret [] else insertOrderParticipants orderId values.

Definition pickOf (p : OrderParticipant.t) : Guard.ParticipantPick :=
  Guard.mkPick (OrderParticipant.userId p) (OrderParticipant.approvalIsRequired p).

Definition editOrderParticipants (orderId : Id) (participants : list Guard.ParticipantPick)
    (context : GraphQLContext.t) : M (list OrderParticipant.t) :=
  let permissions := GraphQLContext.permissions context in
  let isIntegration := checkPermissions permissions [INTEGRATION] in
  let! order := orderLoader orderId in
  (* get current user info *)
  let thisUser := findUser (GraphQLContext.userId context) in
  (if negb (isUserInAssociatedCompany order thisUser) && negb isIntegration
   then throw ForbiddenError "Unauthorized participant user" else ret tt) >>
  (* verify all participants being added are in fact buyer or supplier users *)
  forEach participants (λ p,
    let pUser := findUser (Guard.userId p) in
    if negb (isUserInAssociatedCompany order pUser) && negb isIntegration
    then throw ForbiddenError "Unauthorized participant" else ret tt) >>
  (* remember current list of participants *)
  let! currentParticipants :=
    gets (λ w, filter (λ p, OrderParticipant.orderId p = orderId)
                 (orderParticipants (sql w))) in
  let isAdminOrStaff := checkPermissions permissions [ADMIN; STAFF] in
  (* Check if user is allowed to modify these participants *)
  (if negb isAdminOrStaff && negb isIntegration then
     match thisUser with
     | Some thisUser =>
         if negb (Guard.isAllowedToEditParticipants (pickOf <$> currentParticipants)
                    participants (User.id thisUser))
         then throw ApolloError "Unauthorized change controller modification"
         else ret tt
     | None =>
         (* [thisUser.id] is read for the first current participant whose
            approval is required; with none, the guard allows the edit *)
         if existsb OrderParticipant.approvalIsRequired currentParticipants
         then throw TypeError "Cannot read properties of undefined"
         else ret tt
     end
   else ret tt) >>
  (* Clear all existing participants *)
  let! rejected := fails OpDeleteOrderParticipants in
  (if rejected then throw ApolloError "Failed to delete participants" else ret tt) >>
  modify (withSql (withOrderParticipants
    (filter (λ p, OrderParticipant.orderId p ≠ orderId)))) >>
  if (length participants <? 1)%nat then
    editPOMessageThread orderId >>
    ret [] (* this is a participants delete all *)
  else
    (* Add participants *)
    let! qr := queryRunnerStartTransaction in
    let! inserted := executeInsertOrderParticipants orderId participants in
    (if isEmptyList inserted then throw ApolloError "Failed to create participants"
     else ret tt) >>
    let participantIds := OrderParticipant.id <$> inserted in
    commitTransaction qr >>
    release qr >> (* Required *)
    editPOMessageThread orderId >>
    gets (λ w, filter (λ p, OrderParticipant.id p ∈ participantIds)
                 (orderParticipants (sql w))).

(** ** Order creation ([createOrderParticipants], [createOrder], create.ts) *)

(** [!participantId] is false *)
Definition truthyId (o : option Id) : bool :=
  match o with
  | Some n => negb (n =? 0)
  | None => false
  end.

(** [participants.sort((a, b) => a.participantId > b.participantId ? 1 : -1)] *)
Definition sortByParticipantId (participants : list OrderParticipantsRights.t)
    : list OrderParticipantsRights.t :=
  merge_sort
    (H := λ a b, decide (OrderParticipantsRights.participantId a
                         ≤ OrderParticipantsRights.participantId b))
    (λ a b, OrderParticipantsRights.participantId a
            ≤ OrderParticipantsRights.participantId b) participants.

(** The callback of [[buyerOrgId, supplierOrgId].map(...)] for one company:
    the element it returns ([None] for [undefined]) and the [participants]
    array as it leaves it (the fallback sorts the array in place). *)
Definition pickDefaultApprover (companyId : option Id)
    (participants : list OrderParticipantsRights.t)
    : option Id * list OrderParticipantsRights.t :=
  (* Pick the first participant that has isAllowedToAcceptChangeRequest set *)
  let participantId :=
    OrderParticipantsRights.participantId <$>
      find (λ p, bool_decide (Some (OrderParticipantsRights.orgId p) = companyId)
                 && OrderParticipantsRights.isAllowedToAcceptChangeRequest p)
        participants in
  if negb (truthyId participantId) then
    let participants := sortByParticipantId participants in
    (OrderParticipantsRights.participantId <$>
       find (λ p, bool_decide (Some (OrderParticipantsRights.orgId p) = companyId))
         participants,
     participants)
  else (participantId, participants).

(** [new Set([buyerOrgId, supplierOrgId].map(...))], kept as the mapped
    array; with it the [participants] array after the callbacks ran. *)
Definition defaultApproversOf (buyerOrgId : Id) (supplierOrgId : option Id)
    (participants : list OrderParticipantsRights.t)
    : list (option Id) * list OrderParticipantsRights.t :=
  let '(first, participants) := pickDefaultApprover (Some buyerOrgId) participants in
  let '(second, participants) := pickDefaultApprover supplierOrgId participants in
  ([first; second], participants).

(** [defaultApprovers.size] *)
Definition setSize (elements : list (option Id)) : nat := length (remove_dups elements).

(** [[...].filter(Boolean)] on company ids *)
Definition filterBoolean (ids : list (option Id)) : list Id :=
  omap (λ o, if truthyId o then o else None) ids.

Definition createOrderParticipants (buyerOrgId : Id) (supplierOrgId : option Id)
    (otherCompanyIds : list (option Id)) (orderId : Id) (queryRunner : option nat)
    : M unit :=
  let orgIds := filterBoolean (Some buyerOrgId :: supplierOrgId :: otherCompanyIds) in
  let participants :=
    filter (λ p, OrderParticipantsRights.orgId p ∈ orgIds) orderParticipantsRights in
  let '(defaultApprovers, participants) :=
    defaultApproversOf buyerOrgId supplierOrgId participants in
  (if bool_decide (setSize defaultApprovers = 0%nat)
   then throw ApolloError ("No default participants for order " +:+ pretty orderId +:+ ".")
   else ret tt) >>
  let! inserted :=
    executeInsertOrderParticipants orderId
      (map (λ p, Guard.mkPick (OrderParticipantsRights.participantId p)
                   (if bool_decide (Some (OrderParticipantsRights.participantId p)
                                    ∈ defaultApprovers)
                    then true else false))
         participants) in
  if isEmptyList inserted then throw ApolloError "Failed to create order participants."
  else ret tt.

Record CreateOrderInput := mkCreateOrderInput {
  createExtraData : option (list ExtraDataInput);
  createShippingInformation : Fields;
  createLineItems : option (list Fields);
  createUserId : Id;
  createParticipantId : Id;
  createShipToLocation : option LocationInput;
  createFields : Fields;
}.

(** A company id held in an object of scalars. *)
Definition idOf (v : option Value) : option Id :=
  match v with
  | Some (VNum n) => Some n
  | _ => None
  end.

(** [a ?? b] *)
Definition nullish (a b : option Value) : option Value :=
  match a with
  | None | Some VNull => b
  | _ => a
  end.

(** [`${error}`] *)
Definition errorToString (e : Error) : string :=
  (match errKind e with
   | ForbiddenError => "ForbiddenError" | ApolloError => "Error"
   | TypeError => "TypeError" | SyntaxError => "SyntaxError"
   | QueryFailedError => "QueryFailedError"
   end +:+ ": " +:+ errMessage e)%string.

(** The statements of the [try] block of [createOrder] before the commit:
    the order row, its participants, the extra data and the milestones,
    all through the runner [qr]. *)
Definition createOrderWrites (input : CreateOrderInput) (orgId : Id)
    (orderOrgsFields : Fields) (termsAndConditions purchaseOrderNumber : option Value)
    (qr : nat) : M Id :=
  let issuedStatusId := getStatusId "Issued" "OrderStatus" in
  let! createdOn := gets now in
  let! noRow := fails OpInsertOrder in
  (if noRow then throw ApolloError "Failed to create order" else ret tt) >>
  let! orderId := freshOid in
  let columns : Fields :=
    spread (spread {[ "orgId"%string := VNum orgId ]} orderOrgsFields)
      (spread (createShippingInformation input)
         (spread
            (list_to_map
               (omap (λ kv, pair kv.1 <$> kv.2)
                  [("termsAndConditions"%string, termsAndConditions);
                   ("purchaseOrderNumber"%string, purchaseOrderNumber)]))
            (list_to_map
               [("createdOn"%string, VNum createdOn);
                ("lastUpdatedDate"%string, VNum createdOn)]))) in
  modify (withSql (withOrders (λ rows, rows ++
    [Order.mk orderId (default 0 (idOf (orderOrgsFields !! "buyerId"%string)))
       (idOf (orderOrgsFields !! "supplierId"%string)) issuedStatusId false columns]))) >>
  createOrderParticipants orgId (idOf (createFields input !! "supplierId"%string))
    [idOf (createFields input !! "consigneeId"%string);
     idOf (createFields input !! "forwarderId"%string)]
    orderId (Some qr) >>
  (match createExtraData input with
   | Some (_ :: _ as extraData) =>
       let! rejected := fails OpCreateExtraData in
       if rejected then throw ApolloError "Failed to create extra data" else
       modify (withSql (withExtraDataRows (λ rows,
         rows ++ map (ExtraData.mk orgId orderId "Order") extraData)))
   | _ => ret tt
   end) >>
  external OpCreateOrderMilestones (CallCreateOrderMilestones orderId orgId)
    "Failed to create milestones" >>
  ret orderId.

(** The transaction of [createOrder] (create.ts, from
    [queryRunnerStartTransaction] to the end of the [catch]). *)
Definition createOrderTransaction (input : CreateOrderInput) (orgId : Id)
    (orderOrgsFields : Fields) (termsAndConditions purchaseOrderNumber : option Value)
    : M Id :=
  let! qr := queryRunnerStartTransaction in
  tryCatch
    (let! orderId :=
       createOrderWrites input orgId orderOrgsFields termsAndConditions
         purchaseOrderNumber qr in
     commitTransaction qr >>
     release qr >> (* Required *)
     ret orderId)
    (λ error,
      let! active := transactionActive qr in
      when active (rollbackTransaction qr) >>
      release qr >>
      throw ApolloError ("createOrder " +:+ errorToString error)).

(** [validateOrderOrg] (validate-order-org.ts) provisions organisations
    outside the relational order tables; here it is the logged call and
    the ids it resolves to. *)
Definition validateOrderOrg (fields : Fields) (buyer : Company.t) : M Fields :=
  external OpValidateOrderOrg (CallValidateOrderOrg (Company.orgId buyer))
    "Failed to validate order organisations" >>
  ret (createdOrgsOf fields).

Definition orderOrgsKeys : list string :=
  ["buyerId"; "supplierId"; "forwarderId"; "consigneeId"; "agentId"; "brokerId";
   "truckerId"]%string.

Definition createOrder (input : CreateOrderInput) (context : GraphQLContext.t)
    : M Order.t :=
  let fields := createFields input in
  let shippingInformation := createShippingInformation input in
  let user := findUser (createUserId input) in
  let buyer := idOf (fields !! "buyerId"%string) ≫= findCompany in
  let participant := findUser (createParticipantId input) in
  let orgId := GraphQLContext.orgId context in
  let buyerOrgRole := lookupByValueLoader "EntityRole,Buyer" in
  let currentOrgRoles := entityRolesLoader orgId in
  let isBuyerRole :=
    match buyerOrgRole with
    | Some role => bool_decide (role ∈ currentOrgRoles)
    | None => false
    end in
  let isIntegration := checkPermissions (GraphQLContext.permissions context) [INTEGRATION] in
  let! buyer :=
    match buyer with
    | Some buyer => ret buyer
    | None => throw SyntaxError "Unexpected token u in JSON at position 0"
    end in
  let! orgId :=
    if isIntegration then ret (Company.orgId buyer)
    else if negb (present user)
            || negb (bool_decide (User.orgId <$> user = Some orgId))
            || negb isBuyerRole
            || (bool_decide (Company.allowExternalCreation buyer = Some false)
                && bool_decide (Company.orgId buyer ≠ orgId))
    then throw ForbiddenError
           ("User " +:+ pretty (createUserId input)
            +:+ " does not have permission to create an order for this org.")
    else if negb (present participant)
    then throw ForbiddenError "Invalid participant provided"
    else ret orgId in
  let preferences :=
    getPreferences (createUserId input) orgId
      (default 0 (idOf (fields !! "buyerId"%string))) in
  let poPrefs := preferences ≫= purchaseOrder in
  (* integration uses fields  but UI uses shippingInformation to store PO number *)
  let purchaseOrderNumber :=
    nullish (fields !! "purchaseOrderNumber"%string)
      (shippingInformation !! "purchaseOrderNumber"%string) in
  let orderOrgsFields : Fields := filter (λ kv, kv.1 ∈ orderOrgsKeys) fields in
  let isOrgAutoCreateEnabled :=
    isIntegration && Company.enableCompanyAutoCreate buyer
    && negb (isEmptyList (Company.companyAutoCreateContactList buyer)) in
  let! autoCreatedOrgs :=
    if isOrgAutoCreateEnabled then validateOrderOrg fields buyer else ret (∅ : Fields) in
  let orderOrgsFields := spread orderOrgsFields autoCreatedOrgs in
  (* Validate whether fields are editable *)
  forEach (entriesOf (spread shippingInformation fields)) (λ '(key, _),
    if isEditOrderKey key then
      let! poPrefs := must poPrefs in
      if negb (default false (getFieldConfig (ownKeys poPrefs !! key) CREATE))
         && negb isIntegration
      then throw ForbiddenError ("User does not have permission to create field " +:+ key)
      else ret tt
    else ret tt) >>
  (* Use default T&C if none provided. *)
  let termsAndConditions :=
    if truthy (shippingInformation !! "termsAndConditions"%string)
    then shippingInformation !! "termsAndConditions"%string
    else preferences ≫= termsAndConditions in
  let missingLocation (shippingInformation : Fields) : bool :=
    negb (truthy (shippingInformation !! "destinationId"%string)) && isIntegration
    && default false (prefEnableLocationAutoCreate <$> preferences) in
  (* Handle unknown Locations coming in via integration: *)
  let! shippingInformation :=
    if missingLocation shippingInformation then
      match createShipToLocation input with
      | Some shipToLocation =>
          let shipToLocation :=
            mkLocationInput (locationName shipToLocation) (Some (Company.orgId buyer)) in
          external OpCreateOrGetLocation (CallCreateOrGetLocation shipToLocation)
            "Failed to create location" >>
          ret (<[ "destinationId"%string := VNum (locationIdOf shipToLocation) ]>
                 shippingInformation)
      | None => ret shippingInformation
      end
    else ret shippingInformation in
  let input :=
    mkCreateOrderInput (createExtraData input) shippingInformation (createLineItems input)
      (createUserId input) (createParticipantId input) (createShipToLocation input)
      fields in
  let! orderId :=
    createOrderTransaction input orgId orderOrgsFields termsAndConditions
      purchaseOrderNumber in
  (* Essentially this is a after insert trigger. *)
  let! purchaseOrderNumber :=
    if negb (truthy purchaseOrderNumber) then
      external OpGenAndUpdatePONumber (CallGenAndUpdatePONumber orgId orderId)
        "Failed to generate PO number" >>
      ret (Some (generatedPONumber orgId orderId))
    else ret purchaseOrderNumber in
  (* Adding line items takes too long to include in transaction. *)
  (match createLineItems input with
   | Some lineItems =>
       call (CallAddLineItemsToOrder orderId) >>
       let! _ := lineItemQuery
         (addLineItemsToOrder lineItems orderId
            (idOf (fields !! "supplierId"%string)) orgId) in
       ret tt
   | None => ret tt
   end) >>
  external OpCreateMongoMessages
    (CallCreateMongoMessagesCreateOrder orderId purchaseOrderNumber (User.id <$> user)
       [User.id <$> participant])
    "Failed to create messages" >>
  let! createdOrder := orderLoader orderId in
  (* Notify the buyer if this order is missing a destinationId: *)
  when (missingLocation shippingInformation)
    (external OpNotify
       (CallNotifyOrderMissingLocation (Order.id createdOrder)
          (default [] (prefLocationAutoCreateContactList <$> preferences)))
       "Failed to notify") >>
  when isOrgAutoCreateEnabled
    (external OpNotify
       (CallNotifyOrderOrgsAutoCreation (Order.id createdOrder)
          (Company.companyAutoCreateContactList buyer))
       "Failed to notify") >>
  (* Notify agent/broker of assignment to order: *)
  external OpNotify (CallNotifyOrderAssignment (Order.id createdOrder))
    "Failed to notify" >>
  external OpMessageThread (CallCreatePOMessageThread (createUserId input) orderId)
    "Failed to create message thread" >>
  ret createdOrder.

End Resolvers.

(** ** A concrete environment

    One buyer organisation with change control enabled, one accepted
    order with three participants (two of them required approvers), and
    collaborators that let every check pass. *)

Module Demo.

Definition statusIds (name domain : string) : Id :=
  if bool_decide (name = "Issued"%string) then 1
  else if bool_decide (name = "Received"%string) then 2
  else if bool_decide (name = "Accepted"%string) then 3
  else if bool_decide (name = "Canceled"%string) then 4
  else if bool_decide (name = "Rejected"%string) then 5
  else 6.

Definition changeStatusIds (name : string) : Id :=
  if bool_decide (name = "Proposed"%string) then 1
  else if bool_decide (name = "Approved"%string) then 2
  else 3.

Definition lookups (key : string) : option Id :=
  if bool_decide (key = "BookingStatus,Canceled"%string) then Some 90
  else if bool_decide (key = "ShipmentStatus,Canceled"%string) then Some 91
  else if bool_decide (key = "EntityRole,Buyer"%string) then Some 70
  else if bool_decide (key = "LocationType,Destination"%string) then Some 71
  else None.

Definition poPrefs : PurchaseOrderPreferences := mkPoPrefs (Some true) None ∅ ∅.

Definition buyer : Company.t := Company.mk 100 false [] None false [].

(** A buyer whose unknown locations are created on the way. *)
Definition autoLocationBuyer : Company.t :=
  Company.mk 101 true ["ops@buyer.example"%string] None false [].

(** Every user is known but user 99. *)
Definition users (id : Id) : option User.t :=
  if bool_decide (id = 99) then None else Some (User.mk id 100).

Definition companies (id : Id) : option Company.t :=
  if bool_decide (id = 101) then Some autoLocationBuyer else Some buyer.

Definition insertResponse : CombinedResponse :=
  mkResponse InsertResult (RawArray [["Oid"; "OrderOid"]%string]).

(** The derived ready-for-booking state taken here: the order has a line
    item. *)
Definition hasLineItem (s : Sql) (orderId : Id) : bool :=
  existsb (λ li, bool_decide (OrderLineItem.orderId li = orderId)) (orderLineItems s).

Definition collaborators : Collaborators := {|
  getStatusId := statusIds;
  getChangeStatusId := changeStatusIds;
  lookupByValueLoader := lookups;
  findUser := users;
  findCompany := companies;
  entityRolesLoader := λ _, [70];
  isVisible := λ _ _, true;
  getFulfillmentsForOrder := λ _ _, [];
  isOrderEditable := λ _ _ _ _, (true, ""%string);
  checkPermissions := λ permissions wanted,
    existsb (λ p, bool_decide (p ∈ permissions)) wanted;
  isUserInAssociatedCompany := λ _ _, true;
  getPreferences := λ _ _ _, Some (mkPreferences (Some poPrefs) None false []);
  isEditOrderKey := λ _, true;
  getFieldConfig := λ _ _, Some true;
  generateChangeRequestDescription := λ _ _ _, "Changes proposed"%string;
  generateOrderChangeRequestLineItems := λ _ shipping _ orderChangeRequestId,
    [OrderChangeRequestLineItem.mk orderChangeRequestId shipping];
  orderReadyForBookingErrors := λ _ _, [];
  readyForBookingState := hasLineItem;
  getOrderMilestoneByName := λ _ _, None;
  locationIdOf := λ _, 500;
  generatedPONumber := λ _ orderId, VNum (9000 + orderId);
  utcOffset := λ _, 3600000;
  keyPlace := λ key, Z.of_nat (String.length key);
  createdOrgsOf := λ _, ∅;
  orderParticipantsRights :=
    [OrderParticipantsRights.mk 9 300 false];
  replaceLineItemsInOrder := λ items orderId _ _ rows,
    (insertResponse,
     filter (λ li, OrderLineItem.orderId li ≠ orderId) rows
     ++ map (OrderLineItem.mk 0 orderId) items);
  addLineItemsToOrder := λ items orderId _ _ rows,
    (insertResponse, rows ++ map (OrderLineItem.mk 0 orderId) items);
  editLineItemsInOrder := λ _ _ _ rows,
    (mkResponse UpdateResult (RawArray [["Oid"; "OrderOid"]%string]), rows);
  removeLineItemsFromOrder := λ ids _ rows,
    (mkResponse OtherResult (RawArray []),
     filter (λ li, OrderLineItem.id li ∉ ids) rows);
|}.

Definition order : Order.t :=
  Order.mk 1 100 (Some 200) 3 true
    {[ "specialInstructions"%string := VStr "keep dry";
       "destinationId"%string := VNum 5 ]}.

Definition relational : Sql := {|
  orders := [order];
  orderLineItems := [OrderLineItem.mk 31 1 {[ "quantity"%string := VNum 10 ]}];
  orderParticipants :=
    [OrderParticipant.mk 11 1 7 true; OrderParticipant.mk 12 1 8 true;
     OrderParticipant.mk 13 1 9 false];
  orderChangeRequests := [];
  orderChangeReviews := [];
  orderChangeRequestLineItems := [];
  extraDataRows := [];
  nextOid := 50;
|}.

Definition noBookings : Bookings := {|
  fulfillmentRollup := [];
  bookingRequestLoader := λ id, BookingRequest.mk id 90;
  bookingConfirmations := [];
  shipments := [];
  lineItemLinks := [];
|}.

Definition world : World := {|
  sql := relational;
  bookings := noBookings;
  runners := [];
  failing := [];
  now := 1767225600123;
  calls := [];
|}.

Definition context : GraphQLContext.t := GraphQLContext.mk 100 7 [].

Definition adminContext : GraphQLContext.t := GraphQLContext.mk 100 7 [ADMIN].

(** The environment makes one operation fail. *)
Definition failingOn (op : Op) (w : World) : World :=
  mkWorld (sql w) (bookings w) (runners w) [op] (now w) (calls w).

(** A payload that replaces and adds line items at once. *)
Definition editConflictingItems : EditOrderInput := {|
  userId := 7;
  orderId := 1;
  shipToLocation := None;
  shippingInformation := None;
  lineItems :=
    Some (mkLineItemsInput (Some [{[ "quantity"%string := VNum 2 ]}]) None None
            (Some [{[ "quantity"%string := VNum 3 ]}]));
  orderStatusId := None;
  inputRest := ∅;
|}.


(** An edit with no shipping field outside the exclusion list, and a
    line-item instruction. *)
Definition editInstructionsAndItems : EditOrderInput := {|
  userId := 7;
  orderId := 1;
  shipToLocation := None;
  shippingInformation :=
    Some (mkShipping None {[ "specialInstructions"%string := VStr "fragile" ]});
  lineItems :=
    Some (mkLineItemsInput (Some [{[ "quantity"%string := VNum 2 ]}]) None None None);
  orderStatusId := None;
  inputRest := ∅;
|}.

(** Order 1 linked to one booking confirmation that was touched after
    creation and has no status. *)
Definition statuslessConfirmation : Bookings := {|
  fulfillmentRollup := [];
  bookingRequestLoader := λ id, BookingRequest.mk id 90;
  bookingConfirmations := [BookingConfirmation.mk 40 None 1000 2000];
  shipments := [];
  lineItemLinks := [LineItem.mk 40 (Some 1) None None];
|}.

(** Order 1 linked to one booking confirmation never touched after
    creation. *)
Definition untouchedConfirmation : Bookings := {|
  fulfillmentRollup := [];
  bookingRequestLoader := λ id, BookingRequest.mk id 90;
  bookingConfirmations := [BookingConfirmation.mk 40 (Some 80) 1000 1000];
  shipments := [];
  lineItemLinks := [LineItem.mk 40 (Some 1) None None];
|}.

Definition withBookings (b : Bookings) (w : World) : World :=
  mkWorld (sql w) b (runners w) (failing w) (now w) (calls w).

(** An edit of one change-controlled shipping field by user 7. *)
Definition editDestination : EditOrderInput := {|
  userId := 7;
  orderId := 1;
  shipToLocation := None;
  shippingInformation := Some (mkShipping None {[ "destinationId"%string := VNum 6 ]});
  lineItems := None;
  orderStatusId := None;
  inputRest := ∅;
|}.


(** An order of buyer 101, and an integration edit of it that names a
    ship-to location and carries contradictory line items. *)
Definition integrationOrder : Order.t := Order.mk 3 101 (Some 200) 3 true ∅.

Definition integrationWorld : World := {|
  sql := mkSql [order; integrationOrder] [] [] [] [] [] [] 50;
  bookings := noBookings;
  runners := [];
  failing := [];
  now := 1767225600123;
  calls := [];
|}.

Definition integrationContext : GraphQLContext.t := GraphQLContext.mk 101 7 [INTEGRATION].

Definition editUnknownLocation : EditOrderInput := {|
  userId := 7;
  orderId := 3;
  shipToLocation := Some (mkLocationInput "Dock 4" None);
  shippingInformation := None;
  lineItems :=
    Some (mkLineItemsInput (Some [{[ "quantity"%string := VNum 2 ]}]) None None
            (Some [{[ "quantity"%string := VNum 3 ]}]));
  orderStatusId := None;
  inputRest := ∅;
|}.

(** The request of a caller with no user row. *)
Definition unknownContext : GraphQLContext.t := GraphQLContext.mk 100 99 [].

(** A new order of buyer 100 with supplier 300, created by user 7. *)
Definition newOrder : CreateOrderInput := {|
  createExtraData := None;
  createShippingInformation := {[ "destinationId"%string := VNum 5 ]};
  createLineItems := None;
  createUserId := 7;
  createParticipantId := 8;
  createShipToLocation := None;
  createFields :=
    {[ "buyerId"%string := VNum 100; "supplierId"%string := VNum 300 ]};
|}.

(** The same collaborators with an order that is never ready to be
    accepted. *)
Definition strict : Collaborators := {|
  getStatusId := statusIds;
  getChangeStatusId := changeStatusIds;
  lookupByValueLoader := lookups;
  findUser := users;
  findCompany := companies;
  entityRolesLoader := λ _, [70];
  isVisible := λ _ _, true;
  getFulfillmentsForOrder := λ _ _, [];
  isOrderEditable := λ _ _ _ _, (true, ""%string);
  checkPermissions := λ permissions wanted,
    existsb (λ p, bool_decide (p ∈ permissions)) wanted;
  isUserInAssociatedCompany := λ _ _, true;
  getPreferences := λ _ _ _, Some (mkPreferences (Some poPrefs) None false []);
  isEditOrderKey := λ _, true;
  getFieldConfig := λ _ _, Some true;
  generateChangeRequestDescription := λ _ _ _, "Changes proposed"%string;
  generateOrderChangeRequestLineItems := λ _ shipping _ orderChangeRequestId,
    [OrderChangeRequestLineItem.mk orderChangeRequestId shipping];
  orderReadyForBookingErrors := λ _ _,
    ["Missing cargo ready date"; "Missing line items"]%string;
  readyForBookingState := hasLineItem;
  getOrderMilestoneByName := λ _ _, None;
  locationIdOf := λ _, 500;
  generatedPONumber := λ _ orderId, VNum (9000 + orderId);
  utcOffset := λ _, 3600000;
  keyPlace := λ key, Z.of_nat (String.length key);
  createdOrgsOf := λ _, ∅;
  orderParticipantsRights := [OrderParticipantsRights.mk 9 300 false];
  replaceLineItemsInOrder := λ items orderId _ _ rows, (insertResponse, rows);
  addLineItemsToOrder := λ items orderId _ _ rows, (insertResponse, rows);
  editLineItemsInOrder := λ _ _ _ rows, (insertResponse, rows);
  removeLineItemsFromOrder := λ ids _ rows, (insertResponse, rows);
|}.

(** An order of buyer 100 in Received status. *)
Definition receivedOrder : Order.t := Order.mk 2 100 (Some 200) 2 false ∅.

Definition receivedWorld : World := {|
  sql := mkSql [order; receivedOrder] [] [] [] [] [] [] 50;
  bookings := noBookings;
  runners := [];
  failing := [];
  now := 1767225600123;
  calls := [];
|}.

End Demo.

(** ** Relations between worlds

    [preserves R m]: running [m], whether it returns or throws, takes a
    world to an [R]-related one. *)

Definition preserves {A} (R : relation World) (m : M A) : Prop :=
  ∀ w, R w (m w).2.

(** The worlds agree on a component. *)
Definition keeps {C} (f : World → C) : relation World := λ w w', f w' = f w.

(** Identity values are only ever handed out upwards. *)
Definition oidGrows : relation World := λ w w', nextOid (sql w) ≤ nextOid (sql w').

Definition both (R1 R2 : relation World) : relation World := λ w w', R1 w w' ∧ R2 w w'.

(** ** Statements as the specification words them *)

(** A booking confirmation or shipment [target] is linked to the order
    through a line-item row that is not deleted. *)
Definition linkedTo (orderId target : Id) (li : LineItem.t) : Prop :=
  LineItem.target_id li = target ∧ LineItem.orderId li = Some orderId
  ∧ LineItem.deleted_at li = None.

(** No linked active record, as the code decides it: every linked booking
    request is canceled, every linked booking confirmation touched after
    creation carries the canceled booking status, and every linked
    shipment touched after creation is linked by a row that carries the
    canceled shipment status. *)
Definition noActiveRecord (b : Bookings) (orderId bookingCancel shipmentCancel : Id)
    : Prop :=
  (∀ br, br ∈ linkedBookingRequests b orderId →
         BookingRequest.bookingStatusId br = bookingCancel)
  ∧ (∀ bc li, bc ∈ bookingConfirmations b → li ∈ lineItemLinks b →
        linkedTo orderId (BookingConfirmation.id bc) li →
        BookingConfirmation.created_at bc ≠ BookingConfirmation.updated_at bc →
        BookingConfirmation.statusId bc = Some bookingCancel)
  ∧ (∀ shipment li, shipment ∈ shipments b → li ∈ lineItemLinks b →
        linkedTo orderId (Shipment.id shipment) li →
        Shipment.created_at shipment ≠ Shipment.updated_at shipment →
        LineItem.shipmentStatusId li = Some shipmentCancel).

(** No linked active record, as the specification words it: a touched
    confirmation or shipment may also have no status at all. *)
Definition noActiveRecordAsSpecified (b : Bookings)
    (orderId bookingCancel shipmentCancel : Id) : Prop :=
  (∀ br, br ∈ linkedBookingRequests b orderId →
         BookingRequest.bookingStatusId br = bookingCancel)
  ∧ (∀ bc li, bc ∈ bookingConfirmations b → li ∈ lineItemLinks b →
        linkedTo orderId (BookingConfirmation.id bc) li →
        BookingConfirmation.created_at bc ≠ BookingConfirmation.updated_at bc →
        BookingConfirmation.statusId bc = None
        ∨ BookingConfirmation.statusId bc = Some bookingCancel)
  ∧ (∀ shipment li, shipment ∈ shipments b → li ∈ lineItemLinks b →
        linkedTo orderId (Shipment.id shipment) li →
        Shipment.created_at shipment ≠ Shipment.updated_at shipment →
        LineItem.shipmentStatusId li = None
        ∨ LineItem.shipmentStatusId li = Some shipmentCancel).

(** A review row as the self-approval rule words it: the row of the
    request's author is Approved with a review date, any other row is
    Proposed without one. *)
Definition reviewAsSpecified `{Collaborators} (orderChangeRequestId author : Id)
    (p : OrderParticipant.t) (row : OrderChangeReview.t) : Prop :=
  OrderChangeReview.orderChangeRequestId row = orderChangeRequestId
  ∧ OrderChangeReview.entityId row = OrderParticipant.userId p
  ∧ (OrderParticipant.userId p = author →
     OrderChangeReview.changeStatusId row = getChangeStatusId "Approved"
     ∧ OrderChangeReview.reviewDate row ≠ None)
  ∧ (OrderParticipant.userId p ≠ author →
     OrderChangeReview.changeStatusId row = getChangeStatusId "Proposed"
     ∧ OrderChangeReview.reviewDate row = None).

(** The change requests of one order, in the order they were stored, and
    their numbers. *)
Definition requestsOf (orderId : Id) (requests : list OrderChangeRequest.t)
    : list OrderChangeRequest.t :=
  filter (λ cr, OrderChangeRequest.orderId cr = orderId) requests.

Definition numbersOf (orderId : Id) (requests : list OrderChangeRequest.t) : list Z :=
  OrderChangeRequest.changeRequestNumber <$> requestsOf orderId requests.

(** The prior maximum; 0 when the order has no change request. *)
Definition maxNumber (numbers : list Z) : Z := foldr Z.max 0 numbers.

(** The numbers run 1, 2, 3, ... *)
Definition inSequence (numbers : list Z) : Prop :=
  ∀ i n, numbers !! i = Some n → n = Z.of_nat i + 1.

(** Keys were handed out in increasing order, below the next one. *)
Definition ascending (next : Id) (requests : list OrderChangeRequest.t) : Prop :=
  (∀ cr, cr ∈ requests → OrderChangeRequest.id cr < next)
  ∧ ∀ l1 cr l2, requests = l1 ++ cr :: l2 →
      ∀ b, b ∈ l1 → OrderChangeRequest.id b < OrderChangeRequest.id cr.

Definition numbered (w : World) : Prop :=
  ascending (nextOid (sql w)) (orderChangeRequests (sql w))
  ∧ ∀ orderId, inSequence (numbersOf orderId (orderChangeRequests (sql w))).

(** One step of a history in which the calls do not interleave: a call
    of a resolver of the repository, run to its end whether it returns or
    throws, or a change of the environment between two calls (what fails
    next, the clock, the booking stores, the calls logged). *)
Inductive step `{Collaborators} : World → World → Prop :=
| step_editOrder input context w :
    step w (editOrder input context w).2
| step_editOrderStatus orderId orderStatusId context w :
    step w (editOrderStatus orderId orderStatusId context w).2
| step_editOrderParticipants orderId participants context w :
    step w (editOrderParticipants orderId participants context w).2
| step_createOrder input context w :
    step w (createOrder input context w).2
| step_environment bookings' failing' now' calls' w :
    step w (mkWorld (sql w) bookings' (runners w) failing' now' calls').

(** The worlds such a history can build from a store with no change
    request. *)
Definition reachable `{Collaborators} (w : World) : Prop :=
  ∃ w0, orderChangeRequests (sql w0) = [] ∧ rtc step w0 w.

(** Two submissions for one order whose awaits interleave: each call has
    read the last change request before the other inserts its own. *)
Definition invokeChangeControlInterleaved `{Collaborators} (order : Order.t)
    (first second : option User.t) (orgId : Id) (lineItems : OrderLineItemsInput)
    (shipping : Fields) : M unit :=
  let! firstNumber := readChangeRequestNumber order orgId None in
  let! secondNumber := readChangeRequestNumber order orgId None in
  storeChangeRequest order first orgId lineItems shipping None firstNumber >>
  storeChangeRequest order second orgId lineItems shipping None secondNumber.

(** Every runner is still there, with the snapshot it had. *)
Definition keepsSnapshots : relation World := λ w w',
  ∀ i r, runners w !! i = Some r →
         ∃ r', runners w' !! i = Some r' ∧ snapshot r' = snapshot r.

(** The change-request table is untouched. *)
Definition requestFrame : relation World :=
  both (both (keeps (λ w, orderChangeRequests (sql w))) oidGrows) keepsSnapshots.

(** Numbering survives the step. *)
Definition numberedTo : relation World := λ w w', numbered w → numbered w'.

(** Nothing at all is written. *)
Definition unchanged : relation World := keeps (λ w : World, w).





(** The change request a submission stores in world [w]. *)
Definition submittedRequest `{Collaborators} (order : Order.t) (author : User.t)
    (lineItems : OrderLineItemsInput) (shipping : Fields) (note : option Value)
    (w : World) : OrderChangeRequest.t :=
  let number :=
    nextChangeRequestNumber (Order.id order) (orderChangeRequests (sql w)) in
  OrderChangeRequest.mk (nextOid (sql w)) (Order.id order) (User.id author)
    (getChangeStatusId "Proposed") ("Change Request #" +:+ pretty number)
    (generateChangeRequestDescription lineItems shipping order)
    (dayOf (now w)) note number.

(** The readiness reset of a submission, as a write on the order table. *)
Definition markNotReady (orderId : Id) (rows : list Order.t) : list Order.t :=
  map (λ o, if bool_decide (Order.id o = orderId)
            then Order.mk (Order.id o) (Order.buyerId o) (Order.supplierId o)
                   (Order.orderStatusId o) false (Order.columns o)
            else o) rows.

(** The calls of [updateOrder] among the logged calls. *)
Definition isUpdateOrderCall (c : Call) : bool :=
  match c with CallUpdateOrder _ _ _ _ => true | _ => false end.

Definition updateOrderCalls (l : list Call) : list Call :=
  filter (λ c, isUpdateOrderCall c = true) l.

(** A direct update of the order table. *)
Definition applyTo (orderId : Id) (fields : Fields) (rows : list Order.t)
    : list Order.t :=
  map (λ o, if bool_decide (Order.id o = orderId) then applyFields fields o else o) rows.

(** The row of an order as stored. *)
Definition storedOrder (orderId : Id) (w : World) : option Order.t :=
  find (λ o, bool_decide (Order.id o = orderId)) (orders (sql w)).




(** The row of the order keeps its organisations and every column other
    than the status and the readiness flag. *)
Definition keepsColumns (orderId : Id) : relation World := λ w w',
  ∀ o, storedOrder orderId w = Some o →
       ∃ o', storedOrder orderId w' = Some o'
             ∧ Order.columns o' = Order.columns o
             ∧ Order.supplierId o' = Order.supplierId o
             ∧ Order.buyerId o' = Order.buyerId o.


(** Of the relational store, only the order table and the extra data may
    differ; the environment is the same. *)
Definition ordersOnly : relation World :=
  keeps (λ w, (orderLineItems (sql w), orderParticipants (sql w),
               orderChangeRequests (sql w), orderChangeReviews (sql w),
               orderChangeRequestLineItems (sql w), nextOid (sql w),
               failing w, now w, bookings w)).

(** What the status sub-operation and the housekeeping after the fork
    leave alone: everything but the status and the readiness flag of the
    order row, the extra data and the calls that are not order updates. *)
Definition statusFrame (orderId : Id) : relation World :=
  both (both ordersOnly (keeps (λ w, updateOrderCalls (calls w))))
       (keepsColumns orderId).


(** The line-item payload is contradictory: replace combined with add,
    edit or remove, or one line-item id both edited and removed. *)
Definition conflictingLineItems (lineItems : OrderLineItemsInput) : Prop :=
  (is_Some (replaceLineItems lineItems)
   ∧ (is_Some (addLineItems lineItems) ∨ is_Some (editLineItems lineItems)
      ∨ is_Some (removeLineItems lineItems)))
  ∨ ∃ edits removes editItem,
      editLineItems lineItems = Some edits ∧ removeLineItems lineItems = Some removes
      ∧ editItem ∈ edits ∧ lineItemId editItem ∈ removes.

(** [rejects R m]: [m] always throws, and leaves an [R]-related world. *)
Definition rejects {A} (R : relation World) (m : M A) : Prop :=
  ∀ w, (∃ e, (m w).1 = Throw e) ∧ R w (m w).2.

(** [refuses P m]: [m] writes nothing, and every error it throws
    satisfies [P]. *)
Definition refuses {A} (P : Error → Prop) (m : M A) : Prop :=
  ∀ w, (m w).2 = w ∧ ∀ e, (m w).1 = Throw e → P e.

(** The relational store once the participants of an order are deleted. *)
Definition deletedParticipants (orderId : Id) (s : Sql) : Sql :=
  withOrderParticipants (filter (λ p, OrderParticipant.orderId p ≠ orderId)) s.

(** The participants of one order. *)
Definition participantsOf (orderId : Id) (s : Sql) : list OrderParticipant.t :=
  filter (λ p, OrderParticipant.orderId p = orderId) (orderParticipants s).

(** The error of a participant insert that stored no row. *)
Definition insertFailure : Error := mkError ApolloError "Failed to create participants".

(** Any error but the one of the participant insert. *)
Definition otherError (e : Error) : Prop := errMessage e ≠ errMessage insertFailure.

(** * Read-side resolvers

    The paged queries of [orders-by.ts], [booking-confirmations-by.ts] and
    [locations.ts].  A TypeORM query builder is the list of its [andWhere]
    predicates; the SQL text the sources hand to the database, and the
    visibility helpers they import, are evaluated by the adapters below. *)

Module Paging.

(** One edge of a connection: [{ node, cursor }]. *)
Record Edge (T : Type) := mkEdge { node : T; cursor : Id }.
Arguments mkEdge {T} node cursor.
Arguments node {T} e.
Arguments cursor {T} e.

(** [{ totalCount, edges }] *)
Record Connection (T : Type) := mkConnection { totalCount : nat; edges : list (Edge T) }.
Arguments mkConnection {T} totalCount edges.
Arguments totalCount {T} c.
Arguments edges {T} c.

(** The rows a query selects: every [andWhere] holds. *)
Definition selectWhere {T} (wheres : list (T → bool)) (rows : list T) : list T :=
  filter (λ row, forallb (λ p, p row) wheres = true) rows.

(** [if (condition) query.andWhere(p)] *)
Definition andWhereIf {T} (condition : bool) (p : T → bool) : list (T → bool) :=
  if condition then [p] else [].

(** [query.skip(after).take(n).getManyAndCount()]: the page, and the count
    of all the rows the query selects.  The builder sets a limit only for
    a [take] that is truthy, so [take(0)] returns every row past [after]. *)
Definition getManyAndCount {T} (selected : list T) (after n : nat) : list T * nat :=
  (match n with
   | O => drop after selected
   | S _ => take n (drop after selected)
   end, length selected).

(** The rows of a statement without [ORDER BY], as the engine happens to
    return them: [rank] is the place the engine gives a row. *)
Definition engineOrder {T} (rank : T → Z) (rows : list T) : list T :=
  arrangedBy rank rows.

End Paging.

(** [GetByArgs]; [first] and [after] are counts. *)
Module GetByArgs.
Record t := mk {
  first : option nat;
  after : option nat;
  number : option string;
  bookingRequestNumber : option string;
  buyerId : option Id;
  supplierId : option Id;
  forwarderId : option Id;
  consigneeId : option Id;
  updatedSince : option string;
}.
End GetByArgs.

(** [GetMultiArgs] *)
Module GetMultiArgs.
Record t := mk {
  first : option nat;
  after : option nat;
  orderByKey : option string;
  orderByValue : option string;
  search : option string;
  orgId : option Id;
}.
End GetMultiArgs.

(** A booking confirmation as the by-query reads it: [bc.fields] and
    [bc.updatedAt]. *)
Module BookingConfirmationDoc.
Record t := mk { id : Id; fields : Fields; updatedAt : option Value }.
End BookingConfirmationDoc.

Module Location.
Record t := mk { id : Id; orgId : Id; isActive : bool; name : string }.
End Location.

Definition ANALYTICS : string := "ANALYTICS".

(** Truthiness of an optional string argument. *)
Definition truthyText (s : option string) : bool :=
  match s with
  | Some s => negb (bool_decide (s = ""%string))
  | None => false
  end.

(** [n || fallback] on a count *)
Definition orCount (n : option nat) (fallback : nat) : nat :=
  match n with
  | Some (S n) => S n
  | _ => fallback
  end.

(** [s || fallback] on a string *)
Definition orText (s : option string) (fallback : string) : string :=
  if truthyText s then default fallback s else fallback.

(** What the database and the imported visibility helpers decide. *)
Class QueryAdapters := {
  (** the answer of the database to the order statement with [number]
      spliced into its text ([`order.PoNumber LIKE '%${_number}%'`]):
      the page and the count, or nothing when it rejects the statement *)
  splicedOrderStatement :
    GetByArgs.t → GraphQLContext.t → list Order.t → option (list Order.t * nat);
  (** the same for the booking-confirmation statement, with [number] and
      [bookingRequestNumber] spliced into its text *)
  splicedConfirmationStatement :
    GetByArgs.t → GraphQLContext.t → list BookingConfirmationDoc.t →
    option (list BookingConfirmationDoc.t * nat);
  (** the place the engine gives a row of a statement without [ORDER BY] *)
  orderRank : Order.t → Z;
  confirmationRank : BookingConfirmationDoc.t → Z;
  (** [column >= moment(stripTZ(updatedSince)).format("YYYYMMDD")] *)
  sqlSince : string → option Value → bool;
  visibilityFilters : Id → Order.t → bool;
  visibilityFiltersJson : Id → Fields → bool;
  (** [isVisible(context)(bc?.fields)] *)
  isVisibleFields : GraphQLContext.t → Fields → bool;
  (** [column like :searchText] with [searchText] bound to [`%${search}%`] *)
  likeParam : string → string → Location.t → bool;
  (** the rows as [orderBy(column, direction)] arranges them *)
  orderBy : string → string → list Location.t → list Location.t;
  orderBy_Permutation column direction rows : orderBy column direction rows ≡ₚ rows;
}.

Section Queries.
Context `{Collaborators} `{QueryAdapters}.

(** Fetch order(s) without providing an ID ([ordersByQuery], orders-by.ts).
    A [number] given is spliced into the text of the statement, which is
    then the database's to read; the other conditions are bound
    parameters. *)
Definition ordersByQuery (args : GetByArgs.t) (context : GraphQLContext.t)
    : M (Paging.Connection Order.t) :=
  let first := default 50%nat (GetByArgs.first args) in
  let after := default 0%nat (GetByArgs.after args) in
  let isInterationOrAnalytics :=
    checkPermissions (GraphQLContext.permissions context) [INTEGRATION; ANALYTICS] in
  let orderQuery : list (Order.t → bool) :=
    Paging.andWhereIf (truthyId (GetByArgs.buyerId args))
      (λ o, bool_decide (Some (Order.buyerId o) = GetByArgs.buyerId args))
    ++ Paging.andWhereIf (truthyId (GetByArgs.supplierId args))
         (λ o, bool_decide (Order.supplierId o = GetByArgs.supplierId args))
    ++ Paging.andWhereIf (truthyId (GetByArgs.forwarderId args))
         (λ o, bool_decide (idOf (Order.columns o !! "forwarderId"%string)
                            = GetByArgs.forwarderId args))
    ++ Paging.andWhereIf (truthyId (GetByArgs.consigneeId args))
         (λ o, bool_decide (idOf (Order.columns o !! "consigneeId"%string)
                            = GetByArgs.consigneeId args))
    ++ Paging.andWhereIf (truthyText (GetByArgs.updatedSince args))
         (λ o, sqlSince (default ""%string (GetByArgs.updatedSince args))
                 (Order.columns o !! "lastUpdatedDate"%string))
    ++ Paging.andWhereIf (negb isInterationOrAnalytics)
         (visibilityFilters (GraphQLContext.orgId context)) in
  let! rows := gets (λ w, orders (sql w)) in
  let! '(result, total) :=
    if truthyText (GetByArgs.number args) then
      match splicedOrderStatement args context rows with
      | Some answer => ret answer
      | None => throw QueryFailedError "Incorrect syntax"
      end
    else
      ret (Paging.getManyAndCount
             (Paging.engineOrder orderRank (Paging.selectWhere orderQuery rows)) after
             (Nat.min first 1000)) in
  (* Prime data loader with orders for subsequent queries: no stored effect *)
  let pageNodes :=
    (λ o, Paging.mkEdge o (Order.id o)) <$> filter (λ o, isVisible context o = true) result in
  ret (Paging.mkConnection total pageNodes).


Definition validSearchFields : list string := ["location.Name"%string].

(** The column the [switch] on [orderByKey] orders by. *)
Definition orderColumn (orderByKey : string) : string :=
  if bool_decide (orderByKey = "LOCATIONTYPEVALUE"%string) then "locationTypeValue"
  else if bool_decide (orderByKey = "CONSOLIDATIONLOCATION"%string)
  then "location.isConsolidationLocation"
  else if bool_decide (orderByKey = "PICKUPLOCATION"%string)
  then "location.isPickupLocation"
  else "location." +:+ orderByKey.

(** [locationsQueryResolver] (locations.ts), on the rows of the location
    table. *)
Definition locationsQueryResolver (args : GetMultiArgs.t) (context : GraphQLContext.t)
    (table : list Location.t) : Paging.Connection Location.t :=
  let contextOrgId := GraphQLContext.orgId context in
  let inputOrgId := GetMultiArgs.orgId args in
  let first := Nat.min (orCount (GetMultiArgs.first args) 5) 1000 in
  let after := orCount (GetMultiArgs.after args) 0 in
  let orderByKey := orText (GetMultiArgs.orderByKey args) "name" in
  let orderByValue := orText (GetMultiArgs.orderByValue args) "ASC" in
  let search := GetMultiArgs.search args in
  let orgId :=
    if checkPermissions (GraphQLContext.permissions context) [ANALYTICS; INTEGRATION]
    then (if truthyId inputOrgId then default contextOrgId inputOrgId else contextOrgId)
    else contextOrgId in
  let queryBuilder : list (Location.t → bool) :=
    [λ l, bool_decide (Location.orgId l = orgId) && Location.isActive l]
    ++ Paging.andWhereIf (truthyText search)
         (λ l, existsb (λ field, likeParam field (default ""%string search) l)
                 validSearchFields) in
  let ordered :=
    orderBy (orderColumn orderByKey) orderByValue (Paging.selectWhere queryBuilder table) in
  let '(locations, totalCount) := Paging.getManyAndCount ordered after first in
  (* Prime data loader with locations for subsequent queries: no stored effect *)
  Paging.mkConnection totalCount ((λ l, Paging.mkEdge l (Location.id l)) <$> locations).

End Queries.

(** * Organisation provisioning ([validateOrderOrg], validate-order-org.ts)

    The function acts on stores outside the relational order tables; what
    it does there is kept as the list of its effects, in order. *)

Module ValidateOrderOrg.

Inductive CompanyType := SUPPLIER | FORWARDER | CONSIGNEE | AGENT | BROKER | TRUCKER.

(** [OrderCompanyInput], as far as the function looks into it. *)
Record OrderCompanyInput := mkCompanyInput {
  companyName : string;
  externalID : option string;
}.

Inductive Effect :=
| SentEmail (to : string) (orderNumber : string)
| CreatedOrganization (orgData : OrderCompanyInput) (adminEmail : string)
| ConnectedUserToOrg (userEmail : string) (orgId : Id)
| CreatedOrgRelationship (fromOrgId toOrgId : Id) (toRole : CompanyType)
| CreatedExternalId (orgId : Id) (externalId : string).

(** One element of [orgEntities]. *)
Record OrgEntity := mkEntity {
  orgId : option Id;
  orgData : option OrderCompanyInput;
  role : CompanyType;
  required : bool;
}.

(** The twelve keys of [fields] the function destructures. *)
Record OrgFields := mkOrgFields {
  supplierId : option Id;   supplier : option OrderCompanyInput;
  forwarderId : option Id;  forwarder : option OrderCompanyInput;
  consigneeId : option Id;  consignee : option OrderCompanyInput;
  brokerId : option Id;     broker : option OrderCompanyInput;
  agentId : option Id;      agent : option OrderCompanyInput;
  truckerId : option Id;    trucker : option OrderCompanyInput;
}.

Definition orgEntities (fields : OrgFields) : list OrgEntity :=
  [mkEntity (supplierId fields) (supplier fields) SUPPLIER true;
   mkEntity (forwarderId fields) (forwarder fields) FORWARDER true;
   mkEntity (consigneeId fields) (consignee fields) CONSIGNEE true;
   mkEntity (agentId fields) (agent fields) AGENT false;
   mkEntity (brokerId fields) (broker fields) BROKER false;
   mkEntity (truckerId fields) (trucker fields) TRUCKER false].

(** An [async] function over the effects made so far. *)
Definition V (A : Type) : Type := list Effect → Result A * list Effect.

Definition vret {A} (a : A) : V A := λ log, (Ok a, log).

Definition vbind {A B} (m : V A) (f : A → V B) : V B := λ log,
  match m log with
  | (Ok a, log') => f a log'
  | (Throw e, log') => (Throw e, log')
  end.

Definition emit (effect : Effect) : V unit := λ log, (Ok tt, log ++ [effect]).

Definition vthrow {A} (kind : ErrorKind) (message : string) : V A :=
  λ log, (Throw (mkError kind message), log).

Fixpoint vforEach {A} (l : list A) (f : A → V unit) : V unit :=
  match l with
  | [] => vret tt
  | x :: rest => vbind (f x) (λ _, vforEach rest f)
  end.

Section Provisioning.

(** The values of the [CompanyType] enum. *)
Variable roleName : CompanyType → string.
(** [createOrganization]: the id of the row it resolves to, if any. *)
Variable createOrganization : OrderCompanyInput → option Id.
(** [(await dataLoaders.entityLoader.load(adminUserId)).email] *)
Variable emailOf : string → string.

(** The body of [for (const orgEntity of orgEntities)] for one entity. *)
Definition provision (buyerOrgId : Id) (purchaseOrderNumber : string)
    (newAdminUsers : list string) (firstAdminEmail : string) (orgEntity : OrgEntity)
    (orderOrgs : Fields) : V Fields :=
  if negb (truthyId (orgId orgEntity)) && negb (present (orgData orgEntity))
     && required orgEntity
  then
    vbind (vforEach newAdminUsers (λ adminUserId,
             emit (SentEmail (emailOf adminUserId) purchaseOrderNumber)))
      (λ _, vthrow ApolloError
              ("Both " +:+ roleName (role orgEntity) +:+ "Id and "
               +:+ roleName (role orgEntity) +:+ " can't be empty"))
  else
    match orgData orgEntity with
    | Some data =>
        if negb (truthyId (orgId orgEntity)) then
          vbind (emit (CreatedOrganization data firstAdminEmail)) (λ _,
          match createOrganization data with
          | Some org =>
              vbind (vforEach newAdminUsers (λ adminUserId,
                       emit (ConnectedUserToOrg (emailOf adminUserId) org))) (λ _,
              vbind (emit (CreatedOrgRelationship buyerOrgId org (role orgEntity))) (λ _,
              vbind (if truthyText (externalID data)
                     then emit (CreatedExternalId org (default ""%string (externalID data)))
                     else vret tt) (λ _,
              vret (<[ roleName (role orgEntity) +:+ "Id" := VNum org ]> orderOrgs))))
          | None => vret orderOrgs
          end)
        else vret orderOrgs
    | None => vret orderOrgs
    end.

Fixpoint provisionAll (buyerOrgId : Id) (purchaseOrderNumber : string)
    (newAdminUsers : list string) (firstAdminEmail : string) (entities : list OrgEntity)
    (orderOrgs : Fields) : V Fields :=
  match entities with
  | [] => vret orderOrgs
  | orgEntity :: rest =>
      vbind (provision buyerOrgId purchaseOrderNumber newAdminUsers firstAdminEmail
               orgEntity orderOrgs)
        (provisionAll buyerOrgId purchaseOrderNumber newAdminUsers firstAdminEmail rest)
  end.

(** [validateOrderOrg]; [buyerId] is [buyer.id].  The data loader rejects
    the load of the first contact when the contact list is empty. *)
Definition validateOrderOrg (fields : OrgFields) (purchaseOrderNumber : string)
    (buyerId : Id) (buyer : Company.t) : V Fields :=
  let newAdminUsers := Company.companyAutoCreateContactList buyer in
  match newAdminUsers with
  | [] =>
      vthrow TypeError "The loader.load() function must be called with a value"
  | firstAdminUserId :: _ =>
      provisionAll buyerId purchaseOrderNumber newAdminUsers
        (emailOf firstAdminUserId) (orgEntities fields) ∅
  end.

End Provisioning.

(** The roles whose organisation the call has to create: no id given,
    data given. *)
Definition toCreate (orgEntity : OrgEntity) : bool :=
  negb (truthyId (orgId orgEntity)) && present (orgData orgEntity).

(** A required role with neither id nor data. *)
Definition missing (orgEntity : OrgEntity) : bool :=
  negb (truthyId (orgId orgEntity)) && negb (present (orgData orgEntity))
  && required orgEntity.

End ValidateOrderOrg.

(** ** A concrete environment for the read side *)

Module DemoQueries.

(** Substring-free stand-ins: [LIKE] compares for equality, dates compare
    as given, and an organisation sees the orders it buys. *)
Definition adapters : QueryAdapters := {|
  splicedOrderStatement := λ args _ rows,
    if bool_decide (GetByArgs.number args = Some "'"%string) then None
    else Some (filter (λ o, Order.columns o !! "purchaseOrderNumber"%string
                            = VStr <$> GetByArgs.number args) rows, length rows);
  splicedConfirmationStatement := λ args _ rows,
    if bool_decide (GetByArgs.number args = Some "'"%string) then None
    else Some (rows, length rows);
  orderRank := Order.id;
  confirmationRank := BookingConfirmationDoc.id;
  sqlSince := λ _ _, true;
  visibilityFilters := λ orgId o, bool_decide (Order.buyerId o = orgId);
  visibilityFiltersJson := λ orgId fields,
    bool_decide (fields !! "buyerId"%string = Some (VNum orgId));
  isVisibleFields := λ context fields,
    bool_decide (fields !! "buyerId"%string = Some (VNum (GraphQLContext.orgId context)));
  likeParam := λ _ search l, bool_decide (Location.name l = search);
  orderBy := λ _ _ rows, rows;
  orderBy_Permutation := λ _ _ rows, reflexivity rows;
|}.

Definition locations : list Location.t :=
  [Location.mk 1 100 true "Rotterdam"; Location.mk 2 100 false "Antwerp";
   Location.mk 3 200 true "Hamburg"; Location.mk 4 100 true "Le Havre"].

(** Roles named as the keys of the order input are. *)
Definition roleNames (role : ValidateOrderOrg.CompanyType) : string :=
  match role with
  | ValidateOrderOrg.SUPPLIER => "supplier"
  | ValidateOrderOrg.FORWARDER => "forwarder"
  | ValidateOrderOrg.CONSIGNEE => "consignee"
  | ValidateOrderOrg.AGENT => "agent"
  | ValidateOrderOrg.BROKER => "broker"
  | ValidateOrderOrg.TRUCKER => "trucker"
  end.

Definition acme : ValidateOrderOrg.OrderCompanyInput :=
  ValidateOrderOrg.mkCompanyInput "Acme" (Some "X-1"%string).

(** A supplier to create, a forwarder given by id, and no consignee. *)
Definition noConsignee : ValidateOrderOrg.OrgFields :=
  ValidateOrderOrg.mkOrgFields None (Some acme) (Some 300) None None None
    None None None None None None.

(** The same with the consignee given by id. *)
Definition complete : ValidateOrderOrg.OrgFields :=
  ValidateOrderOrg.mkOrgFields None (Some acme) (Some 300) None (Some 400) None
    None None None None None None.

Definition autoCreatingBuyer : Company.t :=
  Company.mk 100 false [] None true ["admin-1"; "admin-2"]%string.

End DemoQueries.

(** * Reasoning about resolvers *)

Section MonadFacts.
Context {A B : Type}.

Lemma bind_Ok (m : M A) (f : A → M B) w a w1 :
  m w = (Ok a, w1) → bind m f w = f a w1.
Proof. intros E. unfold bind. by rewrite E. Qed.

Lemma bind_Throw (m : M A) (f : A → M B) w e w1 :
  m w = (Throw e, w1) → bind m f w = (Throw e, w1).
Proof. intros E. unfold bind. by rewrite E. Qed.

Lemma bind_inv (m : M A) (f : A → M B) w r w' :
  bind m f w = (r, w') →
  (∃ e, m w = (Throw e, w') ∧ r = Throw e)
  ∨ (∃ a w1, m w = (Ok a, w1) ∧ f a w1 = (r, w')).
Proof.
  unfold bind. destruct (m w) as [[a|e] w1] eqn:E; intros E'.
  - right. eauto.
  - left. exists e. by inversion E'.
Qed.

Lemma bind_inv_Ok (m : M A) (f : A → M B) w b w' :
  bind m f w = (Ok b, w') → ∃ a w1, m w = (Ok a, w1) ∧ f a w1 = (Ok b, w').
Proof.
  intros E. apply bind_inv in E as [(e & _ & ?)|?]; [done|done].
Qed.

End MonadFacts.

(** ** Frame conditions *)

Global Instance keeps_preorder {C} (f : World → C) : PreOrder (keeps f).
Proof. split; [by intros w|intros w1 w2 w3; unfold keeps; congruence]. Qed.

Global Instance oidGrows_preorder : PreOrder oidGrows.
Proof. split; [intros w|intros w1 w2 w3]; unfold oidGrows; lia. Qed.

Global Instance both_preorder R1 R2 :
  PreOrder R1 → PreOrder R2 → PreOrder (both R1 R2).
Proof.
  intros [] []. split.
  - intros w. by split.
  - intros w1 w2 w3 [] []. split; etrans; eauto.
Qed.

Global Instance keepsSnapshots_preorder : PreOrder keepsSnapshots.
Proof.
  split.
  - intros w i r Hr. eauto.
  - intros w1 w2 w3 H12 H23 i r Hr.
    destruct (H12 i r Hr) as (r' & Hr' & Hs).
    destruct (H23 i r' Hr') as (r'' & Hr'' & Hs'). exists r''. split; [done|congruence].
Qed.

Global Instance requestFrame_preorder : PreOrder requestFrame.
Proof. unfold requestFrame. apply _. Qed.

Global Instance numberedTo_preorder : PreOrder numberedTo.
Proof.
  split; [intros w Hw; exact Hw|].
  intros w1 w2 w3 H12 H23 Hw. apply H23, H12, Hw.
Qed.

Section Frame.
Context (R : relation World) `{!PreOrder R}.

Lemma preserves_ret {A} (a : A) : preserves R (ret a).
Proof. by intros w. Qed.

Lemma preserves_throw {A} kind message : preserves R (@throw A kind message).
Proof. by intros w. Qed.

Lemma preserves_rethrow {A} e : preserves R (@rethrow A e).
Proof. by intros w. Qed.

Lemma preserves_gets {A} (f : World → A) : preserves R (gets f).
Proof. by intros w. Qed.

Lemma preserves_fails op : preserves R (fails op).
Proof. apply preserves_gets. Qed.

Lemma preserves_must {A} (o : option A) : preserves R (must o).
Proof. destruct o; [apply preserves_ret|apply preserves_throw]. Qed.

Lemma preserves_modify f : (∀ w, R w (f w)) → preserves R (modify f).
Proof. intros Hf w. apply Hf. Qed.

Lemma preserves_bind {A B} (m : M A) (f : A → M B) :
  preserves R m → (∀ a, preserves R (f a)) → preserves R (bind m f).
Proof.
  intros Hm Hf w. unfold bind. specialize (Hm w).
  destruct (m w) as [[a|e] w1]; simpl in *; [|done].
  etrans; [exact Hm|apply Hf].
Qed.

Lemma preserves_tryCatch {A} (body : M A) handler :
  preserves R body → (∀ e, preserves R (handler e)) → preserves R (tryCatch body handler).
Proof.
  intros Hm Hh w. unfold tryCatch. specialize (Hm w).
  destruct (body w) as [[a|e] w1]; simpl in *; [done|].
  etrans; [exact Hm|apply Hh].
Qed.

Lemma preserves_when c m : preserves R m → preserves R (when c m).
Proof. destruct c; [done|intros _; apply preserves_ret]. Qed.

Lemma preserves_forEach {A} (l : list A) f :
  (∀ x, preserves R (f x)) → preserves R (forEach l f).
Proof.
  intros Hf. induction l as [|x l IH]; simpl; [apply preserves_ret|].
  apply preserves_bind; [apply Hf|by intros _].
Qed.

End Frame.

(** Splits a frame goal along the structure of the program. *)
Ltac frame_step :=
  match goal with
  | |- preserves ?R (bind _ _) => apply (preserves_bind R); [try done|intros ?]
  | |- preserves ?R (ret _) => apply (preserves_ret R)
  | |- preserves ?R (throw _ _) => apply (preserves_throw R)
  | |- preserves ?R (rethrow _) => apply (preserves_rethrow R)
  | |- preserves ?R (gets _) => apply (preserves_gets R)
  | |- preserves ?R (fails _) => apply (preserves_fails R)
  | |- preserves ?R (must _) => apply (preserves_must R)
  | |- preserves ?R (when _ _) => apply (preserves_when R)
  | |- preserves ?R (forEach _ _) => apply (preserves_forEach R); intros ?
  | |- preserves ?R (tryCatch _ _) => apply (preserves_tryCatch R); [|intros ?]
  | |- preserves _ (match ?x with _ => _ end) => destruct x
  | |- preserves _ (let '(_, _) := ?x in _) => destruct x
  end.

Create HintDb frame.

(** [leaf] proves that a single write respects the relation. *)
Ltac frame_with leaf :=
  repeat first
    [ solve [auto with frame]
    | frame_step; simpl
    | apply preserves_modify; intros ?; leaf ].

(** ** Lists *)

Lemma filter_nil_iff {A} (P : A → Prop) `{!∀ x, Decision (P x)} (l : list A) :
  filter P l = [] ↔ Forall (λ x, ¬ P x) l.
Proof.
  induction l as [|x l IH]; [by rewrite filter_nil|].
  rewrite filter_cons, Forall_cons. case_decide; [|tauto].
  split; [done|tauto].
Qed.

Lemma filter_ext_in {A} (P Q : A → Prop) `{!∀ x, Decision (P x)}
    `{!∀ x, Decision (Q x)} (l : list A) :
  (∀ x, x ∈ l → P x ↔ Q x) → filter P l = filter Q l.
Proof.
  induction l as [|x l IH]; intros HPQ; [done|].
  rewrite !filter_cons. rewrite IH by (intros y Hy; apply HPQ; by right).
  pose proof (HPQ x (list_elem_of_here x l)).
  repeat case_decide; tauto || done.
Qed.

Lemma NoDup_fmap_eq {A B} (f : A → B) (l : list A) x y :
  NoDup (f <$> l) → x ∈ l → y ∈ l → f x = f y → x = y.
Proof.
  induction l as [|z l IH]; simpl; [by intros _ ?%elem_of_nil|].
  intros [Hz Hnd]%NoDup_cons [->|Hx]%elem_of_cons [->|Hy]%elem_of_cons Hf; auto.
  - destruct Hz. rewrite Hf. by apply list_elem_of_fmap_2.
  - destruct Hz. rewrite <- Hf. by apply list_elem_of_fmap_2.
Qed.

(** ** The participant authorization guard *)

Module GuardFacts.
Import Guard.

Lemma stillPresent_cons c p ps :
  stillPresent c (p :: ps) = bool_decide (userId p = userId c) || stillPresent c ps.
Proof.
  unfold stillPresent. apply eq_true_iff_eq.
  rewrite orb_true_iff, !bool_decide_eq_true, Exists_cons. done.
Qed.

Lemma changedEntries_cons c p ps :
  changedEntries c (p :: ps)
  = ((if bool_decide (userId p = userId c)
         && bool_decide (approvalIsRequired p ≠ approvalIsRequired c)
      then 1 else 0) + changedEntries c ps)%nat.
Proof.
  unfold changedEntries. rewrite filter_cons.
  case_decide as HP.
  - destruct HP as [H1 H2]. by rewrite !bool_decide_eq_true_2.
  - destruct (bool_decide (userId p = userId c)) eqn:E1; [|done].
    destruct (bool_decide (approvalIsRequired p ≠ approvalIsRequired c)) eqn:E2; [|done].
    apply bool_decide_eq_true in E1, E2. tauto.
Qed.

Lemma scanProposed_spec c participants found count :
  scanProposed c participants found count
  = (found || stillPresent c participants, (count + changedEntries c participants)%nat).
Proof.
  revert found count.
  induction participants as [|p ps IH]; intros found count.
  - simpl. unfold stillPresent, changedEntries. simpl.
    by rewrite orb_false_r, Nat.add_0_r.
  - simpl scanProposed. rewrite stillPresent_cons, changedEntries_cons, !IH.
    destruct (bool_decide (userId p = userId c)); simpl.
    + rewrite orb_true_r.
      destruct (bool_decide (approvalIsRequired p ≠ approvalIsRequired c));
        f_equal; lia.
    + done.
Qed.

Lemma scanCurrent_spec cur participants thisUser isSelf count :
  scanCurrent cur participants thisUser isSelf count
  = ((isSelf + selfAffectedCount cur thisUser)%nat,
     (count + selfAffectedCount cur thisUser + otherTotal cur participants thisUser)%nat).
Proof.
  revert isSelf count.
  induction cur as [|c cur IH]; intros isSelf count; simpl.
  - unfold selfAffectedCount. simpl. f_equal; lia.
  - unfold selfAffectedCount, otherContribution, isSelfAffecting in *.
    rewrite filter_cons. destruct (approvalIsRequired c) eqn:Hreq; simpl.
    + case_bool_decide as Hself; simpl.
      * rewrite IH. f_equal; simpl; lia.
      * rewrite scanProposed_spec. simpl. rewrite IH.
        destruct (stillPresent c participants); simpl; f_equal; lia.
    + rewrite IH. f_equal.
Qed.

(** A non-self approver adds to the code's counter exactly when the
    specification counts it as mutated. *)
Lemma otherContribution_zero participants thisUser c :
  isSelfAffecting thisUser c = false →
  (otherContribution participants thisUser c = 0%nat
   ↔ controllerMutated participants thisUser c = false).
Proof.
  unfold isSelfAffecting, otherContribution, controllerMutated, changedEntries, flagChanged.
  destruct (approvalIsRequired c) eqn:Hreq; simpl; [|done].
  intros Hself%bool_decide_eq_false. rewrite (bool_decide_eq_false_2 _ Hself). simpl.
  destruct (stillPresent c participants); simpl.
  - rewrite Nat.add_0_r. rewrite length_zero_iff_nil.
    rewrite bool_decide_eq_false. rewrite Exists_exists. split.
    + intros Hnil (p & Hp & HP).
      apply filter_nil_iff in Hnil. rewrite Forall_forall in Hnil.
      by apply (Hnil p).
    + intros Hno. apply filter_nil_iff, Forall_forall. intros p Hp HP. apply Hno. eauto.
  - split; [lia|done].
Qed.

Lemma counts_related cur participants thisUser :
  ∃ xs : nat,
    controllerMutationCount cur participants thisUser
    = (selfAffectedCount cur thisUser + xs)%nat
    ∧ (xs ≤ otherTotal cur participants thisUser)%nat
    ∧ (xs = 0%nat → otherTotal cur participants thisUser = 0%nat).
Proof.
  induction cur as [|c cur (xs & Hn & Hle & Hz)]; simpl.
  - exists 0%nat. done.
  - unfold controllerMutationCount, selfAffectedCount in *. rewrite !filter_cons.
    destruct (isSelfAffecting thisUser c) eqn:Hself.
    + assert (controllerMutated participants thisUser c = true) as ->.
      { unfold isSelfAffecting in Hself. unfold controllerMutated.
        apply andb_true_iff in Hself as [-> ->]. done. }
      assert (otherContribution participants thisUser c = 0%nat) as ->.
      { unfold isSelfAffecting in Hself. unfold otherContribution.
        apply andb_true_iff in Hself as [-> ->]. done. }
      rewrite !decide_True by done. simpl. exists xs. rewrite Hn. repeat split; lia.
    + rewrite (decide_False (P := false = true)) by done.
      pose proof (otherContribution_zero participants thisUser c Hself) as Hc.
      destruct (controllerMutated participants thisUser c) eqn:Hmut.
      * rewrite decide_True by done. simpl. exists (S xs). rewrite Hn.
        split; [lia|]. split; [|lia].
        destruct (otherContribution participants thisUser c); [|lia].
        by destruct Hc as [Hc _]; specialize (Hc eq_refl).
      * rewrite decide_False by done. exists xs.
        destruct Hc as [_ ->]; [|done]. repeat split; [done|lia|lia].
Qed.

(** The decision of the code, on the counters of the specification. *)
Lemma decision_on_spec_counters cur participants thisUser :
  isAllowedToEditParticipants cur participants thisUser = false
  ↔ (0 < controllerMutationCount cur participants thisUser
     ∧ selfAffectedCount cur thisUser = 0)%nat
    ∨ (1 < controllerMutationCount cur participants thisUser)%nat.
Proof.
  unfold isAllowedToEditParticipants. rewrite scanCurrent_spec. simpl.
  destruct (counts_related cur participants thisUser) as (xs & -> & Hle & Hz).
  set (s := selfAffectedCount cur thisUser) in *.
  set (xc := otherTotal cur participants thisUser) in *.
  repeat case_bool_decide; simpl; split; try done; intros; lia.
Qed.

Lemma selfAffected_le_mutations cur participants thisUser :
  (selfAffectedCount cur thisUser ≤ controllerMutationCount cur participants thisUser)%nat.
Proof.
  destruct (counts_related cur participants thisUser) as (xs & -> & _). lia.
Qed.

Lemma mutation_beyond_self cur participants thisUser c :
  c ∈ cur → controllerMutated participants thisUser c = true →
  isSelfAffecting thisUser c = false →
  (selfAffectedCount cur thisUser + 1 ≤ controllerMutationCount cur participants thisUser)%nat.
Proof.
  intros Hin Hmut Hself. induction cur as [|c' cur IH]; [by apply elem_of_nil in Hin|].
  pose proof (selfAffected_le_mutations cur participants thisUser) as Hle.
  unfold selfAffectedCount, controllerMutationCount in *. rewrite !filter_cons.
  apply elem_of_cons in Hin as [<-|Hin].
  - rewrite (decide_False (P := isSelfAffecting thisUser c = true)) by congruence.
    rewrite decide_True by done. simpl. lia.
  - specialize (IH Hin).
    destruct (isSelfAffecting thisUser c') eqn:Hs.
    + assert (controllerMutated participants thisUser c' = true) as ->.
      { unfold isSelfAffecting in Hs. unfold controllerMutated.
        apply andb_true_iff in Hs as [-> ->]. done. }
      rewrite !decide_True by done. simpl. lia.
    + rewrite (decide_False (P := false = true)) by done.
      case_decide; simpl; lia.
Qed.

Lemma flipOwnFlag_userId thisUser c : userId (flipOwnFlag thisUser c) = userId c.
Proof. unfold flipOwnFlag. by case_bool_decide. Qed.

Lemma own_flag_only cur thisUser :
  othersConsistent cur thisUser →
  controllerMutationCount cur (flipOwnFlag thisUser <$> cur) thisUser
  = selfAffectedCount cur thisUser.
Proof.
  intros Hcons. unfold controllerMutationCount, selfAffectedCount. f_equal.
  apply filter_ext_in. intros c Hc.
  unfold controllerMutated, isSelfAffecting.
  destruct (approvalIsRequired c) eqn:Hreq; simpl; [|done].
  case_bool_decide as Hself; simpl; [done|].
  assert (stillPresent c (flipOwnFlag thisUser <$> cur) = true) as ->.
  { apply bool_decide_eq_true, Exists_exists. exists c. split; [|done].
    apply list_elem_of_fmap. exists c. split; [|done].
    unfold flipOwnFlag. by rewrite bool_decide_eq_false_2. }
  assert (flagChanged c (flipOwnFlag thisUser <$> cur) = false) as ->; [|done].
  apply bool_decide_eq_false. rewrite Exists_exists.
  intros (p & (c' & -> & Hc')%list_elem_of_fmap & Hid & Hflag).
  rewrite flipOwnFlag_userId in Hid.
  apply Hflag. unfold flipOwnFlag. rewrite bool_decide_eq_false_2 by congruence.
  rewrite Hreq. by apply (Hcons c c').
Qed.

(** A second row of another required approver, without the flag, counts
    as a mutation of that approver. *)
Lemma own_flag_other_row cur thisUser c p :
  c ∈ cur → p ∈ cur → approvalIsRequired c = true → userId c ≠ thisUser →
  userId p = userId c → approvalIsRequired p = false →
  controllerMutated (flipOwnFlag thisUser <$> cur) thisUser c = true.
Proof.
  intros Hc Hp Hreq Hother Hid Hflag. unfold controllerMutated. rewrite Hreq. simpl.
  assert (flagChanged c (flipOwnFlag thisUser <$> cur) = true) as ->;
    [|by rewrite orb_true_r].
  apply bool_decide_eq_true, Exists_exists. exists p. split.
  - apply list_elem_of_fmap. exists p. split; [|done].
    unfold flipOwnFlag. rewrite bool_decide_eq_false_2; [done|congruence].
  - split; [done|]. rewrite Hreq, Hflag. done.
Qed.

(** C6. [isAllowedToEditParticipants] returns false exactly when
    controller-mutations occurred and the acting user's self-affected
    count is zero, or when more than one controller-mutation occurred,
    and true otherwise.  The edit that changes nothing but the acting
    user's own [approvalIsRequired] flag is allowed exactly when the
    current list holds at most one row of the acting user that requires
    approval, and no other required approver has a second row that does
    not; an edit that drops a required approver other than the acting user
    from the list is refused. *)
Theorem isAllowedToEditParticipants_decision :
  (∀ cur participants thisUser,
     (isAllowedToEditParticipants cur participants thisUser = false
      ↔ (0 < controllerMutationCount cur participants thisUser
         ∧ selfAffectedCount cur thisUser = 0)%nat
        ∨ (1 < controllerMutationCount cur participants thisUser)%nat)
     ∧ (isAllowedToEditParticipants cur participants thisUser = true
        ↔ ¬ ((0 < controllerMutationCount cur participants thisUser
              ∧ selfAffectedCount cur thisUser = 0)%nat
             ∨ (1 < controllerMutationCount cur participants thisUser)%nat)))
  ∧ (∀ cur thisUser,
       isAllowedToEditParticipants cur (flipOwnFlag thisUser <$> cur) thisUser = true
       ↔ (selfAffectedCount cur thisUser ≤ 1)%nat
         ∧ ∀ c p, c ∈ cur → p ∈ cur → approvalIsRequired c = true →
                  userId c ≠ thisUser → userId p = userId c →
                  approvalIsRequired p = true)
  ∧ (∀ cur participants thisUser c,
       c ∈ cur → approvalIsRequired c = true → userId c ≠ thisUser →
       (∀ p, p ∈ participants → userId p ≠ userId c) →
       isAllowedToEditParticipants cur participants thisUser = false).
Proof.
  split; [|split].
  - intros cur participants thisUser.
    pose proof (decision_on_spec_counters cur participants thisUser) as Hd.
    split; [done|].
    destruct (isAllowedToEditParticipants cur participants thisUser); split; try done.
    + intros _ Hbad. by apply Hd in Hbad.
    + intros Hgood. destruct Hgood. by apply Hd.
  - intros cur thisUser.
    pose proof (decision_on_spec_counters cur (flipOwnFlag thisUser <$> cur) thisUser)
      as Hd.
    pose proof (selfAffected_le_mutations cur (flipOwnFlag thisUser <$> cur) thisUser)
      as Hle.
    split.
    + intros Hallowed. rewrite Hallowed in Hd.
      assert (∀ P : Prop, P → ¬ (true = false ↔ P)) as Hno by (intros P HP [_ Hf]; by apply Hf in HP).
      split.
      * destruct (decide (selfAffectedCount cur thisUser ≤ 1)%nat); [done|].
        exfalso. apply (Hno _ (or_intror ltac:(lia)) Hd).
      * intros c p' Hc Hp Hreq Hother Hid.
        destruct (approvalIsRequired p') eqn:Hflag; [done|]. exfalso.
        pose proof (own_flag_other_row cur thisUser c p' Hc Hp Hreq Hother Hid Hflag)
          as Hmut.
        assert (isSelfAffecting thisUser c = false) as Hself.
        { unfold isSelfAffecting.
          by rewrite (bool_decide_eq_false_2 _ Hother), andb_false_r. }
        pose proof (mutation_beyond_self cur _ thisUser c Hc Hmut Hself) as Hmore.
        refine (Hno _ _ Hd).
        destruct (decide (selfAffectedCount cur thisUser = 0)%nat); [left|right]; lia.
    + intros [Hone Hcons].
      destruct (isAllowedToEditParticipants cur _ thisUser) eqn:Hallowed; [done|].
      rewrite (own_flag_only cur thisUser Hcons) in Hd.
      destruct (proj1 Hd eq_refl); lia.
  - intros cur participants thisUser c Hin Hreq Hother Habsent.
    apply decision_on_spec_counters.
    assert (controllerMutated participants thisUser c = true) as Hmut.
    { unfold controllerMutated. rewrite Hreq. simpl.
      assert (stillPresent c participants = false) as ->.
      { apply bool_decide_eq_false. rewrite Exists_exists. intros (p & Hp & Hid).
        by apply (Habsent p). }
      simpl. by rewrite orb_true_r. }
    assert (isSelfAffecting thisUser c = false) as Hself.
    { unfold isSelfAffecting. by rewrite (bool_decide_eq_false_2 _ Hother), andb_false_r. }
    pose proof (mutation_beyond_self cur participants thisUser c Hin Hmut Hself).
    lia.
Qed.

(** Approver 7 drops their own flag: allowed.  User 9 proposes a list
    without approver 8: refused. *)
Lemma isAllowedToEditParticipants_decision_witness :
  isAllowedToEditParticipants [mkPick 7 true; mkPick 8 true; mkPick 9 false]
    [mkPick 7 false; mkPick 8 true; mkPick 9 false] 7 = true
  ∧ isAllowedToEditParticipants [mkPick 7 true; mkPick 8 true; mkPick 9 false]
      [mkPick 7 true; mkPick 9 false] 9 = false.
Proof.
  split.
  - apply (proj2 (proj1 (proj2 isAllowedToEditParticipants_decision)
                    [mkPick 7 true; mkPick 8 true; mkPick 9 false] 7)).
    split; [vm_compute; lia|].
    intros c p' Hc Hp Hreq Hother Hid.
    repeat (apply elem_of_cons in Hc as [->|Hc]); try (by apply elem_of_nil in Hc);
      repeat (apply elem_of_cons in Hp as [->|Hp]); try (by apply elem_of_nil in Hp);
      simpl in *; done.
  - apply (proj2 (proj2 isAllowedToEditParticipants_decision)
             [mkPick 7 true; mkPick 8 true; mkPick 9 false]
             [mkPick 7 true; mkPick 9 false] 9 (mkPick 8 true)).
    + apply list_elem_of_further, list_elem_of_here.
    + reflexivity.
    + simpl. lia.
    + apply Forall_forall. repeat constructor; simpl; lia.
Defined.

(** The claim as worded fails: with two rows of approver 7 that both
    require approval, the edit in which 7 changes nothing but their own
    flag is refused. *)
Lemma isAllowedToEditParticipants_own_flag_counterexample :
  let cur := [mkPick 7 true; mkPick 7 true] in
  flipOwnFlag 7 <$> cur = [mkPick 7 false; mkPick 7 false]
  ∧ selfAffectedCount cur 7 = 2%nat
  ∧ isAllowedToEditParticipants cur (flipOwnFlag 7 <$> cur) 7 = false.
Proof. vm_compute. repeat split; reflexivity. Qed.

End GuardFacts.

(** ** Cancellation eligibility *)

Section CancellationFacts.
Context `{Collaborators}.

Lemma find_none_iff {A} (f : A → bool) (l : list A) :
  find f l = None ↔ ∀ x, x ∈ l → f x = false.
Proof.
  induction l as [|y l IH]; simpl.
  - split; [by intros _ x ?%elem_of_nil|done].
  - destruct (f y) eqn:Hy.
    + split; [done|]. intros Hall. rewrite (Hall y) in Hy; [done|by left].
    + rewrite IH. split.
      * intros Hall x [->|Hx]%elem_of_cons; auto.
      * intros Hall x Hx. apply Hall. by right.
Qed.

Lemma existsb_false_iff {A} (f : A → bool) (l : list A) :
  existsb f l = false ↔ ∀ x, x ∈ l → f x = false.
Proof.
  induction l as [|y l IH]; simpl.
  - split; [by intros _ x ?%elem_of_nil|done].
  - rewrite orb_false_iff, IH. split.
    + intros [Hy Hall] x [->|Hx]%elem_of_cons; auto.
    + intros Hall. split; [apply Hall; by left|]. intros x Hx. apply Hall. by right.
Qed.

Lemma isEmptyList_true {A} (l : list A) : isEmptyList l = true ↔ l = [].
Proof. by destruct l. Qed.

Lemma selectBookingConfirmations_nil b orderId cancel :
  selectBookingConfirmations b orderId (Some cancel) = []
  ↔ ∀ bc li, bc ∈ bookingConfirmations b → li ∈ lineItemLinks b →
      linkedTo orderId (BookingConfirmation.id bc) li →
      BookingConfirmation.created_at bc ≠ BookingConfirmation.updated_at bc →
      BookingConfirmation.statusId bc = Some cancel.
Proof.
  unfold selectBookingConfirmations. rewrite filter_nil_iff, Forall_forall.
  split.
  - intros Hall bc li Hbc Hli (Ht & Ho & Hd) Htouched.
    specialize (Hall bc Hbc). apply not_true_is_false in Hall.
    rewrite existsb_false_iff in Hall. specialize (Hall li Hli).
    rewrite (bool_decide_eq_true_2 _ Ht), (bool_decide_eq_true_2 _ Ho),
      (bool_decide_eq_true_2 _ Htouched), Hd in Hall.
    destruct (BookingConfirmation.statusId bc) as [s|]; cbn in Hall; [|done].
    rewrite ?andb_true_r, ?orb_false_r in Hall.
    apply bool_decide_eq_false in Hall. f_equal. by destruct (decide (s = cancel)).
  - intros Hall bc Hbc Hex. apply existsb_exists in Hex as (li & Hli & Hli').
    apply list_elem_of_In in Hli.
    apply andb_true_iff in Hli' as [Hli' Hdel].
    apply andb_true_iff in Hli' as [Hli' Htouched%bool_decide_eq_true].
    apply andb_true_iff in Hli' as [Hli' Hstatus].
    apply andb_true_iff in Hli' as [Ht%bool_decide_eq_true Ho%bool_decide_eq_true].
    assert (LineItem.deleted_at li = None) as Hd
      by (destruct (LineItem.deleted_at li); done).
    rewrite (Hall bc li Hbc Hli (conj Ht (conj Ho Hd)) Htouched) in Hstatus.
    cbn in Hstatus. rewrite orb_false_r in Hstatus.
    by apply bool_decide_eq_true in Hstatus.
Qed.

Lemma selectShipments_nil b orderId cancel :
  selectShipments b orderId (Some cancel) = []
  ↔ ∀ shipment li, shipment ∈ shipments b → li ∈ lineItemLinks b →
      linkedTo orderId (Shipment.id shipment) li →
      Shipment.created_at shipment ≠ Shipment.updated_at shipment →
      LineItem.shipmentStatusId li = Some cancel.
Proof.
  unfold selectShipments. rewrite filter_nil_iff, Forall_forall.
  split.
  - intros Hall sh li Hsh Hli (Ht & Ho & Hd) Htouched.
    specialize (Hall sh Hsh). apply not_true_is_false in Hall.
    rewrite existsb_false_iff in Hall. specialize (Hall li Hli).
    rewrite (bool_decide_eq_true_2 _ Ht), (bool_decide_eq_true_2 _ Ho),
      (bool_decide_eq_true_2 _ Htouched), Hd in Hall.
    destruct (LineItem.shipmentStatusId li) as [s|]; cbn in Hall; [|done].
    rewrite ?andb_true_r, ?orb_false_r in Hall.
    apply bool_decide_eq_false in Hall. f_equal. by destruct (decide (s = cancel)).
  - intros Hall sh Hsh Hex. apply existsb_exists in Hex as (li & Hli & Hli').
    apply list_elem_of_In in Hli.
    apply andb_true_iff in Hli' as [Hli' Hdel].
    apply andb_true_iff in Hli' as [Hli' Htouched%bool_decide_eq_true].
    apply andb_true_iff in Hli' as [Hli' Hstatus].
    apply andb_true_iff in Hli' as [Ht%bool_decide_eq_true Ho%bool_decide_eq_true].
    assert (LineItem.deleted_at li = None) as Hd
      by (destruct (LineItem.deleted_at li); done).
    rewrite (Hall sh li Hsh Hli (conj Ht (conj Ho Hd)) Htouched) in Hstatus.
    cbn in Hstatus. rewrite orb_false_r in Hstatus.
    by apply bool_decide_eq_true in Hstatus.
Qed.

Lemma canOrderBeCancelled_run orderId bookingCancel shipmentCancel w :
  lookupByValueLoader "BookingStatus,Canceled" = Some bookingCancel →
  lookupByValueLoader "ShipmentStatus,Canceled" = Some shipmentCancel →
  canOrderBeCancelled orderId w
  = (Ok (negb (present (find (λ br,
                 bool_decide (BookingRequest.bookingStatusId br ≠ bookingCancel))
                 (linkedBookingRequests (bookings w) orderId)))
         && isEmptyList (selectBookingConfirmations (bookings w) orderId
                           (Some bookingCancel))
         && isEmptyList (selectShipments (bookings w) orderId (Some shipmentCancel))),
     w).
Proof.
  intros Hb Hs. unfold canOrderBeCancelled, bind, gets, must, ret. simpl.
  rewrite Hb, Hs. simpl.
  destruct (find _ _); simpl; [done|].
  destruct (isEmptyList (selectBookingConfirmations _ _ _)); simpl; [|done].
  by destruct (isEmptyList (selectShipments _ _ _)).
Qed.

(** C4 (as the code decides it).  With both canceled-status lookups in
    place, [canOrderBeCancelled] returns, changes nothing, and answers
    true exactly when no linked active record exists: every linked booking
    request is canceled, every linked booking confirmation touched after
    creation carries the canceled booking status, and every linked
    shipment touched after creation is linked by a row carrying the
    canceled shipment status.  A touched record with no status vetoes.  A
    booking request in another status always vetoes; an order whose only
    linked records are confirmations never touched after creation is
    cancellable. *)
Theorem canOrderBeCancelled_decision orderId bookingCancel shipmentCancel w :
  lookupByValueLoader "BookingStatus,Canceled" = Some bookingCancel →
  lookupByValueLoader "ShipmentStatus,Canceled" = Some shipmentCancel →
  ∃ answer,
    canOrderBeCancelled orderId w = (Ok answer, w)
    ∧ (answer = true
       ↔ noActiveRecord (bookings w) orderId bookingCancel shipmentCancel)
    ∧ ((∃ br, br ∈ linkedBookingRequests (bookings w) orderId
              ∧ BookingRequest.bookingStatusId br ≠ bookingCancel) →
       answer = false)
    ∧ (linkedBookingRequests (bookings w) orderId = [] →
       (∀ shipment li, shipment ∈ shipments (bookings w) →
          li ∈ lineItemLinks (bookings w) →
          ¬ linkedTo orderId (Shipment.id shipment) li) →
       (∀ bc li, bc ∈ bookingConfirmations (bookings w) →
          li ∈ lineItemLinks (bookings w) →
          linkedTo orderId (BookingConfirmation.id bc) li →
          BookingConfirmation.created_at bc = BookingConfirmation.updated_at bc) →
       answer = true).
Proof.
  intros Hb Hs. eexists. split; [by apply canOrderBeCancelled_run|].
  assert (∀ answer, answer = negb (present (find (λ br,
                 bool_decide (BookingRequest.bookingStatusId br ≠ bookingCancel))
                 (linkedBookingRequests (bookings w) orderId)))
         && isEmptyList (selectBookingConfirmations (bookings w) orderId
                           (Some bookingCancel))
         && isEmptyList (selectShipments (bookings w) orderId (Some shipmentCancel)) →
      (answer = true
       ↔ noActiveRecord (bookings w) orderId bookingCancel shipmentCancel)) as Hiff.
  { intros answer ->. unfold noActiveRecord.
    rewrite !andb_true_iff, !isEmptyList_true, selectBookingConfirmations_nil,
      selectShipments_nil.
    assert (negb (present (find (λ br,
                 bool_decide (BookingRequest.bookingStatusId br ≠ bookingCancel))
                 (linkedBookingRequests (bookings w) orderId))) = true
            ↔ ∀ br, br ∈ linkedBookingRequests (bookings w) orderId →
                BookingRequest.bookingStatusId br = bookingCancel) as ->; [|tauto].
    destruct (find _ _) as [br|] eqn:Hfind; simpl.
    - split; [done|]. intros Hall. apply find_some in Hfind as [Hin Hne].
      apply list_elem_of_In in Hin. apply bool_decide_eq_true in Hne.
      by specialize (Hall br Hin).
    - split; [|done]. intros _ br Hbr.
      rewrite find_none_iff in Hfind. specialize (Hfind br Hbr).
      apply bool_decide_eq_false in Hfind.
      by destruct (decide (BookingRequest.bookingStatusId br = bookingCancel)). }
  split; [by apply Hiff|]. split.
  - intros (br & Hbr & Hne).
    apply not_true_is_false. intros Ha.
    apply (Hiff _ eq_refl) in Ha as (Hall & _). by specialize (Hall br Hbr).
  - intros Hnil Hsh Hbc. apply (Hiff _ eq_refl). unfold noActiveRecord.
    rewrite Hnil. split; [by intros br ?%elem_of_nil|]. split.
    + intros bc li Hin Hli Hl Htouched. by specialize (Hbc bc li Hin Hli Hl).
    + intros sh li Hin Hli Hl. by specialize (Hsh sh li Hin Hli).
Qed.

End CancellationFacts.

(** An order whose only linked record is a booking confirmation never
    touched after creation: cancellable. *)
Lemma canOrderBeCancelled_decision_witness :
  ∃ answer,
    canOrderBeCancelled (H := Demo.collaborators) 1
      (Demo.withBookings Demo.untouchedConfirmation Demo.world)
    = (Ok answer, Demo.withBookings Demo.untouchedConfirmation Demo.world)
    ∧ answer = true.
Proof.
  destruct (canOrderBeCancelled_decision (H := Demo.collaborators) 1 90 91
              (Demo.withBookings Demo.untouchedConfirmation Demo.world)
              eq_refl eq_refl) as (answer & Hrun & _ & _ & Hquiet).
  exists answer. split; [exact Hrun|]. apply Hquiet.
  - reflexivity.
  - intros shipment li Hin. vm_compute in Hin. by apply elem_of_nil in Hin.
  - intros bc li Hbc _ _. vm_compute in Hbc.
    apply list_elem_of_singleton in Hbc as ->. reflexivity.
Defined.

(** The claim as worded fails: a linked confirmation that was touched
    after creation and has no status satisfies the worded condition, yet
    the order is not cancellable. *)
Lemma canOrderBeCancelled_statusless_counterexample :
  noActiveRecordAsSpecified Demo.statuslessConfirmation 1 90 91
  ∧ canOrderBeCancelled (H := Demo.collaborators) 1
      (Demo.withBookings Demo.statuslessConfirmation Demo.world)
    = (Ok false, Demo.withBookings Demo.statuslessConfirmation Demo.world).
Proof.
  split; [|reflexivity].
  unfold noActiveRecordAsSpecified. split; [|split].
  - intros br Hbr. vm_compute in Hbr. by apply elem_of_nil in Hbr.
  - intros bc li Hbc _ _ _. vm_compute in Hbc.
    apply list_elem_of_singleton in Hbc as ->. by left.
  - intros shipment li Hin. vm_compute in Hin. by apply elem_of_nil in Hin.
Qed.

(** ** Change control *)

(** Unfolds the storage primitives and the monad, so that a resolver
    becomes a case analysis on what the environment makes fail. *)
Ltac unfold_primitives :=
  unfold updateOrder, resetOrder, external, call, fails, freshOid, orderLoader,
    when, must, bind, ret, gets, modify, throw, rethrow in *.

Section ChangeControlFacts.
Context `{Collaborators}.

(** The stages of one call.  It stops before the request is stored when
    the readiness reset fails, the acting user is missing or the insert
    affects no row; once the request is stored, it stops before the
    reviews when the messages or the review insert fail; and with the
    reviews stored it completes unless the insert of the line-item deltas
    fails. *)
Lemma invokeChangeControl_stages order user orgId lineItems shipping note extraData w :
  let run := invokeChangeControl order user orgId lineItems shipping note extraData w in
  let approvers :=
    filter (λ p, OrderParticipant.orderId p = Order.id order
                 ∧ OrderParticipant.approvalIsRequired p = true)
      (orderParticipants (sql w)) in
  failing run.2 = failing w
  ∧ ((((OpUpdateOrder ∈ failing w) ∨ user = None
       ∨ (OpInsertOrderChangeRequest ∈ failing w))
      ∧ orderChangeRequests (sql run.2) = orderChangeRequests (sql w)
      ∧ orderChangeReviews (sql run.2) = orderChangeReviews (sql w)
      ∧ run.1 ≠ Ok tt)
     ∨ ∃ author,
         user = Some author
         ∧ (OpUpdateOrder ∉ failing w) ∧ (OpInsertOrderChangeRequest ∉ failing w)
         ∧ orderChangeRequests (sql run.2)
           = orderChangeRequests (sql w)
             ++ [submittedRequest order author lineItems shipping note w]
         ∧ ((((OpCreateMongoMessages ∈ failing w)
              ∨ (OpInsertOrderChangeReviews ∈ failing w))
             ∧ orderChangeReviews (sql run.2) = orderChangeReviews (sql w)
             ∧ run.1 ≠ Ok tt)
            ∨ ((OpCreateMongoMessages ∉ failing w)
               ∧ (OpInsertOrderChangeReviews ∉ failing w)
               ∧ orderChangeReviews (sql run.2)
                 = orderChangeReviews (sql w)
                   ++ map (λ p,
                        OrderChangeReview.mk (nextOid (sql w)) (OrderParticipant.userId p)
                          (if bool_decide (OrderParticipant.userId p = User.id author)
                           then Some (now w) else None)
                          (if bool_decide (OrderParticipant.userId p = User.id author)
                           then getChangeStatusId "Approved"
                           else getChangeStatusId "Proposed")) approvers
               ∧ (run.1 = Ok tt ↔ (OpInsertOrderChangeRequestLineItems ∉ failing w))))).
Proof.
  unfold invokeChangeControl, readChangeRequestNumber, storeChangeRequest.
  unfold_primitives. simpl.
  repeat case_match; simplify_eq/=; (split; [done|]);
    repeat match goal with
           | H : bool_decide _ = true |- _ => apply bool_decide_eq_true in H
           | H : bool_decide _ = false |- _ => apply bool_decide_eq_false in H
           end;
    first [ left; by eauto 10
          | right; eexists; split; [done|]; do 3 (split; [done|]);
            first [ left; by eauto 10
                  | right; do 3 (split; [done|]); split; intros; done ] ].
Qed.

(** C5 (for a call that completes).  When [invokeChangeControl]
    completes, it has stored one change request, authored by the acting
    user, and exactly one review row per participant of the order whose
    [approvalIsRequired] flag is true, in their order; the row of the
    author is Approved with a review date, every other row is Proposed
    with none.  Whatever the outcome, the call stores no other review
    row: the table is left as it was, or has these rows appended. *)
Theorem invokeChangeControl_reviews order user orgId lineItems shipping note
    extraData w :
  let run := invokeChangeControl order user orgId lineItems shipping note extraData w in
  let approvers :=
    filter (λ p, OrderParticipant.orderId p = Order.id order
                 ∧ OrderParticipant.approvalIsRequired p = true)
      (orderParticipants (sql w)) in
  (run.1 = Ok tt →
   ∃ author cr rows,
     user = Some author
     ∧ orderChangeRequests (sql run.2) = orderChangeRequests (sql w) ++ [cr]
     ∧ OrderChangeRequest.orderId cr = Order.id order
     ∧ OrderChangeRequest.entityId cr = User.id author
     ∧ orderChangeReviews (sql run.2) = orderChangeReviews (sql w) ++ rows
     ∧ length rows = length approvers
     ∧ Forall2 (reviewAsSpecified (OrderChangeRequest.id cr) (User.id author))
         approvers rows)
  ∧ (orderChangeReviews (sql run.2) = orderChangeReviews (sql w)
     ∨ ∃ author cr rows,
         user = Some author
         ∧ orderChangeRequests (sql run.2) = orderChangeRequests (sql w) ++ [cr]
         ∧ orderChangeReviews (sql run.2) = orderChangeReviews (sql w) ++ rows
         ∧ Forall2 (reviewAsSpecified (OrderChangeRequest.id cr) (User.id author))
             approvers rows).
Proof.
  intros run approvers.
  assert (∀ author,
            Forall2 (reviewAsSpecified (nextOid (sql w)) (User.id author)) approvers
              (map (λ p,
                 OrderChangeReview.mk (nextOid (sql w)) (OrderParticipant.userId p)
                   (if bool_decide (OrderParticipant.userId p = User.id author)
                    then Some (now w) else None)
                   (if bool_decide (OrderParticipant.userId p = User.id author)
                    then getChangeStatusId "Approved"
                    else getChangeStatusId "Proposed")) approvers)) as Hrows.
  { intros author. apply Forall2_fmap_r, Forall_Forall2_diag, Forall_forall.
    intros p _. unfold reviewAsSpecified. simpl.
    repeat split; intros;
      by (rewrite ?bool_decide_eq_true_2, ?bool_decide_eq_false_2 by done). }
  destruct (invokeChangeControl_stages order user orgId lineItems shipping note
              extraData w) as [_ Hstages]. fold run approvers in Hstages.
  destruct Hstages as [(_ & _ & Hrev & Hthrows)
                      |(author & -> & _ & _ & Hcr
                        & [(_ & Hrev & Hthrows)|(_ & _ & Hrev & Hok)])].
  - split; [done|by left].
  - split; [done|by left].
  - split.
    + intros _. eexists author, _, _. split; [done|]. split; [exact Hcr|].
      split; [done|]. split; [done|]. split; [exact Hrev|].
      split; [by rewrite length_map|]. apply Hrows.
    + right. eexists author, _, _. split; [done|]. split; [exact Hcr|].
      split; [exact Hrev|]. apply Hrows.
Qed.

(** What one call does to the change-request table: nothing (and then the
    call throws), or one row appended under the next key with the computed
    number. *)
Lemma invokeChangeControl_requests order user orgId lineItems shipping note
    extraData w :
  let run := invokeChangeControl order user orgId lineItems shipping note extraData w in
  runners run.2 = runners w
  ∧ ((orderChangeRequests (sql run.2) = orderChangeRequests (sql w)
      ∧ nextOid (sql run.2) = nextOid (sql w) ∧ run.1 ≠ Ok tt)
     ∨ ∃ author,
         user = Some author
         ∧ orderChangeRequests (sql run.2)
           = orderChangeRequests (sql w)
             ++ [submittedRequest order author lineItems shipping note w]
         ∧ nextOid (sql run.2) = nextOid (sql w) + 1).
Proof.
  unfold invokeChangeControl, readChangeRequestNumber, storeChangeRequest.
  unfold_primitives. simpl.
  repeat case_match; simplify_eq/=; (split; [done|]);
    first [by left | right; eexists; by repeat split].
Qed.

Lemma ascending_snoc next requests cr :
  ascending next (requests ++ [cr]) →
  ascending next requests
  ∧ ∀ b, b ∈ requests → OrderChangeRequest.id b < OrderChangeRequest.id cr.
Proof.
  intros [Hlt Hasc]. split; [split|].
  - intros b Hb. apply Hlt. apply elem_of_app. by left.
  - intros l1 c l2 -> b Hb. apply (Hasc l1 c (l2 ++ [cr])); [|done].
    by rewrite <- app_assoc.
  - intros b Hb. by apply (Hasc requests cr []).
Qed.

Lemma lastChangeRequestOf_snoc orderId requests cr :
  lastChangeRequestOf orderId (requests ++ [cr])
  = if bool_decide (OrderChangeRequest.orderId cr = orderId) then
      match lastChangeRequestOf orderId requests with
      | Some l =>
          if OrderChangeRequest.id l <? OrderChangeRequest.id cr then Some cr else Some l
      | None => Some cr
      end
    else lastChangeRequestOf orderId requests.
Proof. unfold lastChangeRequestOf. by rewrite foldl_app. Qed.

Lemma requestsOf_snoc orderId requests cr :
  requestsOf orderId (requests ++ [cr])
  = requestsOf orderId requests
    ++ (if bool_decide (OrderChangeRequest.orderId cr = orderId) then [cr] else []).
Proof.
  unfold requestsOf. rewrite filter_app, filter_cons, filter_nil.
  by case_decide; case_bool_decide.
Qed.

(** With increasing keys, the greatest key of an order is on the request
    stored last. *)
Lemma lastChangeRequestOf_last next orderId requests :
  ascending next requests →
  lastChangeRequestOf orderId requests = last (requestsOf orderId requests).
Proof.
  induction requests as [|cr requests IH] using rev_ind; [done|].
  intros [Hasc Hbelow]%ascending_snoc.
  rewrite lastChangeRequestOf_snoc, requestsOf_snoc, IH by done.
  case_bool_decide; [|by rewrite app_nil_r].
  rewrite last_snoc.
  destruct (last (requestsOf orderId requests)) as [l|] eqn:Hl; [|done].
  assert (l ∈ requests) as Hin.
  { apply last_Some in Hl as [l' Hl]. unfold requestsOf in Hl.
    assert (l ∈ filter (λ cr, OrderChangeRequest.orderId cr = orderId) requests) as Hf
      by (rewrite Hl; apply elem_of_app; right; by left).
    by apply list_elem_of_filter in Hf as [_ ?]. }
  specialize (Hbelow l Hin). by rewrite (proj2 (Z.ltb_lt _ _) Hbelow).
Qed.

Lemma inSequence_last numbers :
  inSequence numbers →
  match last numbers with
  | Some n => n = Z.of_nat (length numbers)
  | None => numbers = []
  end.
Proof.
  intros Hseq. destruct numbers as [|n numbers _] using rev_ind; [done|].
  rewrite last_snoc, length_app. simpl.
  rewrite (Hseq (length numbers) n); [lia|].
  by rewrite lookup_app_r, Nat.sub_diag by lia.
Qed.

Lemma inSequence_max numbers :
  inSequence numbers → maxNumber numbers = Z.of_nat (length numbers).
Proof.
  induction numbers as [|n numbers IH] using rev_ind; [done|].
  intros Hseq. unfold maxNumber in *. rewrite foldr_app, length_app. simpl.
  assert (n = Z.of_nat (length numbers) + 1) as ->.
  { apply Hseq. by rewrite lookup_app_r, Nat.sub_diag by lia. }
  assert (inSequence numbers) as Hseq'.
  { intros i m Hi. apply Hseq. by apply lookup_app_l_Some. }
  specialize (IH Hseq').
  assert (∀ l a, 0 ≤ a → foldr Z.max a l = Z.max a (foldr Z.max 0 l)) as Hmax.
  { clear. induction l as [|x l IH]; intros a Ha; simpl; [lia|]. rewrite IH by done. lia. }
  rewrite Hmax by lia. rewrite IH. lia.
Qed.

Lemma inSequence_bound numbers n :
  inSequence numbers → n ∈ numbers → 1 ≤ n ≤ Z.of_nat (length numbers).
Proof.
  intros Hseq (i & Hi)%list_elem_of_lookup.
  pose proof (lookup_lt_Some _ _ _ Hi). rewrite (Hseq i n Hi). lia.
Qed.

(** The number the code computes, in a numbered world. *)
Lemma nextChangeRequestNumber_numbered orderId w :
  numbered w →
  nextChangeRequestNumber orderId (orderChangeRequests (sql w))
  = Z.of_nat (length (requestsOf orderId (orderChangeRequests (sql w)))) + 1.
Proof.
  intros [Hasc Hseq]. unfold nextChangeRequestNumber.
  rewrite (lastChangeRequestOf_last _ _ _ Hasc).
  pose proof (inSequence_last _ (Hseq orderId)) as Hlast.
  unfold numbersOf in Hlast. rewrite fmap_last, length_fmap in Hlast.
  destruct (last (requestsOf orderId _)) as [l|] eqn:Hl; simpl in Hlast.
  - by rewrite Hlast.
  - apply fmap_nil_inv in Hlast. by rewrite Hlast.
Qed.

End ChangeControlFacts.

(** User 7 submits a change request for order 1, whose required approvers
    are users 7 and 8: the row of 7 is Approved, the row of 8 Proposed. *)
Lemma invokeChangeControl_reviews_witness :
  let run :=
    invokeChangeControl (H := Demo.collaborators) Demo.order (Some (User.mk 7 100)) 100
      noLineItems {[ "destinationId"%string := VNum 6 ]} None None Demo.world in
  run.1 = Ok tt
  ∧ ∃ author cr rows,
      Some (User.mk 7 100) = Some author
      ∧ orderChangeRequests (sql run.2) = orderChangeRequests (sql Demo.world) ++ [cr]
      ∧ OrderChangeRequest.orderId cr = Order.id Demo.order
      ∧ OrderChangeRequest.entityId cr = User.id author
      ∧ orderChangeReviews (sql run.2) = orderChangeReviews (sql Demo.world) ++ rows
      ∧ length rows = 2%nat
      ∧ Forall2 (reviewAsSpecified (H := Demo.collaborators)
                   (OrderChangeRequest.id cr) (User.id author))
          [OrderParticipant.mk 11 1 7 true; OrderParticipant.mk 12 1 8 true] rows.
Proof.
  intros run.
  assert (run.1 = Ok tt) as Hok by (vm_compute; reflexivity).
  split; [exact Hok|].
  exact (proj1 (invokeChangeControl_reviews (H := Demo.collaborators) Demo.order
                  (Some (User.mk 7 100)) 100 noLineItems
                  {[ "destinationId"%string := VNum 6 ]} None None Demo.world) Hok).
Defined.

(** The claim as worded fails: when the messages cannot be created, the
    call has stored the change request and throws before the reviews, so
    the request of order 1 has no review row although two participants
    require approval. *)
Lemma invokeChangeControl_request_without_reviews_counterexample :
  let w := Demo.failingOn OpCreateMongoMessages Demo.world in
  let run :=
    invokeChangeControl (H := Demo.collaborators) Demo.order (Some (User.mk 7 100)) 100
      noLineItems {[ "destinationId"%string := VNum 6 ]} None None w in
  run.1 = Throw (mkError ApolloError "Failed to create messages")
  ∧ length (orderChangeRequests (sql w)) = 0%nat
  ∧ (OrderChangeRequest.orderId <$> orderChangeRequests (sql run.2)) = [1]
  ∧ orderChangeReviews (sql run.2) = []
  ∧ length (filter (λ p, OrderParticipant.orderId p = 1
                         ∧ OrderParticipant.approvalIsRequired p = true)
              (orderParticipants (sql w))) = 2%nat.
Proof. vm_compute. repeat split; reflexivity. Qed.

(** ** The change-request table is written by change control only *)

Lemma keepsSnapshots_alter (g : QueryRunner → QueryRunner) qr w :
  (∀ r, snapshot (g r) = snapshot r) →
  keepsSnapshots w (withRunners (alter g qr) w).
Proof.
  intros Hg i r Hr. simpl. destruct (decide (i = qr)) as [->|Hne].
  - exists (g r). split; [|done]. by rewrite list_lookup_alter_eq, Hr.
  - exists r. split; [|done]. by rewrite list_lookup_alter_ne.
Qed.

Lemma keepsSnapshots_snoc r0 w :
  keepsSnapshots w (withRunners (λ l, l ++ [r0]) w).
Proof. intros i r Hr. exists r. split; [|done]. simpl. by apply lookup_app_l_Some. Qed.

Ltac request_leaf :=
  unfold requestFrame, both, keeps, oidGrows; simpl;
  repeat split; try done; try lia;
  first [ by apply keepsSnapshots_alter
        | by apply keepsSnapshots_snoc
        | by (intros ? ? ?; eauto) ].

Section RequestFrameFacts.
Context `{Collaborators}.

Lemma call_requestFrame c : preserves requestFrame (call c).
Proof. unfold call. frame_with request_leaf. Qed.
Local Hint Resolve call_requestFrame : frame.

Lemma external_requestFrame op c message :
  preserves requestFrame (external op c message).
Proof. unfold external. frame_with request_leaf. Qed.
Local Hint Resolve external_requestFrame : frame.

Lemma freshOid_requestFrame : preserves requestFrame freshOid.
Proof. unfold freshOid. frame_with request_leaf. Qed.
Local Hint Resolve freshOid_requestFrame : frame.

Lemma orderLoader_requestFrame orderId : preserves requestFrame (orderLoader orderId).
Proof. unfold orderLoader. frame_with request_leaf. Qed.
Local Hint Resolve orderLoader_requestFrame : frame.

Lemma updateOrder_requestFrame orderId orgId fields extraData :
  preserves requestFrame (updateOrder orderId orgId fields extraData).
Proof. unfold updateOrder. frame_with request_leaf. Qed.
Local Hint Resolve updateOrder_requestFrame : frame.

Lemma resetOrder_requestFrame order : preserves requestFrame (resetOrder order).
Proof. unfold resetOrder. frame_with request_leaf. Qed.
Local Hint Resolve resetOrder_requestFrame : frame.

Lemma checkReadyForBookingResolver_requestFrame orderId context :
  preserves requestFrame (checkReadyForBookingResolver orderId context).
Proof. unfold checkReadyForBookingResolver. frame_with request_leaf. Qed.
Local Hint Resolve checkReadyForBookingResolver_requestFrame : frame.

Lemma canOrderBeCancelled_requestFrame orderId :
  preserves requestFrame (canOrderBeCancelled orderId).
Proof. unfold canOrderBeCancelled. frame_with request_leaf. Qed.
Local Hint Resolve canOrderBeCancelled_requestFrame : frame.

Lemma editOrderStatus_requestFrame orderId orderStatusId context :
  preserves requestFrame (editOrderStatus orderId orderStatusId context).
Proof. unfold editOrderStatus, completeMilestone. frame_with request_leaf. Qed.
Local Hint Resolve editOrderStatus_requestFrame : frame.

Lemma handleErrors_requestFrame responses :
  preserves requestFrame (handleErrors responses).
Proof. unfold handleErrors, errorObjectType. frame_with request_leaf. Qed.
Local Hint Resolve handleErrors_requestFrame : frame.

Lemma lineItemQuery_requestFrame q : preserves requestFrame (lineItemQuery q).
Proof. unfold lineItemQuery. frame_with request_leaf. Qed.
Local Hint Resolve lineItemQuery_requestFrame : frame.

Lemma updateLineItems_requestFrame order user lineItems :
  preserves requestFrame (updateLineItems order user lineItems).
Proof.
  unfold updateLineItems.
  frame_with request_leaf.
Qed.
Local Hint Resolve updateLineItems_requestFrame : frame.

Lemma checkLineItems_requestFrame orderId lineItems :
  preserves requestFrame (checkLineItems orderId lineItems).
Proof. unfold checkLineItems. frame_with request_leaf. Qed.
Local Hint Resolve checkLineItems_requestFrame : frame.

Lemma checkFieldsEditable_requestFrame userId orgId buyerOrgId editFields :
  preserves requestFrame (checkFieldsEditable userId orgId buyerOrgId editFields).
Proof. unfold checkFieldsEditable. frame_with request_leaf. Qed.
Local Hint Resolve checkFieldsEditable_requestFrame : frame.

Lemma editPOMessageThread_requestFrame orderId :
  preserves requestFrame (editPOMessageThread orderId).
Proof. unfold editPOMessageThread. frame_with request_leaf. Qed.
Local Hint Resolve editPOMessageThread_requestFrame : frame.

Lemma editAndResetOrder_requestFrame user order shipping lineItemsKey statusKey
    otherKeys context :
  preserves requestFrame
    (editAndResetOrder user order shipping lineItemsKey statusKey otherKeys context).
Proof. unfold editAndResetOrder. frame_with request_leaf. Qed.
Local Hint Resolve editAndResetOrder_requestFrame : frame.

Lemma editOrderPrepare_requestFrame input context :
  preserves requestFrame (editOrderPrepare input context).
Proof. unfold editOrderPrepare. frame_with request_leaf. Qed.
Local Hint Resolve editOrderPrepare_requestFrame : frame.

Lemma editOrderFinish_requestFrame input context order editFields :
  preserves requestFrame (editOrderFinish input context order editFields).
Proof. unfold editOrderFinish. frame_with request_leaf. Qed.
Local Hint Resolve editOrderFinish_requestFrame : frame.

Lemma queryRunnerStartTransaction_requestFrame :
  preserves requestFrame queryRunnerStartTransaction.
Proof. unfold queryRunnerStartTransaction. frame_with request_leaf. Qed.
Local Hint Resolve queryRunnerStartTransaction_requestFrame : frame.

Lemma commitTransaction_requestFrame qr : preserves requestFrame (commitTransaction qr).
Proof. unfold commitTransaction. frame_with request_leaf. Qed.
Local Hint Resolve commitTransaction_requestFrame : frame.

Lemma release_requestFrame qr : preserves requestFrame (release qr).
Proof. unfold release. frame_with request_leaf. Qed.
Local Hint Resolve release_requestFrame : frame.

Lemma insertOrderParticipants_requestFrame orderId values :
  preserves requestFrame (insertOrderParticipants orderId values).
Proof. induction values; simpl; frame_with request_leaf. Qed.
Local Hint Resolve insertOrderParticipants_requestFrame : frame.

Lemma executeInsertOrderParticipants_requestFrame orderId values :
  preserves requestFrame (executeInsertOrderParticipants orderId values).
Proof. unfold executeInsertOrderParticipants. frame_with request_leaf. Qed.
Local Hint Resolve executeInsertOrderParticipants_requestFrame : frame.

Lemma createOrderParticipants_requestFrame buyerOrgId supplierOrgId others orderId qr :
  preserves requestFrame
    (createOrderParticipants buyerOrgId supplierOrgId others orderId qr).
Proof. unfold createOrderParticipants. frame_with request_leaf. Qed.
Local Hint Resolve createOrderParticipants_requestFrame : frame.

Lemma editOrderParticipants_requestFrame orderId participants context :
  preserves requestFrame (editOrderParticipants orderId participants context).
Proof. unfold editOrderParticipants. frame_with request_leaf. Qed.

(** The rollback of [createOrder] restores the snapshot its own runner
    took, which holds the change requests of the moment. *)
Lemma createOrderTransaction_requestFrame input orgId orderOrgsFields terms number :
  preserves requestFrame
    (createOrderTransaction input orgId orderOrgsFields terms number).
Proof.
  intros w. unfold createOrderTransaction.
  unfold bind at 1. unfold queryRunnerStartTransaction at 1.
  unfold bind at 1. unfold gets at 1. unfold bind at 1. unfold modify at 1.
  unfold ret at 1. cbv beta iota.
  set (w1 := withRunners (λ l, l ++ [mkRunner true false (sql w)]) w).
  set (qr := length (runners w)).
  match goal with |- context [tryCatch ?b ?h] => set (body := b); set (handler := h) end.
  assert (preserves requestFrame body) as Hbody.
  { subst body. unfold createOrderWrites. frame_with request_leaf. }
  assert (requestFrame w w1) as H01 by (subst w1; request_leaf).
  specialize (Hbody w1). unfold tryCatch.
  destruct (body w1) as [[orderId|e] w2] eqn:Hrun; simpl in Hbody |- *.
  { by etrans. }
  clear Hrun. clearbody body.
  subst handler. cbv beta. unfold_primitives. unfold transactionActive. simpl.
  destruct Hbody as [[Hcr Hoid] Hsnap].
  destruct H01 as [[Hcr1 Hoid1] Hsnap1].
  assert (runners w1 !! qr = Some (mkRunner true false (sql w))) as Hqr.
  { subst w1 qr. simpl. by rewrite lookup_app_r, Nat.sub_diag by lia. }
  destruct (Hsnap qr _ Hqr) as (r' & Hr' & Hsnap').
  unfold gets, rollbackTransaction, release, modify. simpl. rewrite Hr'. simpl.
  destruct (isTransactionActive r'); simpl; rewrite ?Hr'; simpl.
  - repeat split; simpl.
    + unfold keeps. simpl. rewrite Hsnap'. done.
    + unfold oidGrows in *. simpl. lia.
    + etrans; [exact Hsnap1|]. etrans; [exact Hsnap|].
      intros i r Hr. simpl.
      destruct (decide (i = qr)) as [->|Hne].
      * rewrite !list_lookup_alter_eq, Hr. simpl. eauto.
      * rewrite !list_lookup_alter_ne by done. eauto.
  - repeat split; simpl.
    + unfold keeps in *. simpl in *. congruence.
    + unfold oidGrows in *. simpl in *. lia.
    + etrans; [exact Hsnap1|]. etrans; [exact Hsnap|].
      intros i r Hr. simpl.
      destruct (decide (i = qr)) as [->|Hne].
      * rewrite list_lookup_alter_eq, Hr. simpl. eauto.
      * rewrite list_lookup_alter_ne by done. eauto.
Qed.
Local Hint Resolve createOrderTransaction_requestFrame : frame.

Lemma createOrder_requestFrame input context :
  preserves requestFrame (createOrder input context).
Proof. unfold createOrder, validateOrderOrg. frame_with request_leaf. Qed.

End RequestFrameFacts.

(** ** Change-request numbering *)

Section NumberingFacts.
Context `{Collaborators}.

Lemma requestFrame_numbered w w' : requestFrame w w' → numberedTo w w'.
Proof.
  intros [[Hcr Hoid] _] [[Hlt Hasc] Hseq]. unfold keeps, oidGrows in *.
  split; [split|]; rewrite Hcr; [|done|done].
  intros cr Hin. specialize (Hlt cr Hin). lia.
Qed.

Lemma preserves_requestFrame_numberedTo {A} (m : M A) :
  preserves requestFrame m → preserves numberedTo m.
Proof. intros Hm w. apply requestFrame_numbered, Hm. Qed.

Lemma numbered_insert w w' cr :
  numbered w →
  orderChangeRequests (sql w') = orderChangeRequests (sql w) ++ [cr] →
  nextOid (sql w') = nextOid (sql w) + 1 →
  OrderChangeRequest.id cr = nextOid (sql w) →
  OrderChangeRequest.changeRequestNumber cr
  = nextChangeRequestNumber (OrderChangeRequest.orderId cr)
      (orderChangeRequests (sql w)) →
  numbered w'.
Proof.
  intros Hnum Hcr Hoid Hid Hno.
  rewrite (nextChangeRequestNumber_numbered _ _ Hnum) in Hno.
  destruct Hnum as [[Hlt Hasc] Hseq]. split; [split|]; rewrite Hcr.
  - intros c [Hc|Hc%list_elem_of_singleton]%elem_of_app.
    + specialize (Hlt c Hc). lia.
    + subst c. lia.
  - intros l1 c l2 Heq b Hb.
    destruct l2 as [|c' l2 _] using rev_ind.
    + apply app_inj_tail in Heq as [<- <-]. rewrite Hid. by apply Hlt.
    + rewrite app_comm_cons, app_assoc in Heq. apply app_inj_tail in Heq as [Heq _].
      by apply (Hasc l1 c l2).
  - intros orderId. unfold numbersOf. rewrite requestsOf_snoc, fmap_app.
    specialize (Hseq orderId). unfold numbersOf in Hseq.
    intros i n Hi. apply lookup_app_Some in Hi as [Hi|[Hlen Hi]]; [by apply Hseq|].
    case_bool_decide as Ho; [|done].
    simpl in Hi. apply list_lookup_singleton_Some in Hi as [Hi <-].
    rewrite length_fmap in Hlen, Hi. rewrite Hno, Ho. lia.
Qed.

Lemma invokeChangeControl_numbered order user orgId lineItems shipping note extraData :
  preserves numberedTo
    (invokeChangeControl order user orgId lineItems shipping note extraData).
Proof.
  intros w Hnum.
  destruct (invokeChangeControl_requests order user orgId lineItems shipping note
              extraData w) as [_ [(Hcr & Hoid & _)|(author & _ & Hcr & Hoid)]].
  - destruct Hnum as [[Hlt Hasc] Hseq]. split; [split|]; rewrite Hcr, ?Hoid; done.
  - by apply (numbered_insert w _ _ Hnum Hcr).
Qed.

Lemma editOrderRoute_numbered input order user orgId poPrefs lineItems shipping :
  preserves numberedTo (editOrderRoute input order user orgId poPrefs lineItems shipping).
Proof.
  unfold editOrderRoute. destruct (negb _).
  - apply preserves_requestFrame_numberedTo.
    apply (preserves_bind requestFrame); [apply updateOrder_requestFrame|intros _].
    apply (preserves_bind requestFrame); [apply orderLoader_requestFrame|intros o].
    apply updateLineItems_requestFrame.
  - apply (preserves_bind numberedTo); [apply invokeChangeControl_numbered|intros _].
    apply (preserves_when numberedTo).
    apply preserves_requestFrame_numberedTo, updateOrder_requestFrame.
Qed.

Lemma editOrder_numbered input context : preserves numberedTo (editOrder input context).
Proof.
  unfold editOrder.
  apply (preserves_bind numberedTo).
  { apply preserves_requestFrame_numberedTo, editOrderPrepare_requestFrame. }
  intros [updatedOrder|r]; [apply (preserves_ret numberedTo)|].
  apply (preserves_bind numberedTo); [apply editOrderRoute_numbered|intros _].
  apply preserves_requestFrame_numberedTo, editOrderFinish_requestFrame.
Qed.

Lemma step_numbered w w' : step w w' → numbered w → numbered w'.
Proof.
  destruct 1.
  - apply editOrder_numbered.
  - apply preserves_requestFrame_numberedTo, editOrderStatus_requestFrame.
  - apply preserves_requestFrame_numberedTo, editOrderParticipants_requestFrame.
  - apply preserves_requestFrame_numberedTo, createOrder_requestFrame.
  - intros Hnum. exact Hnum.
Qed.

Lemma reachable_numbered w : reachable w → numbered w.
Proof.
  intros (w0 & Hempty & Hsteps).
  assert (numbered w0) as H0.
  { split; [split|]; rewrite Hempty.
    - by intros cr ?%elem_of_nil.
    - by intros [|??] ? ? ?.
    - by intros orderId i n ?. }
  clear Hempty. induction Hsteps as [|w1 w2 w3 Hstep _ IH]; [done|].
  apply IH. by apply (step_numbered w1).
Qed.

Lemma inSequence_NoDup numbers : inSequence numbers → NoDup numbers.
Proof.
  intros Hseq. apply NoDup_alt. intros i j n Hi Hj.
  apply Hseq in Hi, Hj. lia.
Qed.

Lemma invokeChangeControl_succeeds order author orgId lineItems shipping note
    extraData w :
  failing w = [] →
  (invokeChangeControl order (Some author) orgId lineItems shipping note extraData w).1
  = Ok tt.
Proof.
  intros Hf. unfold invokeChangeControl, readChangeRequestNumber, storeChangeRequest.
  unfold_primitives. simpl.
  repeat (rewrite Hf; simpl). done.
Qed.

Lemma invokeChangeControl_Ok_request order user orgId lineItems shipping note
    extraData w :
  let run := invokeChangeControl order user orgId lineItems shipping note extraData w in
  run.1 = Ok tt →
  ∃ cr, orderChangeRequests (sql run.2) = orderChangeRequests (sql w) ++ [cr].
Proof.
  intros run Hok.
  destruct (invokeChangeControl_requests order user orgId lineItems shipping note
              extraData w) as [_ [(_ & _ & Hbad)|(author & _ & Hcr & _)]]; [done|].
  by eexists.
Qed.

(** C3 (for calls that do not interleave).  In every world that a
    history of resolver calls, each run to its end before the next
    begins, can reach from a store without change requests (whichever of
    the calls failed, and whatever the environment did in between), the
    change requests of each order carry the numbers 1, 2, 3, ... in the
    order they were created, without repetition.  A call of
    [invokeChangeControl] that stores a change request there numbers it
    with the prior maximum of the order plus 1, which is 1 for the first
    one and a number the order has not used; and the call does store one
    whenever the environment makes nothing fail. *)
Theorem change_request_numbering w :
  reachable w →
  (∀ orderId,
     inSequence (numbersOf orderId (orderChangeRequests (sql w)))
     ∧ NoDup (numbersOf orderId (orderChangeRequests (sql w))))
  ∧ ∀ order user orgId lineItems shipping note extraData,
      let run :=
        invokeChangeControl order user orgId lineItems shipping note extraData w in
      (failing w = [] → is_Some user → run.1 = Ok tt)
      ∧ (run.1 = Ok tt →
         ∃ cr, orderChangeRequests (sql run.2) = orderChangeRequests (sql w) ++ [cr])
      ∧ (orderChangeRequests (sql run.2) = orderChangeRequests (sql w)
         ∨ ∃ cr,
             orderChangeRequests (sql run.2) = orderChangeRequests (sql w) ++ [cr]
             ∧ OrderChangeRequest.orderId cr = Order.id order
             ∧ OrderChangeRequest.changeRequestNumber cr
               = maxNumber (numbersOf (Order.id order) (orderChangeRequests (sql w))) + 1
             ∧ (requestsOf (Order.id order) (orderChangeRequests (sql w)) = [] →
                OrderChangeRequest.changeRequestNumber cr = 1)
             ∧ OrderChangeRequest.changeRequestNumber cr
               ∉ numbersOf (Order.id order) (orderChangeRequests (sql w))).
Proof.
  intros Hnum%reachable_numbered. split.
  { intros orderId. destruct Hnum as [_ Hseq]. split; [done|].
    by apply inSequence_NoDup. }
  intros order user orgId lineItems shipping note extraData run. split; [|split].
  - intros Hf [author ->]. by apply invokeChangeControl_succeeds.
  - apply invokeChangeControl_Ok_request.
  - destruct (invokeChangeControl_requests order user orgId lineItems shipping note
                extraData w) as [_ [(Hcr & _)|(author & _ & Hcr & _)]]; [by left|].
    right. eexists. split; [exact Hcr|]. split; [done|].
    assert (OrderChangeRequest.changeRequestNumber
              (submittedRequest order author lineItems shipping note w)
            = nextChangeRequestNumber (Order.id order) (orderChangeRequests (sql w)))
      as Hno by done.
    rewrite (nextChangeRequestNumber_numbered _ _ Hnum) in Hno.
    pose proof (proj2 Hnum (Order.id order)) as Hseq.
    rewrite (inSequence_max _ Hseq). unfold numbersOf at 1. rewrite length_fmap.
    split; [done|]. split.
    + intros Hnil. rewrite Hno, Hnil. done.
    + intros Hin. apply (inSequence_bound _ _ Hseq) in Hin.
      unfold numbersOf in Hin. rewrite length_fmap in Hin. lia.
Qed.

End NumberingFacts.

(** A submission for order 1 fails after its request is stored; the next
    one, with nothing failing, stores number 2. *)
Lemma change_request_numbering_witness :
  let failed :=
    editOrder (H := Demo.collaborators) Demo.editDestination Demo.context
      (Demo.failingOn OpInsertOrderChangeReviews Demo.world) in
  let w :=
    mkWorld (sql failed.2) (bookings failed.2) (runners failed.2) [] (now failed.2)
      (calls failed.2) in
  let run :=
    invokeChangeControl (H := Demo.collaborators) Demo.order (Some (User.mk 8 100)) 100
      noLineItems ∅ None None w in
  failed.1 = Throw (mkError ApolloError "Failed to insert order change reviews")
  ∧ numbersOf 1 (orderChangeRequests (sql w)) = [1]
  ∧ run.1 = Ok tt
  ∧ numbersOf 1 (orderChangeRequests (sql run.2)) = [1; 2].
Proof.
  intros failed w run.
  assert (reachable (H := Demo.collaborators) w) as Hreach.
  { exists Demo.world. split; [reflexivity|].
    eapply rtc_l;
      [exact (step_environment (H := Demo.collaborators) (bookings Demo.world)
                [OpInsertOrderChangeReviews] (now Demo.world) (calls Demo.world)
                Demo.world)|].
    eapply rtc_l;
      [exact (step_editOrder (H := Demo.collaborators) Demo.editDestination
                Demo.context (Demo.failingOn OpInsertOrderChangeReviews Demo.world))|].
    apply rtc_once.
    exact (step_environment (H := Demo.collaborators) (bookings failed.2) []
             (now failed.2) (calls failed.2) failed.2). }
  destruct (change_request_numbering (H := Demo.collaborators) w Hreach) as [_ Hstep].
  destruct (Hstep Demo.order (Some (User.mk 8 100)) 100 noLineItems ∅ None None)
    as (Hok & _ & _).
  split; [vm_compute; reflexivity|]. split; [vm_compute; reflexivity|]. split.
  - apply Hok; [vm_compute; reflexivity|by eexists].
  - vm_compute. reflexivity.
Defined.

(** The claim as worded fails when two submissions for one order
    interleave: users 7 and 8 both read the last change request of order 1
    before either inserts, and both requests are stored with number 1. *)
Lemma change_request_numbering_interleaved_counterexample :
  let run :=
    invokeChangeControlInterleaved (H := Demo.collaborators) Demo.order
      (Some (User.mk 7 100)) (Some (User.mk 8 100)) 100 noLineItems
      {[ "destinationId"%string := VNum 6 ]} Demo.world in
  run.1 = Ok tt
  ∧ numbersOf 1 (orderChangeRequests (sql Demo.world)) = []
  ∧ (OrderChangeRequest.entityId <$> orderChangeRequests (sql run.2)) = [7; 8]
  ∧ numbersOf 1 (orderChangeRequests (sql run.2)) = [1; 1].
Proof. vm_compute. repeat split; reflexivity. Qed.

(** ** The order mutation router *)

Global Instance unchanged_preorder : PreOrder unchanged.
Proof. unfold unchanged. apply _. Qed.

(** Walks down a chain of [let!] that returned. *)
Ltac inv_binds H :=
  repeat (lazymatch type of H with bind _ _ _ = _ => idtac end;
          let a := fresh "a" in let w := fresh "w" in let Ha := fresh "Hrun" in
          apply bind_inv_Ok in H as (a & w & Ha & H)).

Section RouterFacts.
Context `{Collaborators}.

Lemma preserves_unchanged {A} (m : M A) w r w' :
  preserves unchanged m → m w = (r, w') → w' = w.
Proof. intros Hm Hrun. specialize (Hm w). by rewrite Hrun in Hm. Qed.

Lemma orderLoader_unchanged orderId : preserves unchanged (orderLoader orderId).
Proof. unfold orderLoader. frame_with ltac:(done). Qed.

Lemma checkLineItems_unchanged orderId lineItems :
  preserves unchanged (checkLineItems orderId lineItems).
Proof. unfold checkLineItems. frame_with ltac:(done). Qed.

Lemma checkFieldsEditable_unchanged userId orgId buyerOrgId editFields :
  preserves unchanged (checkFieldsEditable userId orgId buyerOrgId editFields).
Proof. unfold checkFieldsEditable. frame_with ltac:(done). Qed.

Lemma canOrderBeCancelled_unchanged orderId :
  preserves unchanged (canOrderBeCancelled orderId).
Proof. unfold canOrderBeCancelled. frame_with ltac:(done). Qed.

(** The loader returns the stored row of that id. *)
Lemma orderLoader_Ok orderId w order w' :
  orderLoader orderId w = (Ok order, w') →
  w' = w ∧ Order.id order = orderId
  ∧ find (λ o, bool_decide (Order.id o = orderId)) (orders (sql w)) = Some order.
Proof.
  unfold orderLoader. unfold_primitives. simpl.
  destruct (find _ _) as [o|] eqn:Hfind; intros Hrun; simplify_eq.
  split; [done|]. split; [|done].
  apply find_some in Hfind as [_ Hid]. by apply bool_decide_eq_true in Hid.
Qed.

Lemma orderLoader_found orderId w order :
  find (λ o, bool_decide (Order.id o = orderId)) (orders (sql w)) = Some order →
  orderLoader orderId w = (Ok order, w).
Proof. intros Hfind. unfold orderLoader. unfold_primitives. simpl. by rewrite Hfind. Qed.

Lemma checkFieldsEditable_Ok userId orgId buyerOrgId editFields w poPrefs w' :
  checkFieldsEditable userId orgId buyerOrgId editFields w = (Ok poPrefs, w') →
  w' = w ∧ poPrefs = getPreferences userId orgId buyerOrgId ≫= purchaseOrder.
Proof.
  intros Hrun. split.
  { by apply (preserves_unchanged _ _ _ _
                (checkFieldsEditable_unchanged userId orgId buyerOrgId editFields) Hrun). }
  unfold checkFieldsEditable in Hrun. inv_binds Hrun.
  unfold ret in Hrun. by simplify_eq.
Qed.

(** A status change returns the row as stored after it. *)
Lemma editOrderStatus_Ok orderId orderStatusId context w order w' :
  editOrderStatus orderId orderStatusId context w = (Ok order, w') →
  orderLoader orderId w' = (Ok order, w').
Proof.
  unfold editOrderStatus. intros Hrun. inv_binds Hrun.
  by destruct (orderLoader_Ok _ _ _ _ Hrun) as (-> & _ & _).
Qed.

(** What the first part of [editOrder] establishes when it reaches the
    fork. *)
Lemma editOrderPrepare_inr input context w r w1 :
  editOrderPrepare input context w = (Ok (inr r), w1) →
  checkPermissions (GraphQLContext.permissions context) [INTEGRATION] = false
  ∧ orderLoader (orderId input) w1 = (Ok (routedOrder r), w1)
  ∧ Order.id (routedOrder r) = orderId input
  ∧ routedUser r = findUser (userId input)
  ∧ routedOrgId r = GraphQLContext.orgId context
  ∧ routedLineItems r = default noLineItems (lineItems input)
  ∧ routedShippingInformation r
    = default noShippingInformation (shippingInformation input)
  ∧ routedEditFields r
    = editFieldsOf (default noShippingInformation (shippingInformation input)) input
  ∧ ∃ stored,
      orderLoader (orderId input) w = (Ok stored, w)
      ∧ routedPoPrefs r
        = getPreferences (userId input) (GraphQLContext.orgId context)
            (Order.buyerId stored) ≫= purchaseOrder
      ∧ (statusChange (orderStatusId input) stored = None →
         routedOrder r = stored ∧ w1 = w)
      ∧ (∀ status,
           statusChange (orderStatusId input) stored = Some status →
           editOrderStatus (orderId input) status context w
           = (Ok (routedOrder r), w1)).
Proof.
  unfold editOrderPrepare. intros Hrun.
  apply bind_inv_Ok in Hrun as (stored & wa & Hload & Hrun).
  pose proof (orderLoader_Ok _ _ _ _ Hload) as (Hwa & Hid & Hfind). subst wa.
  apply bind_inv_Ok in Hrun as (buyer & wb & Hbuyer & Hrun).
  assert (wb = w) as Hwb.
  { destruct (findCompany _); unfold ret, throw in Hbuyer; by simplify_eq. }
  subst wb.
  apply bind_inv_Ok in Hrun as (fulfillments & wc & Hf & Hrun).
  assert (wc = w) as Hwc by (unfold gets in Hf; by simplify_eq). subst wc.
  apply bind_inv_Ok in Hrun as ([] & wd & Hvis & Hrun).
  assert (wd = w) as Hwd.
  { destruct (negb _); unfold ret, throw in Hvis; by simplify_eq. }
  subst wd.
  destruct (isOrderEditable _ _ _ _) as [isEditable message].
  apply bind_inv_Ok in Hrun as ([] & we & Hed & Hrun).
  assert (we = w) as Hwe.
  { destruct (negb _); unfold ret, throw in Hed; by simplify_eq. }
  subst we.
  destruct (checkPermissions _ _) eqn:Hint.
  { (* integration returns the order, never a routing *)
    apply bind_inv_Ok in Hrun as (shipping' & wf & _ & Hrun).
    inv_binds Hrun. unfold ret in Hrun. simplify_eq. }
  rewrite !andb_false_r, !andb_false_l in Hrun. cbv iota in Hrun.
  apply bind_inv_Ok in Hrun as (shipping' & wf & Hship & Hrun).
  assert (wf = w ∧ shipping' = default noShippingInformation (shippingInformation input))
    as [Hwf Hshipping] by (unfold ret in Hship; by simplify_eq).
  subst wf shipping'.
  apply bind_inv_Ok in Hrun as (poPrefs & wg & Hprefs & Hrun).
  apply checkFieldsEditable_Ok in Hprefs as [Hwg Hprefs]. subst wg.
  apply bind_inv_Ok in Hrun as ([] & wh & Hcheck & Hrun).
  apply (preserves_unchanged _ _ _ _ (checkLineItems_unchanged _ _)) in Hcheck.
  subst wh.
  apply bind_inv_Ok in Hrun as (order & wi & Hstatus & Hrun).
  assert (wi = w1 ∧ r = mkRouting order (findUser (userId input))
            (GraphQLContext.orgId context) poPrefs
            (default noLineItems (lineItems input))
            (default noShippingInformation (shippingInformation input))
            (editFieldsOf (default noShippingInformation (shippingInformation input))
               input)) as [Hwi Hr] by (unfold ret in Hrun; by simplify_eq).
  subst wi r. simpl.
  split; [done|].
  assert (orderLoader (orderId input) w1 = (Ok order, w1)
          ∧ (statusChange (orderStatusId input) stored = None → order = stored ∧ w1 = w)
          ∧ (∀ s, statusChange (orderStatusId input) stored = Some s →
               editOrderStatus (orderId input) s context w = (Ok order, w1)))
    as (Hloaded & Hsame & Hchanged).
  { destruct (statusChange _ _) as [s|].
    - split; [by apply editOrderStatus_Ok in Hstatus|]. split; [done|].
      by intros ? [= <-].
    - unfold ret in Hstatus. simplify_eq. split; [by apply orderLoader_found|done]. }
  split; [done|]. split; [by apply orderLoader_Ok in Hloaded as (_ & ? & _)|].
  repeat (split; [done|]).
  exists stored. split; [by apply orderLoader_found|]. done.
Qed.


Lemma applyFields_not_ready o :
  applyFields {[ "isReadyForBooking"%string := VBool false ]} o
  = Order.mk (Order.id o) (Order.buyerId o) (Order.supplierId o)
      (Order.orderStatusId o) false (Order.columns o).
Proof.
  unfold applyFields. f_equal.
  rewrite map_filter_singleton_False by (simpl; set_solver).
  unfold spread. apply (left_id_L ∅ (∪)).
Qed.


Lemma present_true {A} (o : option A) : present o = true ↔ is_Some o.
Proof.
  destruct o; simpl; split; done.
Qed.






(** Paths B and C store at most one change request, and exactly one when
    the call completes. *)
Lemma editOrderRoute_submits input order user orgId poPrefs lineItems shipping w :
  hasChangeControl poPrefs order (shippingInfoSubExtra shipping) lineItems = true →
  let route := editOrderRoute input order user orgId poPrefs lineItems shipping w in
  (orderChangeRequests (sql route.2) = orderChangeRequests (sql w) ∧ route.1 ≠ Ok tt)
  ∨ ∃ author,
      user = Some author
      ∧ orderChangeRequests (sql route.2)
        = orderChangeRequests (sql w)
          ++ [submittedRequest order author lineItems (shippingInfoSubExtra shipping)
                (inputRest input !! "orderChangeRequestNote"%string) w].
Proof.
  intros Hyes. unfold editOrderRoute. rewrite Hyes. simpl.
  pose proof (invokeChangeControl_requests order user orgId lineItems
                (shippingInfoSubExtra shipping)
                (inputRest input !! "orderChangeRequestNote"%string)
                (extraData shipping) w) as [_ Hreq].
  match goal with |- context [bind ?m (λ _, ?k)] =>
    set (submit := m) in *; set (direct := k) end.
  assert (preserves requestFrame direct) as Hdirect.
  { subst direct. apply (preserves_when requestFrame), updateOrder_requestFrame. }
  unfold bind. simpl in Hreq.
  destruct (submit w) as [[[]|e] wi] eqn:Hrun; simpl in *.
  - destruct Hreq as [(_ & _ & Hbad)|(author & -> & Hcr & _)]; [done|].
    right. exists author. split; [done|].
    destruct (Hdirect wi) as [[Hcr' _] _]. unfold keeps in Hcr'. by rewrite Hcr'.
  - destruct Hreq as [(Hcr & _)|(author & -> & Hcr & _)]; [by left|].
    right. by exists author.
Qed.


Lemma updateOrder_Ok orderId orgId fields extraData w w' :
  updateOrder orderId orgId fields extraData w = (Ok tt, w') →
  orders (sql w') = applyTo orderId fields (orders (sql w))
  ∧ orderLineItems (sql w') = orderLineItems (sql w)
  ∧ orderChangeRequests (sql w') = orderChangeRequests (sql w)
  ∧ orderChangeRequestLineItems (sql w') = orderChangeRequestLineItems (sql w)
  ∧ calls w' = calls w ++ [CallUpdateOrder orderId orgId fields extraData].
Proof.
  unfold updateOrder. unfold_primitives. simpl.
  intros Hrun. repeat case_match; simplify_eq/=. done.
Qed.


Lemma find_order_map (f : Order.t → Order.t) orderId rows :
  (∀ o, Order.id (f o) = Order.id o) →
  find (λ o, bool_decide (Order.id o = orderId)) (map f rows)
  = f <$> find (λ o, bool_decide (Order.id o = orderId)) rows.
Proof.
  intros Hid. induction rows as [|o rows IH]; simpl; [done|].
  rewrite Hid. by destruct (bool_decide _).
Qed.


End RouterFacts.

Section RouterRuns.
Context `{Collaborators}.


Global Instance ordersOnly_preorder : PreOrder ordersOnly.
Proof. unfold ordersOnly. apply _. Qed.

Global Instance keepsColumns_preorder orderId : PreOrder (keepsColumns orderId).
Proof.
  split.
  - intros w o Ho. eauto.
  - intros w1 w2 w3 H12 H23 o Ho.
    destruct (H12 o Ho) as (o' & Ho' & ? & ? & ?).
    destruct (H23 o' Ho') as (o'' & Ho'' & ? & ? & ?).
    exists o''. repeat split; [done|congruence..].
Qed.

Global Instance statusFrame_preorder orderId : PreOrder (statusFrame orderId).
Proof. unfold statusFrame. apply _. Qed.



























End RouterRuns.





(** ** Validation before mutation *)

Section RejectFacts.
Context (R : relation World) `{!PreOrder R}.

Lemma rejects_throw {A} kind message : rejects R (@throw A kind message).
Proof. intros w. split; [by eexists|done]. Qed.

Lemma rejects_bind_l {A B} (m : M A) (f : A → M B) :
  rejects R m → rejects R (bind m f).
Proof.
  intros Hm w. destruct (Hm w) as [[e He] HR]. unfold bind.
  destruct (m w) as [[a|e'] w']; simpl in *; [done|]. split; [by eexists|done].
Qed.

Lemma rejects_bind_r {A B} (m : M A) (f : A → M B) :
  preserves R m → (∀ a, rejects R (f a)) → rejects R (bind m f).
Proof.
  intros Hm Hf w. specialize (Hm w). unfold bind.
  destruct (m w) as [[a|e] w']; simpl in *.
  - destruct (Hf a w') as [He HR]. split; [done|]. by etrans.
  - split; [by eexists|done].
Qed.

End RejectFacts.

Section ValidationFacts.
Context `{Collaborators}.

Lemma forEach_rejects {A} (l : list A) (f : A → M unit) x :
  x ∈ l → (∀ y, preserves unchanged (f y)) → rejects unchanged (f x) →
  rejects unchanged (forEach l f).
Proof.
  intros Hin Hf Hx. induction l as [|y l IH]; [by apply elem_of_nil in Hin|].
  simpl. apply elem_of_cons in Hin as [<-|Hin].
  - by apply (rejects_bind_l unchanged).
  - apply (rejects_bind_r unchanged); [apply Hf|intros _; by apply IH].
Qed.

(** The validation throws on a contradictory payload, writing nothing. *)
Lemma checkLineItems_rejects orderId lineItems :
  conflictingLineItems lineItems → rejects unchanged (checkLineItems orderId lineItems).
Proof.
  intros Hconflict. unfold checkLineItems.
  destruct (present (replaceLineItems lineItems)
            && (present (addLineItems lineItems) || present (editLineItems lineItems)
                || present (removeLineItems lineItems))) eqn:Hreplace.
  { apply (rejects_bind_l unchanged), (rejects_throw unchanged). }
  apply (rejects_bind_r unchanged); [apply (preserves_ret unchanged)|intros _].
  apply (rejects_bind_l unchanged).
  destruct Hconflict as [[Hr Hother]|(edits & removes & editItem & -> & -> & Hin & Hrem)].
  - apply andb_false_iff in Hreplace as [Hreplace|Hreplace].
    + apply present_true in Hr. congruence.
    + rewrite !orb_false_iff in Hreplace. destruct Hreplace as [[Ha He] Hd].
      destruct Hother as [?%present_true|[?%present_true|?%present_true]]; congruence.
  - apply (forEach_rejects _ _ editItem Hin).
    + intros y. destruct (bool_decide _);
        [apply (preserves_throw unchanged)|apply (preserves_ret unchanged)].
    + rewrite bool_decide_eq_true_2 by done. apply (rejects_throw unchanged).
Qed.

End ValidationFacts.

(** ** Participant replacement *)

Section RefuseFacts.
Context (P : Error → Prop).

Lemma refuses_ret {A} (a : A) : refuses P (ret a).
Proof. intros w. split; [done|]. by intros e. Qed.

Lemma refuses_gets {A} (f : World → A) : refuses P (gets f).
Proof. intros w. split; [done|]. by intros e. Qed.

Lemma refuses_throw {A} kind message :
  P (mkError kind message) → refuses P (@throw A kind message).
Proof. intros HP w. split; [done|]. intros e He. unfold throw in He. by simplify_eq/=. Qed.

Lemma refuses_bind {A B} (m : M A) (f : A → M B) :
  refuses P m → (∀ a, refuses P (f a)) → refuses P (bind m f).
Proof.
  intros Hm Hf w. destruct (Hm w) as [Hw He]. unfold bind.
  destruct (m w) as [[a|e] w']; simpl in *; subst w'.
  - apply Hf.
  - split; [done|]. intros e' He'. simplify_eq. by apply He.
Qed.

Lemma refuses_forEach {A} (l : list A) (f : A → M unit) :
  (∀ x, refuses P (f x)) → refuses P (forEach l f).
Proof.
  intros Hf. induction l as [|x l IH]; simpl; [apply refuses_ret|].
  apply refuses_bind; [apply Hf|by intros _].
Qed.

(** A refusing step of a chain either ends it with its error, or hands
    on in the same world. *)
Lemma refuses_bind_inv {A B} (m : M A) (f : A → M B) w r w' :
  refuses P m → bind m f w = (r, w') →
  (w' = w ∧ ∃ e, r = Throw e ∧ P e) ∨ ∃ a, f a w = (r, w').
Proof.
  intros Hm Hrun. destruct (Hm w) as [Hw He]. unfold bind in Hrun.
  destruct (m w) as [[a|e] w1]; simpl in *; subst w1.
  - right. by exists a.
  - left. simplify_eq. split; [done|]. exists e. split; [done|]. by apply He.
Qed.

End RefuseFacts.

(** A throw of an error other than the participant insert's. *)
Ltac refuse_other := apply refuses_throw; unfold otherError; simpl; discriminate.

(** A guard of the shape [if c then throw ... else ret ()]. *)
Ltac refuse_guard :=
  match goal with
  | |- refuses _ (if ?c then _ else _) => destruct c; [refuse_other|apply refuses_ret]
  end.

Section ParticipantFacts.
Context `{Collaborators}.

Lemma insertOrderParticipants_run orderId values w :
  ∃ rows,
    insertOrderParticipants orderId values w
    = (Ok rows,
       withSql (λ s, withNextOid (λ n, n + Z.of_nat (length values))
                       (withOrderParticipants (λ l, l ++ rows) s)) w)
    ∧ length rows = length values
    ∧ Forall (λ row, OrderParticipant.orderId row = orderId) rows.
Proof.
  revert w. induction values as [|p values IH]; intros w; simpl.
  - exists []. split; [|done]. unfold ret. f_equal.
    destruct w as [[] ? ? ? ? ?]. unfold withSql, withNextOid, withOrderParticipants.
    simpl. by rewrite app_nil_r, Z.add_0_r.
  - unfold_primitives. simpl.
    match goal with |- context [insertOrderParticipants orderId values ?w1] =>
      destruct (IH w1) as (rows & -> & Hlen & Hall) end.
    eexists (_ :: rows). split.
    { f_equal. destruct w as [[] ? ? ? ? ?].
      unfold withSql, withNextOid, withOrderParticipants. simpl.
      rewrite <- app_assoc. simpl. do 2 f_equal. lia. }
    split; [by simpl; rewrite Hlen|by constructor].
Qed.

Lemma executeInsertOrderParticipants_run orderId values w :
  (OpInsertOrderParticipants ∈ failing w
   ∧ executeInsertOrderParticipants orderId values w = (Ok [], w))
  ∨ ((OpInsertOrderParticipants ∉ failing w)
     ∧ (∃ rows,
          executeInsertOrderParticipants orderId values w
          = (Ok rows,
             withSql (λ s, withNextOid (λ n, n + Z.of_nat (length values))
                             (withOrderParticipants (λ l, l ++ rows) s)) w)
          ∧ length rows = length values
          ∧ Forall (λ row, OrderParticipant.orderId row = orderId) rows)).
Proof.
  unfold executeInsertOrderParticipants, bind, fails, gets, ret. simpl.
  case_bool_decide as Hfail; [by left|]. right. split; [done|].
  apply insertOrderParticipants_run.
Qed.

Lemma queryRunnerStartTransaction_run w :
  queryRunnerStartTransaction w
  = (Ok (length (runners w)),
     withRunners (λ l, l ++ [mkRunner true false (sql w)]) w).
Proof. reflexivity. Qed.

Lemma orderLoader_refuses orderId : refuses otherError (orderLoader orderId).
Proof.
  unfold orderLoader. apply refuses_bind; [apply refuses_gets|].
  intros [o|]; [apply refuses_ret|refuse_other].
Qed.

Lemma deletedParticipants_none orderId s :
  participantsOf orderId (deletedParticipants orderId s) = [].
Proof.
  unfold participantsOf, deletedParticipants. simpl.
  apply filter_nil_iff, Forall_forall. by intros p [? _]%list_elem_of_filter.
Qed.

(** The ways a participant replacement can end: refused before anything
    is written; the delete-all of an empty list; the insert that stored no
    row, which leaves the order without participants and the runner open;
    or the insert committed and the runner released. *)
Lemma editOrderParticipants_outcomes orderId participants context w r w' :
  editOrderParticipants orderId participants context w = (r, w') →
  (w' = w ∧ ∃ e, r = Throw e ∧ otherError e)
  ∨ (participants = []
     ∧ sql w' = deletedParticipants orderId (sql w) ∧ runners w' = runners w
     ∧ (r = Ok [] ∨ ∃ e, r = Throw e ∧ otherError e))
  ∨ (participants ≠ [] ∧ r = Throw insertFailure
     ∧ sql w' = deletedParticipants orderId (sql w)
     ∧ runners w'
       = runners w ++ [mkRunner true false (deletedParticipants orderId (sql w))])
  ∨ (participants ≠ []
     ∧ (∃ rows,
          length rows = length participants
          ∧ Forall (λ row, OrderParticipant.orderId row = orderId) rows
          ∧ sql w'
            = withNextOid (λ n, n + Z.of_nat (length participants))
                (withOrderParticipants (λ l, l ++ rows)
                   (deletedParticipants orderId (sql w))))
     ∧ runners w'
       = runners w ++ [mkRunner false true (deletedParticipants orderId (sql w))]
     ∧ ((∃ rows, r = Ok rows) ∨ ∃ e, r = Throw e ∧ otherError e)).
Proof.
  unfold editOrderParticipants. intros Hrun.
  apply (refuses_bind_inv otherError) in Hrun as [?|[order Hrun]];
    [by left| |apply orderLoader_refuses].
  apply (refuses_bind_inv otherError) in Hrun as [?|[[] Hrun]]; [by left| |].
  2: { refuse_guard. }
  apply (refuses_bind_inv otherError) in Hrun as [?|[[] Hrun]]; [by left| |].
  2: { apply refuses_forEach. intros p. refuse_guard. }
  apply (refuses_bind_inv otherError) in Hrun as [?|[current Hrun]];
    [by left| |apply refuses_gets].
  apply (refuses_bind_inv otherError) in Hrun as [?|[[] Hrun]]; [by left| |].
  2: { match goal with |- refuses _ (if ?c then _ else _) => destruct c end;
         [|apply refuses_ret].
       destruct (findUser _) as [thisUser|]; refuse_guard. }
  apply (refuses_bind_inv otherError) in Hrun as [?|[rejected Hrun]];
    [by left| |apply refuses_gets].
  apply (refuses_bind_inv otherError) in Hrun as [?|[[] Hrun]]; [by left| |].
  2: { refuse_guard. }
  right. unfold bind at 1 in Hrun. unfold modify at 1 in Hrun.
  destruct participants as [|p participants]; simpl in Hrun.
  - left. split; [done|].
    unfold editPOMessageThread in Hrun. unfold_primitives. simpl in Hrun.
    destruct (bool_decide _); simplify_eq/=; (split; [done|]); (split; [done|]).
    + right. eexists. by split.
    + by left.
  - right. rewrite (bind_Ok _ _ _ _ _ (queryRunnerStartTransaction_run _)) in Hrun.
    match type of Hrun with
      bind (executeInsertOrderParticipants orderId ?vs) _ ?w1 = _ =>
      destruct (executeInsertOrderParticipants_run orderId vs w1)
        as [[Hfail Hins]|[Hfail (rows & Hins & Hlen & Hall)]] end;
      rewrite (bind_Ok _ _ _ _ _ Hins) in Hrun.
    + left. unfold_primitives. simpl in Hrun. simplify_eq/=. done.
    + right. destruct rows as [|row rows]; [done|].
      unfold commitTransaction, release, editPOMessageThread in Hrun.
      unfold_primitives. unfold withRunners, withSql, withCalls in Hrun. simpl in Hrun.
      rewrite !(alter_app_r_alt _ _ _ (length (runners w))), Nat.sub_diag in Hrun
        by (simpl; lia).
      simpl in Hrun.
      destruct (bool_decide _); simplify_eq/=; (split; [done|]);
        (split; [exists (row :: rows); simpl; rewrite Hlen; by repeat split|]);
        (split; [done|]).
      * right. eexists. by split.
      * left. by eexists.
Qed.

End ParticipantFacts.

Section ValidationClaims.
Context `{Collaborators}.

(** The guard of [createOrderParticipants] on an empty set of default
    approvers cannot fire: the set is built from a two-element array, and
    [undefined] is an element like any other. *)
Lemma defaultApprovers_never_empty buyerOrgId supplierOrgId participants :
  setSize (defaultApproversOf buyerOrgId supplierOrgId participants).1 ≠ 0%nat.
Proof.
  unfold defaultApproversOf.
  destruct (pickDefaultApprover (Some buyerOrgId) participants) as [first sorted].
  destruct (pickDefaultApprover supplierOrgId sorted) as [second sorted'].
  unfold setSize. simpl. case_decide; simpl; done.
Qed.

(** With a contradictory line-item payload, the first part of [editOrder]
    throws, and the only thing it can have done by then is to provide for
    the ship-to location of an integration edit. *)
Lemma editOrderPrepare_conflict input context w :
  conflictingLineItems (default noLineItems (lineItems input)) →
  let run := editOrderPrepare input context w in
  (∃ e, run.1 = Throw e)
  ∧ (run.2 = w
     ∨ ∃ shipTo order buyer,
         shipToLocation input = Some shipTo
         ∧ storedOrder (orderId input) w = Some order
         ∧ findCompany (Order.buyerId order) = Some buyer
         ∧ Company.enableLocationAutoCreate buyer = true
         ∧ checkPermissions (GraphQLContext.permissions context) [INTEGRATION] = true
         ∧ run.2
           = withCalls
               (λ l, l ++ [CallCreateOrGetLocation
                             (mkLocationInput (locationName shipTo)
                                (Some (Order.buyerId order)))]) w).
Proof.
  intros Hconflict run. subst run.
  set (Q := λ run : Result (Order.t + Routing) * World,
         (∃ e, run.1 = Throw e)
         ∧ (run.2 = w
            ∨ ∃ shipTo order buyer,
                shipToLocation input = Some shipTo
                ∧ storedOrder (orderId input) w = Some order
                ∧ findCompany (Order.buyerId order) = Some buyer
                ∧ Company.enableLocationAutoCreate buyer = true
                ∧ checkPermissions (GraphQLContext.permissions context) [INTEGRATION]
                  = true
                ∧ run.2
                  = withCalls
                      (λ l, l ++ [CallCreateOrGetLocation
                                    (mkLocationInput (locationName shipTo)
                                       (Some (Order.buyerId order)))]) w)).
  change (Q (editOrderPrepare input context w)).
  assert (∀ e, Q (Throw e, w)) as Hstop.
  { intros e. split; [by eexists|by left]. }
  assert (∀ (A : Type) (m : M A) (f : A → M (Order.t + Routing)),
            preserves unchanged m → (∀ a, Q (f a w)) → Q (bind m f w)) as Hchain.
  { intros A m f Hm Hk. unfold bind.
    destruct (m w) as [[a|e] w1] eqn:Hrun;
      pose proof (preserves_unchanged _ _ _ _ Hm Hrun) as ->; auto. }
  assert (∀ (A : Type) (m : M A) w0, rejects unchanged m → ∃ e, m w0 = (Throw e, w0))
    as Hrejected.
  { intros A m w0 Hm. destruct (Hm w0) as [[e He] Hw]. unfold unchanged, keeps in Hw.
    exists e. destruct (m w0); simpl in *; by subst. }
  unfold editOrderPrepare.
  unfold bind at 1.
  destruct (orderLoader (orderId input) w) as [[order|e] wa] eqn:Hload;
    pose proof (preserves_unchanged _ _ _ _ (orderLoader_unchanged _) Hload) as ->;
    [|apply Hstop].
  apply orderLoader_Ok in Hload as (_ & _ & Hfind).
  destruct (findCompany (Order.buyerId order)) as [buyer|] eqn:Hbuyer;
    [|exact (Hstop _)].
  rewrite (bind_Ok (ret buyer) _ w buyer w eq_refl).
  apply Hchain; [apply (preserves_gets unchanged)|intros fulfillments].
  apply Hchain.
  { destruct (negb _); [apply (preserves_throw unchanged)|apply (preserves_ret unchanged)]. }
  intros _. destruct (isOrderEditable _ _ _ _) as [isEditable message].
  apply Hchain.
  { destruct (negb _); [apply (preserves_throw unchanged)|apply (preserves_ret unchanged)]. }
  intros _.
  match goal with |- Q (bind _ ?k w) =>
    assert (∀ s, rejects unchanged (k s)) as Htail
  end.
  { intros s. cbv beta. destruct (checkPermissions _ _).
    - apply (rejects_bind_l unchanged). unfold editAndResetOrder.
      apply (rejects_bind_l unchanged). by apply checkLineItems_rejects.
    - apply (rejects_bind_r unchanged); [apply checkFieldsEditable_unchanged|].
      intros poPrefs. apply (rejects_bind_l unchanged). by apply checkLineItems_rejects. }
  match goal with |- Q (bind _ ?k w) => set (tail := k) in * end.
  destruct (negb (truthy (shippingInfoSubExtra
                            (default noShippingInformation (shippingInformation input))
                          !! "destinationId"%string))
            && checkPermissions (GraphQLContext.permissions context) [INTEGRATION]
            && Company.enableLocationAutoCreate buyer) eqn:Hmissing.
  2: { match goal with |- Q (bind (ret ?s) _ w) =>
         change (Q (tail s w)); destruct (Hrejected _ _ w (Htail s)) as [e ->]
       end.
       apply Hstop. }
  destruct (shipToLocation input) as [shipTo|] eqn:Hship.
  2: { match goal with |- Q (bind (ret ?s) _ w) =>
         change (Q (tail s w)); destruct (Hrejected _ _ w (Htail s)) as [e ->]
       end.
       apply Hstop. }
  apply andb_true_iff in Hmissing as [[_ Hint]%andb_true_iff Henabled].
  assert (∀ e, Q (Throw e,
                  withCalls
                    (λ l, l ++ [CallCreateOrGetLocation
                                  (mkLocationInput (locationName shipTo)
                                     (Some (Order.buyerId order)))]) w)) as Hlocated.
  { intros e. split; [by eexists|]. right. exists shipTo, order, buyer. done. }
  unfold bind at 1. unfold external, call, fails.
  unfold bind at 1. unfold bind at 1. unfold modify at 1. unfold bind at 1.
  unfold gets at 1. cbv beta iota.
  destruct (bool_decide (OpCreateOrGetLocation ∈ _)); [apply Hlocated|].
  unfold ret at 1. cbv beta iota. unfold ret at 1. cbv beta iota.
  match goal with |- Q (tail ?s ?w0) => destruct (Hrejected _ _ w0 (Htail s)) as [e ->] end.
  apply Hlocated.
Qed.


(** C8 (as the code validates).  A line-item payload that combines
    replace with add, edit or remove, or names one line-item id in both
    edit and remove, makes [editOrder] throw before it writes to the
    stored order, line items and participants, which are what they were.
    The world is left exactly as it was, with one exception: an
    integration edit that names a ship-to location, for a buyer with
    location auto-creation, has by then called [createOrGetLocation] for
    it; an edit without the integration permission leaves no trace at all.
    An empty proposed participant list is not a validation failure of
    [editOrderParticipants]: when the call returns, it has deleted every
    participant of the order and returns no row. *)
Theorem validation_before_mutation :
  (∀ input context w,
     conflictingLineItems (default noLineItems (lineItems input)) →
     let run := editOrder input context w in
     (∃ e, run.1 = Throw e)
     ∧ sql run.2 = sql w
     ∧ (run.2 = w
        ∨ ∃ shipTo order buyer,
            shipToLocation input = Some shipTo
            ∧ storedOrder (orderId input) w = Some order
            ∧ findCompany (Order.buyerId order) = Some buyer
            ∧ Company.enableLocationAutoCreate buyer = true
            ∧ checkPermissions (GraphQLContext.permissions context) [INTEGRATION] = true
            ∧ run.2
              = withCalls
                  (λ l, l ++ [CallCreateOrGetLocation
                                (mkLocationInput (locationName shipTo)
                                   (Some (Order.buyerId order)))]) w)
     ∧ (checkPermissions (GraphQLContext.permissions context) [INTEGRATION] = false →
        run.2 = w))
  ∧ (∀ orderId lineItems w,
       conflictingLineItems lineItems →
       ∃ message,
         checkLineItems orderId lineItems w
         = (Throw (mkError ForbiddenError message), w))
  ∧ (∀ orderId context w rows w',
       editOrderParticipants orderId [] context w = (Ok rows, w') →
       rows = [] ∧ participantsOf orderId (sql w') = []).
Proof.
  split; [|split].
  - intros input context w Hconflict run.
    destruct (editOrderPrepare_conflict input context w Hconflict) as [[e He] Hworld].
    assert (run = (Throw e, (editOrderPrepare input context w).2)) as ->.
    { subst run. unfold editOrder, bind.
      destruct (editOrderPrepare input context w) as [[a|e'] w1]; simpl in *;
        [done|congruence]. }
    cbn [fst snd]. split; [by eexists|].
    split; [by destruct Hworld as [->|(? & ? & ? & _ & _ & _ & _ & _ & ->)]|].
    split; [exact Hworld|].
    intros Hplain.
    destruct Hworld as [?|(? & ? & ? & _ & _ & _ & _ & Hint & _)]; [done|congruence].
  - intros orderId lineItems w Hconflict.
    destruct (checkLineItems_rejects orderId lineItems Hconflict w) as [[e He] Hw].
    unfold unchanged, keeps in Hw.
    destruct (checkLineItems orderId lineItems w) as [res w'] eqn:Hrun.
    simpl in *. subst.
    unfold checkLineItems in Hrun.
    assert (∀ (l : list EditOrderLineItemInput) (removes : list Id) w0 e0 w1,
              forEach l (λ editItem,
                if bool_decide (lineItemId editItem ∈ removes)
                then throw ForbiddenError "You cannot edit and remove the same line item."
                else ret tt) w0 = (Throw e0, w1) →
              errKind e0 = ForbiddenError) as Heach.
    { clear. induction l as [|x l IH]; intros removes w0 e0 w1; simpl.
      - unfold ret. intros ?. simplify_eq.
      - intros [(e & Hx & ?)|(a & w2 & _ & Hl)]%bind_inv.
        + destruct (bool_decide _); unfold throw, ret in Hx; by simplify_eq/=.
        + by apply IH in Hl. }
    apply bind_inv in Hrun as [(e' & Hthrow & ?)|(a & w1 & _ & Hrun)].
    { destruct (_ && _); unfold throw, ret in Hthrow; simplify_eq. by eexists. }
    apply bind_inv in Hrun as [(e' & Hthrow & ?)|(a' & w2 & _ & Hrun)].
    { simplify_eq. destruct (editLineItems lineItems), (removeLineItems lineItems);
        try (unfold ret in Hthrow; by simplify_eq).
      apply Heach in Hthrow. destruct e' as [kind message]. simpl in Hthrow. subst.
      by eexists. }
    unfold ret in Hrun. simplify_eq.
  - intros orderId context w rows w' Hrun.
    apply editOrderParticipants_outcomes in Hrun
      as [(_ & e & ? & _)|[(_ & Hsql & _ & [?|(e & ? & _)])
          |[(Hne & _)|(Hne & _)]]]; try done.
    simplify_eq. split; [done|]. rewrite Hsql. apply deletedParticipants_none.
Qed.

(** C10. [editOrderParticipants] deletes every participant of the order
    before the runner of the insert is opened: a runner opened by the call
    snapshots a store without participants of the order.  When the insert
    then fails, the error is thrown with the order left at zero
    participants (nothing restores the previous ones) and the runner still
    open and unreleased; an empty proposed list likewise leaves zero
    participants. *)
Theorem editOrderParticipants_not_atomic orderId participants context w r w' :
  editOrderParticipants orderId participants context w = (r, w') →
  (runners w' = runners w
   ∨ ∃ q, runners w' = runners w ++ [q]
          ∧ participantsOf orderId (snapshot q) = [])
  ∧ (r = Throw insertFailure →
     sql w' = deletedParticipants orderId (sql w)
     ∧ participantsOf orderId (sql w') = []
     ∧ ∃ q, runners w' = runners w ++ [q]
            ∧ isTransactionActive q = true ∧ isReleased q = false)
  ∧ (participants = [] → ∀ rows, r = Ok rows →
     rows = [] ∧ participantsOf orderId (sql w') = []).
Proof.
  intros Hrun.
  apply editOrderParticipants_outcomes in Hrun
    as [(-> & e & -> & He)|[(-> & Hsql & Hrunners & Hr)
        |[(Hne & -> & Hsql & Hrunners)|(Hne & _ & Hrunners & Hr)]]].
  - split; [by left|]. split.
    + intros ?. simplify_eq. by destruct He.
    + by intros _ rows ?.
  - split; [by left|]. split.
    + intros ->. destruct Hr as [?|(e & ? & He)]; [done|]. simplify_eq. by destruct He.
    + intros _ rows ->. destruct Hr as [?|(e & ? & _)]; [|done]. simplify_eq.
      split; [done|]. rewrite Hsql. apply deletedParticipants_none.
  - split; [|split].
    + right. eexists. split; [exact Hrunners|]. apply deletedParticipants_none.
    + intros _. split; [done|]. split.
      * rewrite Hsql. apply deletedParticipants_none.
      * eexists. by split.
    + by intros ->.
  - split; [|split].
    + right. eexists. split; [exact Hrunners|]. apply deletedParticipants_none.
    + intros ->. destruct Hr as [[rows ?]|(e & [= <-] & He)]; [done|].
      by destruct He.
    + by intros ->.
Qed.

End ValidationClaims.

(** A replace together with an add is refused with the world untouched;
    an administrator's empty participant list deletes the three
    participants of order 1. *)
Lemma validation_before_mutation_witness :
  ((∃ e, (editOrder (H := Demo.collaborators) Demo.editConflictingItems Demo.context
            Demo.world).1 = Throw e)
   ∧ (editOrder (H := Demo.collaborators) Demo.editConflictingItems Demo.context
        Demo.world).2 = Demo.world)
  ∧ participantsOf 1
      (sql (editOrderParticipants (H := Demo.collaborators) 1 [] Demo.adminContext
              Demo.world).2) = [].
Proof.
  destruct (validation_before_mutation (H := Demo.collaborators)) as (Hedit & _ & Hempty).
  split.
  - destruct (Hedit Demo.editConflictingItems Demo.context Demo.world)
      as (Hthrows & _ & _ & Hplain).
    { left. split; [by eexists|]. left. by eexists. }
    split; [exact Hthrows|]. apply Hplain. reflexivity.
  - destruct (editOrderParticipants (H := Demo.collaborators) 1 [] Demo.adminContext
                Demo.world) as [[rows|e] w'] eqn:Hrun; [|by vm_compute in Hrun].
    by destruct (Hempty _ _ _ _ _ Hrun).
Defined.

(** The claim as worded fails twice.  The empty participant list raises
    no error, and the stored participants of order 1 are gone.  And the
    integration edit of order 3 with contradictory line items is refused
    only after [createOrGetLocation] was called for its ship-to
    location. *)
Lemma validation_not_before_mutation_counterexample :
  let emptied :=
    editOrderParticipants (H := Demo.collaborators) 1 [] Demo.adminContext Demo.world in
  let refused :=
    editOrder (H := Demo.collaborators) Demo.editUnknownLocation Demo.integrationContext
      Demo.integrationWorld in
  emptied.1 = Ok []
  ∧ length (participantsOf 1 (sql Demo.world)) = 3%nat
  ∧ participantsOf 1 (sql emptied.2) = []
  ∧ refused.1
    = Throw (mkError ForbiddenError "You cannot replace and add/edit/remove line items.")
  ∧ calls Demo.integrationWorld = []
  ∧ calls refused.2 = [CallCreateOrGetLocation (mkLocationInput "Dock 4" (Some 101))].
Proof. vm_compute. repeat split; reflexivity. Qed.

(** The insert of the replacement fails after the delete: order 1 is left
    without participants and the runner is never released. *)
Lemma editOrderParticipants_not_atomic_witness :
  let w := Demo.failingOn OpInsertOrderParticipants Demo.world in
  let run :=
    editOrderParticipants (H := Demo.collaborators) 1 [Guard.mkPick 9 true]
      Demo.adminContext w in
  length (participantsOf 1 (sql w)) = 3%nat
  ∧ run.1 = Throw insertFailure
  ∧ participantsOf 1 (sql run.2) = []
  ∧ ∃ q, runners run.2 = runners w ++ [q]
         ∧ isTransactionActive q = true ∧ isReleased q = false.
Proof.
  intros w run.
  assert (run.1 = Throw insertFailure) as Hthrow by (vm_compute; reflexivity).
  destruct (editOrderParticipants_not_atomic (H := Demo.collaborators) 1
              [Guard.mkPick 9 true] Demo.adminContext w run.1 run.2)
    as (_ & Hfail & _); [apply surjective_pairing|].
  destruct (Hfail Hthrow) as (_ & Hnone & Hrunner).
  split; [vm_compute; reflexivity|]. split; [exact Hthrow|]. split; [exact Hnone|].
  exact Hrunner.
Defined.

Section TransactionFacts.
Context `{Collaborators}.

Lemma insertOrderParticipants_runners orderId values :
  preserves (keeps runners) (insertOrderParticipants orderId values).
Proof.
  induction values; simpl; unfold freshOid; frame_with ltac:(unfold keeps; done).
Qed.
Local Hint Resolve insertOrderParticipants_runners : frame.



End TransactionFacts.



(** * Further properties of the resolvers *)

Section LineItemFacts.
Context `{Collaborators}.

Lemma errorObjectType_unchanged response w : (errorObjectType response w).2 = w.
Proof. unfold errorObjectType. by repeat case_match. Qed.

(** One step of the loop of [handleErrors]: a response passes when it is
    neither an insert nor an update result, or its [raw] is a non-empty
    array. *)
Lemma handleErrors_pass response responses w :
  kind response = OtherResult ∨ noRows response = false →
  handleErrors (response :: responses) w = handleErrors responses w.
Proof.
  intros Hpass. unfold handleErrors. simpl. unfold bind at 1.
  destruct response as [[] raw]; simpl in *;
    destruct Hpass as [?|Hrows]; try done; by rewrite Hrows.
Qed.

(** Any other response stops the loop with an error. *)
Lemma handleErrors_stop response responses w :
  kind response ≠ OtherResult → noRows response = true →
  ∃ e, handleErrors (response :: responses) w = (Throw e, w)
       ∧ match raw response with
         | RawObject (Some _) => errKind e = ForbiddenError
         | _ => errKind e = TypeError
         end.
Proof.
  intros Hkind Hrows. unfold handleErrors. simpl. unfold bind at 1.
  destruct response as [[] [[|row rows]|[columns|]]]; simpl in *; try done;
    unfold errorObjectType, bind, ret, throw; simpl; by eexists.
Qed.

Lemma passes_or_stops response :
  (kind response = OtherResult ∨ noRows response = false)
  ∨ (kind response ≠ OtherResult ∧ noRows response = true).
Proof. destruct response as [[] raw]; destruct (noRows _) eqn:?; simpl; auto. Qed.

Lemma handleErrors_unchanged responses w : (handleErrors responses w).2 = w.
Proof.
  induction responses as [|response responses IH]; [done|].
  destruct (passes_or_stops response) as [Hpass|[Hkind Hrows]].
  - by rewrite handleErrors_pass.
  - by destruct (handleErrors_stop response responses w Hkind Hrows) as (e & -> & _).
Qed.

(** X1. [handleErrors] writes nothing, and it returns exactly when every
    insert or update result among the responses has a non-empty array as
    its [raw]. *)
Theorem handleErrors_returns responses w :
  (handleErrors responses w).2 = w
  ∧ ((handleErrors responses w).1 = Ok tt
     ↔ Forall (λ response, kind response = OtherResult ∨ noRows response = false)
         responses).
Proof.
  induction responses as [|response responses [IHw IHr]].
  { split; [done|]. split; [by constructor|done]. }
  destruct (passes_or_stops response) as [Hpass|[Hkind Hrows]].
  - rewrite handleErrors_pass by done. split; [done|].
    rewrite IHr, Forall_cons. tauto.
  - destruct (handleErrors_stop response responses w Hkind Hrows) as (e & -> & _).
    split; [done|]. split; [done|].
    intros [[?|?] _]%Forall_cons; congruence.
Qed.


End LineItemFacts.


Section GuardLoops.
Context `{Collaborators}.

Lemma forEach_ext {A} (l : list A) (f g : A → M unit) :
  (∀ x, f x = g x) → forEach l f = forEach l g.
Proof. intros Hfg. induction l as [|x l IH]; simpl; [done|]. by rewrite Hfg, IH. Qed.

(** A loop of guards that throw or pass returns exactly when no element
    trips its guard, and writes nothing either way. *)
Lemma forEach_guard {A} (l : list A) (guard : A → bool) kind (message : A → string) w :
  (forEach l (λ x, if guard x then throw kind (message x) else ret tt) w).2 = w
  ∧ ((forEach l (λ x, if guard x then throw kind (message x) else ret tt) w).1 = Ok tt
     ↔ Forall (λ x, guard x = false) l).
Proof.
  induction l as [|x l [IHw IHr]]; simpl.
  { split; [done|]. split; [by constructor|done]. }
  unfold bind at 1. rewrite Forall_cons. destruct (guard x); simpl.
  - split; [done|]. split; [done|]. by intros [? _].
  - split; [done|]. rewrite IHr. tauto.
Qed.

(** X3. [checkLineItems] accepts exactly the payloads that are not
    contradictory, and then it has written nothing. *)
Theorem checkLineItems_accepts orderId lineItems w :
  checkLineItems orderId lineItems w = (Ok tt, w) ↔ ¬ conflictingLineItems lineItems.
Proof.
  split.
  - intros Hrun Hconflict.
    destruct (checkLineItems_rejects orderId lineItems Hconflict w) as [[e He] _].
    rewrite Hrun in He. done.
  - intros Hfine. unfold checkLineItems.
    destruct (present (replaceLineItems lineItems)
              && (present (addLineItems lineItems) || present (editLineItems lineItems)
                  || present (removeLineItems lineItems))) eqn:Hreplace.
    { destruct Hfine. left.
      apply andb_true_iff in Hreplace as [?%present_true Hany]. split; [done|].
      rewrite !orb_true_iff, !present_true in Hany. tauto. }
    unfold bind at 1. simpl. unfold bind at 1.
    destruct (editLineItems lineItems) as [edits|] eqn:Hedits;
      destruct (removeLineItems lineItems) as [removes|] eqn:Hremoves; try done.
    pose proof (forEach_guard edits
      (λ editItem, bool_decide (lineItemId editItem ∈ removes)) ForbiddenError
      (λ _, "You cannot edit and remove the same line item."%string) w) as [Hw Hr].
    destruct (forEach edits _ w) as [[[]|e] w1]; simpl in *; subst.
    + done.
    + assert (Throw e = Ok tt) as Hokay; [|done].
      apply Hr, Forall_forall. intros editItem Hin.
      apply bool_decide_eq_false. intros Hboth. destruct Hfine. right.
      by exists edits, removes, editItem.
Qed.

(** The entries visited are those of the object, whatever their order. *)
Lemma elem_of_entriesOf {A} (o : gmap string A) key value :
  (key, value) ∈ entriesOf o ↔ o !! key = Some value.
Proof.
  unfold entriesOf, arrangedBy.
  rewrite (@merge_sort_Permutation _ (rankedBefore (λ kv : string * A, keyPlace kv.1)) _
             (map_to_list o)).
  apply elem_of_map_to_list.
Qed.

(** The loop of [checkFieldsEditable] is a loop of guards: an entry trips
    its guard when lodash [isEmpty] does not call it empty, its key is an
    order key, and the key is not configured as editable. *)
Lemma checkFieldsEditable_loop userId orgId buyerOrgId editFields :
  let poPrefs := getPreferences userId orgId buyerOrgId ≫= purchaseOrder in
  checkFieldsEditable userId orgId buyerOrgId editFields
  = (forEach (entriesOf editFields)
       (λ kv, if negb (isEmptyParam (Some kv.2)) && isEditOrderKey kv.1
                 && negb (default false
                            (getFieldConfig (poPrefs ≫= λ p, headerFields p !! kv.1)
                               EDIT))
              then throw ForbiddenError
                     ("User does not have permission to edit field " +:+ kv.1)
              else ret tt) >>
     ret poPrefs).
Proof.
  intros poPrefs. unfold checkFieldsEditable. fold poPrefs. f_equal.
  apply forEach_ext. intros [key value]. cbn [fst snd].
  by destruct (negb (isEmptyParam (Some value)) && isEditOrderKey key),
    (negb (default false _)).
Qed.

(** X4. [checkFieldsEditable] writes nothing, and it passes exactly when
    every entry of the payload that lodash [isEmpty] does not call empty,
    and whose key is an order key, is configured as editable.  What it
    returns is then the purchase-order preferences. *)
Theorem checkFieldsEditable_passes userId orgId buyerOrgId editFields w :
  let poPrefs := getPreferences userId orgId buyerOrgId ≫= purchaseOrder in
  (checkFieldsEditable userId orgId buyerOrgId editFields w).2 = w
  ∧ ((checkFieldsEditable userId orgId buyerOrgId editFields w).1 = Ok poPrefs
     ↔ ∀ key value,
         editFields !! key = Some value →
         isEmptyParam (Some value) = false → isEditOrderKey key = true →
         default false (getFieldConfig (poPrefs ≫= λ p, headerFields p !! key) EDIT)
         = true).
Proof.
  intros poPrefs. rewrite checkFieldsEditable_loop. fold poPrefs.
  match goal with |- context [forEach ?l (λ kv, if @?g kv then _ else _)] =>
    pose proof (forEach_guard l g ForbiddenError
      (λ kv, "User does not have permission to edit field " +:+ kv.1) w) as [Hw Hr]
  end.
  unfold bind.
  destruct (forEach (entriesOf editFields) _ w) as [[[]|e] w1]; cbn [fst snd] in *; subst.
  - split; [done|]. split; [intros _|done].
    intros key value Hkey Hfull Horder.
    destruct Hr as [Hr _]. specialize (Hr eq_refl).
    rewrite Forall_forall in Hr.
    specialize (Hr (key, value)). cbn [fst snd] in Hr.
    rewrite Hfull, Horder in Hr. cbn [negb andb] in Hr.
    apply negb_false_iff, Hr. by apply elem_of_entriesOf.
  - split; [done|]. split; [done|]. intros Hall.
    assert (Throw e = Ok tt) as Hokay; [|done].
    apply Hr, Forall_forall. intros [key value] Hin%elem_of_entriesOf. cbn [fst snd].
    destruct (isEmptyParam (Some value)) eqn:Hfull; [done|].
    destruct (isEditOrderKey key) eqn:Horder; [|done]. cbn [negb andb].
    by rewrite (Hall key value Hin Hfull Horder).
Qed.

(** X5. A payload whose values are numbers, booleans or null passes
    [checkFieldsEditable] whatever the preferences say: lodash [isEmpty]
    calls every such value empty, and the permission of its field is not
    looked at. *)
Theorem checkFieldsEditable_skips_primitives userId orgId buyerOrgId editFields w :
  (∀ key value, editFields !! key = Some value →
     ∃ v, value = PScalar v ∧ ∀ s, v ≠ VStr s) →
  checkFieldsEditable userId orgId buyerOrgId editFields w
  = (Ok (getPreferences userId orgId buyerOrgId ≫= purchaseOrder), w).
Proof.
  intros Hprimitive. rewrite checkFieldsEditable_loop.
  match goal with |- context [forEach ?l (λ kv, if @?g kv then _ else _)] =>
    pose proof (forEach_guard l g ForbiddenError
      (λ kv, "User does not have permission to edit field " +:+ kv.1) w) as [Hw Hr]
  end.
  unfold bind.
  destruct (forEach (entriesOf editFields) _ w) as [[[]|e] w1]; cbn [fst snd] in *; subst;
    [done|].
  assert (Throw e = Ok tt) as Hokay; [|done].
  apply Hr, Forall_forall. intros [key value] Hin%elem_of_entriesOf. cbn [fst snd].
  destruct (Hprimitive key value Hin) as (v & -> & Hv).
  destruct v; try done. by destruct (Hv s).
Qed.

End GuardLoops.

(** A boolean shipping flag is not looked at by the permission check. *)
Lemma checkFieldsEditable_skips_primitives_witness :
  checkFieldsEditable (H := Demo.collaborators) 7 100 100
    {[ "hotFlag"%string := PScalar (VBool true) ]} Demo.world
  = (Ok (getPreferences (Collaborators := Demo.collaborators) 7 100 100 ≫= purchaseOrder),
     Demo.world).
Proof.
  apply (checkFieldsEditable_skips_primitives (H := Demo.collaborators)).
  intros key value [_ <-]%lookup_singleton_Some. by eexists.
Defined.

Section StatusFacts.
Context `{Collaborators}.

(** X6. When [editOrderStatus] returns, the order it returns is the order
    asked for, now in the requested status; and a cancellation only gets
    there when [canOrderBeCancelled] answered true. *)
Theorem editOrderStatus_completes orderId orderStatusId context w order' w' :
  editOrderStatus orderId orderStatusId context w = (Ok order', w') →
  Order.id order' = orderId
  ∧ Order.orderStatusId order' = orderStatusId
  ∧ (orderStatusId = getStatusId "Canceled" "OrderStatus" →
     canOrderBeCancelled orderId w = (Ok true, w)).
Proof.
  unfold editOrderStatus. intros Hrun. inv_binds Hrun.
  apply orderLoader_Ok in Hrun0 as (-> & _ & _).
  assert (a2 !! "orderStatusId"%string = None) as Hkey.
  { clear -Hrun3.
    destruct (_ && _); [|unfold ret in Hrun3; injection Hrun3 as <- _; apply lookup_empty].
    inv_binds Hrun3. destruct (negb _); [unfold throw in Hrun3; by simplify_eq/=|].
    inv_binds Hrun3. unfold ret in Hrun3. injection Hrun3 as <- _.
    by apply lookup_singleton_ne. }
  destruct a3. apply updateOrder_Ok in Hrun4 as (Horders & _).
  apply orderLoader_Ok in Hrun as (-> & Hid & Hfind).
  split; [done|]. split.
  - rewrite Horders in Hfind. unfold applyTo in Hfind.
    rewrite find_order_map in Hfind
      by (intros o; by destruct (bool_decide (Order.id o = orderId))).
    destruct (find _ (orders (sql w3))) as [o|]; [|done]. simpl in Hfind.
    injection Hfind as <-.
    destruct (bool_decide (Order.id o = orderId)) eqn:Ho.
    + simpl. unfold spread. by rewrite lookup_union_r, lookup_singleton_eq.
    + by apply bool_decide_eq_false in Ho.
  - intros ->. rewrite bool_decide_eq_true_2 in Hrun1 by done.
    apply bind_inv_Ok in Hrun1 as (available & w5 & Hcheck & Hguard).
    pose proof (preserves_unchanged _ _ _ _
                  (canOrderBeCancelled_unchanged orderId) Hcheck) as ->.
    destruct available; [done|]. unfold throw in Hguard. by simplify_eq/=.
Qed.

(** X7. Accepting an order that is not yet accepted is refused while the
    readiness check reports errors: the status change throws a Forbidden
    error that lists them, and nothing has been written. *)
Theorem editOrderStatus_accept_gate orderId context w order :
  let acceptedStatusId := getStatusId "Accepted" "OrderStatus" in
  let readyForBookingErrors := orderReadyForBookingErrors (sql w) order in
  orderLoader orderId w = (Ok order, w) →
  acceptedStatusId ≠ getStatusId "Canceled" "OrderStatus" →
  acceptedStatusId ≠ getStatusId "Rejected" "OrderStatus" →
  Order.orderStatusId order ≠ acceptedStatusId →
  readyForBookingErrors ≠ [] →
  editOrderStatus orderId acceptedStatusId context w
  = (Throw (mkError ForbiddenError (String.concat ", " readyForBookingErrors)), w).
Proof.
  intros accepted errors Hload Hcancel Hreject Hstatus Herrors.
  unfold editOrderStatus. fold accepted.
  rewrite (bind_Ok _ _ _ _ _ Hload).
  rewrite (bool_decide_eq_false_2 (accepted = getStatusId "Canceled" "OrderStatus"))
    by done.
  rewrite (bool_decide_eq_false_2 (accepted = getStatusId "Rejected" "OrderStatus"))
    by done.
  rewrite (bool_decide_eq_true_2 (accepted = accepted)) by done.
  rewrite (bool_decide_eq_true_2 (Order.orderStatusId order ≠ accepted)) by done.
  unfold when, bind, ret, gets, throw. simpl. fold errors.
  by destruct errors.
Qed.

End StatusFacts.

(** Order 1 has no booking record: its cancellation goes through. *)
Lemma editOrderStatus_completes_witness :
  ∃ order' w',
    editOrderStatus (H := Demo.collaborators) 1 4 Demo.context Demo.world = (Ok order', w')
    ∧ Order.id order' = 1 ∧ Order.orderStatusId order' = 4.
Proof.
  destruct (editOrderStatus (H := Demo.collaborators) 1 4 Demo.context Demo.world)
    as [[order'|e] w'] eqn:Hrun; [|by vm_compute in Hrun].
  exists order', w'. split; [reflexivity|].
  destruct (editOrderStatus_completes (H := Demo.collaborators) 1 4 Demo.context
              Demo.world order' w' Hrun) as (Hid & Hstatus & _).
  split; [exact Hid|exact Hstatus].
Defined.

(** The received order 2 cannot be accepted while two readiness errors
    are reported. *)
Lemma editOrderStatus_accept_gate_witness :
  editOrderStatus (H := Demo.strict) 2 3 Demo.context Demo.receivedWorld
  = (Throw (mkError ForbiddenError "Missing cargo ready date, Missing line items"),
     Demo.receivedWorld).
Proof.
  apply (editOrderStatus_accept_gate (H := Demo.strict) 2 Demo.context
           Demo.receivedWorld Demo.receivedOrder); by vm_compute.
Defined.

Section RouterExtras.
Context `{Collaborators}.

(** X8. An edit made with the integration permission never takes the
    change-control path: whatever the payload, the order status and the
    preferences, and whether the call returns or throws, the
    change-request table is what it was. *)
Theorem editOrder_integration_no_change_request input context w :
  checkPermissions (GraphQLContext.permissions context) [INTEGRATION] = true →
  orderChangeRequests (sql (editOrder input context w).2) = orderChangeRequests (sql w).
Proof.
  intros Hintegration. unfold editOrder, bind.
  pose proof (editOrderPrepare_requestFrame input context w) as [[Hframe _] _].
  destruct (editOrderPrepare input context w) as [[[updatedOrder|r]|e] w1] eqn:Hprepare;
    simpl in *; try exact Hframe.
  apply editOrderPrepare_inr in Hprepare as [Hplain _]. congruence.
Qed.

(** X9. The readiness reset of a submission is not undone when the
    change-request insert stores no row: [invokeChangeControl] throws the
    Forbidden error of the insert, no change request exists, and the order
    is left marked not ready for booking. *)
Theorem invokeChangeControl_insert_failure order author orgId lineItems shipping note
    extraData w :
  OpUpdateOrder ∉ failing w →
  OpInsertOrderChangeRequest ∈ failing w →
  let run :=
    invokeChangeControl order (Some author) orgId lineItems shipping note extraData w in
  run.1 = Throw (mkError ForbiddenError "Failed to create order change request")
  ∧ orders (sql run.2) = markNotReady (Order.id order) (orders (sql w))
  ∧ orderChangeRequests (sql run.2) = orderChangeRequests (sql w).
Proof.
  intros Hupdate Hinsert. unfold invokeChangeControl, readChangeRequestNumber, storeChangeRequest.
  unfold_primitives. simpl.
  rewrite (bool_decide_eq_false_2 (OpUpdateOrder ∈ failing w)) by done. simpl.
  rewrite (bool_decide_eq_true_2 (OpInsertOrderChangeRequest ∈ failing w)) by done.
  simpl. split; [done|]. split; [|done].
  unfold markNotReady. by setoid_rewrite applyFields_not_ready.
Qed.

End RouterExtras.

(** An integration edit of a change-controlled field of the accepted
    order 1 stores no change request. *)
Lemma editOrder_integration_no_change_request_witness :
  orderChangeRequests
    (sql (editOrder (H := Demo.collaborators) Demo.editDestination
            (GraphQLContext.mk 100 7 [INTEGRATION]) Demo.world).2)
  = orderChangeRequests (sql Demo.world).
Proof.
  apply (editOrder_integration_no_change_request (H := Demo.collaborators)).
  reflexivity.
Defined.

(** The change-request insert of an edit of order 1 stores no row: the
    order, ready before, is left not ready. *)
Lemma invokeChangeControl_insert_failure_witness :
  let w := Demo.failingOn OpInsertOrderChangeRequest Demo.world in
  let run :=
    invokeChangeControl (H := Demo.collaborators) Demo.order (Some (User.mk 7 100)) 100
      noLineItems {[ "destinationId"%string := VNum 6 ]} None None w in
  Order.isReadyForBooking <$> orders (sql w) = [true]
  ∧ run.1 = Throw (mkError ForbiddenError "Failed to create order change request")
  ∧ Order.isReadyForBooking <$> orders (sql run.2) = [false].
Proof.
  intros w run.
  destruct (invokeChangeControl_insert_failure (H := Demo.collaborators) Demo.order
              (User.mk 7 100) 100 noLineItems {[ "destinationId"%string := VNum 6 ]}
              None None w) as (Hthrow & Horders & _).
  - simpl. by intros [?|[]%elem_of_nil]%elem_of_cons.
  - simpl. by left.
  - split; [reflexivity|]. split; [exact Hthrow|].
    fold run in Horders. rewrite Horders. reflexivity.
Defined.

Section ParticipantExtras.
Context `{Collaborators}.

Lemma guard_inv (c : bool) kind message w (r : Result unit) w' :
  (if c then throw kind message else ret tt) w = (r, w') →
  w' = w ∧ ((c = true ∧ r = Throw (mkError kind message)) ∨ (c = false ∧ r = Ok tt)).
Proof. destruct c; unfold throw, ret; intros [= <- <-]; split; auto. Qed.

(** The rows an insert of participants returns are the proposed entries,
    in order, attached to the order. *)
Lemma insertOrderParticipants_picks orderId values w rows w' :
  insertOrderParticipants orderId values w = (Ok rows, w') →
  pickOf <$> rows = values.
Proof.
  revert w rows w'. induction values as [|[user flag] values IH]; intros w rows w'; simpl.
  - unfold ret. by intros [= <- _].
  - intros Hrun. inv_binds Hrun. unfold ret in Hrun. injection Hrun as <- _.
    simpl. f_equal. by eapply IH.
Qed.

(** A call of [editOrderParticipants] that changes anything has passed
    every check, and continues from the store without the participants of
    the order. *)
Lemma editOrderParticipants_past_checks orderId participants context w r w' :
  editOrderParticipants orderId participants context w = (r, w') → w' ≠ w →
  let isIntegration :=
    checkPermissions (GraphQLContext.permissions context) [INTEGRATION] in
  ∃ order,
    orderLoader orderId w = (Ok order, w)
    ∧ (isUserInAssociatedCompany order (findUser (GraphQLContext.userId context)) = true
       ∨ isIntegration = true)
    ∧ Forall (λ p, isUserInAssociatedCompany order (findUser (Guard.userId p)) = true
                   ∨ isIntegration = true) participants
    ∧ (checkPermissions (GraphQLContext.permissions context) [ADMIN; STAFF] = true
       ∨ isIntegration = true
       ∨ (∃ thisUser,
            findUser (GraphQLContext.userId context) = Some thisUser
            ∧ Guard.isAllowedToEditParticipants
                (pickOf <$> participantsOf orderId (sql w)) participants
                (User.id thisUser) = true)
       ∨ (findUser (GraphQLContext.userId context) = None
          ∧ ∀ p, p ∈ participantsOf orderId (sql w) →
                 OrderParticipant.approvalIsRequired p = false))
    ∧ (if (length participants <? 1)%nat then
         editPOMessageThread orderId >> ret []
       else
         let! qr := queryRunnerStartTransaction in
         let! inserted := executeInsertOrderParticipants orderId participants in
         (if isEmptyList inserted then throw ApolloError "Failed to create participants"
          else ret tt) >>
         commitTransaction qr >>
         release qr >>
         editPOMessageThread orderId >>
         gets (λ w, filter (λ p, OrderParticipant.id p ∈ (OrderParticipant.id <$> inserted))
                      (orderParticipants (sql w))))
        (withSql (deletedParticipants orderId) w) = (r, w').
Proof.
  intros Hrun Hchanged isIntegration. unfold editOrderParticipants in Hrun.
  fold isIntegration in Hrun.
  apply bind_inv in Hrun as [(e & Hload & _)|(order & w1 & Hload & Hrun)].
  { destruct Hchanged.
    by apply (preserves_unchanged _ _ _ _ (orderLoader_unchanged orderId) Hload). }
  pose proof (preserves_unchanged _ _ _ _ (orderLoader_unchanged orderId) Hload) as ->.
  exists order. split; [done|].
  apply bind_inv in Hrun as [(e & Hguard & _)|([] & w1 & Hguard & Hrun)];
    apply guard_inv in Hguard as [-> Hguard]; [done|].
  destruct Hguard as [[_ [=]]|[Hassociated _]].
  split.
  { apply andb_false_iff in Hassociated as [?%negb_false_iff|?%negb_false_iff]; auto. }
  pose proof (forEach_guard participants
    (λ p, negb (isUserInAssociatedCompany order (findUser (Guard.userId p)))
          && negb isIntegration)
    ForbiddenError (λ _, "Unauthorized participant"%string) w) as [Hsame Hall].
  apply bind_inv in Hrun as [(e & Heach & _)|([] & w1 & Heach & Hrun)];
    cbv zeta in Heach; rewrite Heach in Hsame, Hall; simpl in Hsame; subst; [done|].
  split.
  { destruct Hall as [Hall _]. specialize (Hall eq_refl).
    eapply Forall_impl; [exact Hall|]. simpl.
    intros p [?%negb_false_iff|?%negb_false_iff]%andb_false_iff; auto. }
  apply bind_inv in Hrun as [(e & Hgets & _)|(current & w1 & Hgets & Hrun)];
    unfold gets in Hgets; [done|]. injection Hgets as <- <-.
  apply bind_inv in Hrun as [(e & Hguard & ->)|([] & w1 & Hguard & Hrun)].
  { destruct Hchanged.
    destruct (negb (checkPermissions _ [ADMIN; STAFF]) && negb isIntegration);
      [|unfold ret in Hguard; by simplify_eq].
    destruct (findUser _); by apply guard_inv in Hguard as [-> _]. }
  assert (w1 = w
          ∧ (checkPermissions (GraphQLContext.permissions context) [ADMIN; STAFF] = true
             ∨ isIntegration = true
             ∨ (∃ thisUser,
                  findUser (GraphQLContext.userId context) = Some thisUser
                  ∧ Guard.isAllowedToEditParticipants
                      (pickOf <$> participantsOf orderId (sql w)) participants
                      (User.id thisUser) = true)
             ∨ (findUser (GraphQLContext.userId context) = None
                ∧ ∀ p, p ∈ participantsOf orderId (sql w) →
                       OrderParticipant.approvalIsRequired p = false)))
    as [-> Hallowed].
  { destruct (negb (checkPermissions _ [ADMIN; STAFF]) && negb isIntegration) eqn:Hplain.
    - destruct (findUser (GraphQLContext.userId context)) as [thisUser|] eqn:Huser.
      + apply guard_inv in Hguard as [-> [[_ [=]]|[Hok%negb_false_iff _]]].
        split; [done|]. right. right. left. by exists thisUser.
      + apply guard_inv in Hguard as [-> [[_ [=]]|[Hnone _]]].
        split; [done|]. right. right. right. split; [done|].
        intros p Hp. by apply (proj1 (existsb_false_iff _ _) Hnone).
    - unfold ret in Hguard. simplify_eq. split; [done|].
      apply andb_false_iff in Hplain as [?%negb_false_iff|?%negb_false_iff]; auto. }
  split; [exact Hallowed|].
  apply bind_inv in Hrun as [(e & Hgets & _)|(rejected & w1 & Hgets & Hrun)];
    unfold fails, gets in Hgets; [done|]. injection Hgets as <- <-.
  apply bind_inv in Hrun as [(e & Hfail & _)|([] & w1 & Hfail & Hrun)];
    apply guard_inv in Hfail as [-> Hfail]; [done|].
  apply bind_inv in Hrun as [(e & Hdelete & _)|([] & w1 & Hdelete & Hrun)];
    unfold modify in Hdelete; [done|]. injection Hdelete as <-.
  exact Hrun.
Qed.

(** X10. [editOrderParticipants] changes something only for a call that
    passed its checks: the caller belongs to a company associated with
    the order, so does every proposed participant (or the call is an
    integration's), and the caller is admin or staff, an integration, a
    user for whom [isAllowedToEditParticipants] accepts the change from
    the stored participants of the order to the proposed ones, or a
    caller without a user row while no stored participant of the order
    requires approval (the guard then never reads the user). *)
Theorem editOrderParticipants_authorized orderId participants context w r w' :
  editOrderParticipants orderId participants context w = (r, w') → w' ≠ w →
  let isIntegration :=
    checkPermissions (GraphQLContext.permissions context) [INTEGRATION] in
  ∃ order,
    orderLoader orderId w = (Ok order, w)
    ∧ (isUserInAssociatedCompany order (findUser (GraphQLContext.userId context)) = true
       ∨ isIntegration = true)
    ∧ Forall (λ p, isUserInAssociatedCompany order (findUser (Guard.userId p)) = true
                   ∨ isIntegration = true) participants
    ∧ (checkPermissions (GraphQLContext.permissions context) [ADMIN; STAFF] = true
       ∨ isIntegration = true
       ∨ (∃ thisUser,
            findUser (GraphQLContext.userId context) = Some thisUser
            ∧ Guard.isAllowedToEditParticipants
                (pickOf <$> participantsOf orderId (sql w)) participants
                (User.id thisUser) = true)
       ∨ (findUser (GraphQLContext.userId context) = None
          ∧ ∀ p, p ∈ participantsOf orderId (sql w) →
                 OrderParticipant.approvalIsRequired p = false)).
Proof.
  intros Hrun Hchanged isIntegration.
  destruct (editOrderParticipants_past_checks _ _ _ _ _ _ Hrun Hchanged)
    as (order & Hload & Huser & Hall & Hallowed & _).
  by exists order.
Qed.

(** X11. A replacement by a non-empty list that returns leaves the order
    with exactly the proposed participants, in the proposed order. *)
Theorem editOrderParticipants_replaces orderId participants context w rows w' :
  participants ≠ [] →
  editOrderParticipants orderId participants context w = (Ok rows, w') →
  pickOf <$> participantsOf orderId (sql w') = participants.
Proof.
  intros Hne Hrun.
  assert (w' ≠ w) as Hchanged.
  { pose proof Hrun as Hout. apply editOrderParticipants_outcomes in Hout
      as [(_ & e & ? & _)|[(? & _)|[(_ & ? & _)|(_ & _ & Hrunners & _)]]]; try done.
    intros ->. apply (f_equal length) in Hrunners.
    rewrite length_app in Hrunners. simpl in Hrunners. lia. }
  destruct (editOrderParticipants_past_checks _ _ _ _ _ _ Hrun Hchanged)
    as (order & _ & _ & _ & _ & Hrest).
  clear Hrun. destruct participants as [|p participants]; [done|].
  simpl in Hrest.
  rewrite (bind_Ok _ _ _ _ _ (queryRunnerStartTransaction_run _)) in Hrest.
  apply bind_inv_Ok in Hrest as (inserted & w1 & Hinsert & Hrest).
  apply bind_inv_Ok in Hrest as ([] & w2 & Hguard & Hrest).
  apply guard_inv in Hguard as [-> [[_ [=]]|[Hrows _]]].
  unfold executeInsertOrderParticipants in Hinsert.
  apply bind_inv_Ok in Hinsert as (noRow & w2 & Hfails & Hinsert).
  unfold fails, gets in Hfails. injection Hfails as <- <-.
  destruct (bool_decide (OpInsertOrderParticipants ∈ _)).
  { unfold ret in Hinsert. by simplify_eq. }
  pose proof (insertOrderParticipants_picks _ _ _ _ _ Hinsert) as Hpicks.
  match type of Hinsert with insertOrderParticipants _ _ ?w0 = _ =>
    destruct (insertOrderParticipants_run orderId (p :: participants) w0)
      as (rows' & Hrun' & _ & Hall)
  end.
  rewrite Hrun' in Hinsert. injection Hinsert as <- <-.
  assert (sql w' = withNextOid (λ n, n + Z.of_nat (length (p :: participants)))
                     (withOrderParticipants (λ l, l ++ rows')
                        (deletedParticipants orderId (sql w)))) as ->.
  { clear -Hrest. unfold commitTransaction, release, editPOMessageThread in Hrest.
    unfold_primitives. simpl in Hrest.
    destruct (bool_decide _); by simplify_eq/=. }
  rewrite <- Hpicks. f_equal. unfold participantsOf. simpl.
  rewrite filter_app.
  pose proof (deletedParticipants_none orderId (sql w)) as Hnone.
  unfold participantsOf in Hnone. simpl in Hnone. rewrite Hnone. simpl.
  clear -Hall. induction Hall as [|row l Hrow _ IH]; [done|].
  rewrite filter_cons_True by done. by rewrite IH.
Qed.

(** X12. Whatever it is given and however it ends, [editOrderParticipants]
    leaves the participants of every other order, and every table other
    than the participant table, as they were. *)
Theorem editOrderParticipants_other_orders orderId participants context w :
  let s' := sql (editOrderParticipants orderId participants context w).2 in
  filter (λ p, OrderParticipant.orderId p ≠ orderId) (orderParticipants s')
  = filter (λ p, OrderParticipant.orderId p ≠ orderId) (orderParticipants (sql w))
  ∧ orders s' = orders (sql w)
  ∧ orderLineItems s' = orderLineItems (sql w)
  ∧ orderChangeRequests s' = orderChangeRequests (sql w)
  ∧ orderChangeReviews s' = orderChangeReviews (sql w)
  ∧ orderChangeRequestLineItems s' = orderChangeRequestLineItems (sql w)
  ∧ extraDataRows s' = extraDataRows (sql w).
Proof.
  intros s'. subst s'.
  destruct (editOrderParticipants orderId participants context w) as [r w'] eqn:Hrun.
  cbn [snd].
  assert (filter (λ p, OrderParticipant.orderId p ≠ orderId)
            (orderParticipants (deletedParticipants orderId (sql w)))
          = filter (λ p, OrderParticipant.orderId p ≠ orderId)
              (orderParticipants (sql w))) as Hdeleted.
  { simpl. induction (orderParticipants (sql w)) as [|p l IH]; [done|].
    rewrite !filter_cons. case_decide; [|done].
    rewrite filter_cons_True by done. by rewrite IH. }
  apply editOrderParticipants_outcomes in Hrun
    as [(-> & _)|[(_ & -> & _)|[(_ & _ & -> & _)|(_ & (rows & _ & Hall & ->) & _)]]];
    simpl; try done.
  split; [|done]. rewrite filter_app. simpl in Hdeleted. rewrite Hdeleted.
  assert (filter (λ p, OrderParticipant.orderId p ≠ orderId) rows = []) as ->.
  { apply filter_nil_iff. eapply Forall_impl; [exact Hall|]. simpl. tauto. }
  by rewrite app_nil_r.
Qed.

End ParticipantExtras.

(** An administrator replaces the participants of order 1; and caller 99,
    who has no user row, gives order 2 (which has no participant) its
    first one. *)
Lemma editOrderParticipants_authorized_witness :
  (∃ order,
     orderLoader 1 Demo.world = (Ok order, Demo.world)
     ∧ (isUserInAssociatedCompany (Collaborators := Demo.collaborators) order
          (findUser (Collaborators := Demo.collaborators) 7) = true
        ∨ checkPermissions (Collaborators := Demo.collaborators) [ADMIN] [INTEGRATION]
          = true))
  ∧ findUser (Collaborators := Demo.collaborators) 99 = None
  ∧ (pickOf <$> participantsOf 2
       (sql (editOrderParticipants (H := Demo.collaborators) 2 [Guard.mkPick 9 true]
               Demo.unknownContext Demo.receivedWorld).2)) = [Guard.mkPick 9 true].
Proof.
  split; [|split; [reflexivity|vm_compute; reflexivity]].
  destruct (editOrderParticipants (H := Demo.collaborators) 1 [Guard.mkPick 9 true]
              Demo.adminContext Demo.world) as [r w'] eqn:Hrun.
  destruct (editOrderParticipants_authorized (H := Demo.collaborators) 1
              [Guard.mkPick 9 true] Demo.adminContext Demo.world r w' Hrun)
    as (order & Hload & Huser & _).
  - intros ->. apply (f_equal (λ run, length (runners run.2))) in Hrun.
    vm_compute in Hrun. discriminate.
  - exists order. split; [exact Hload|exact Huser].
Defined.

(** After it, order 1 has the one proposed participant. *)
Lemma editOrderParticipants_replaces_witness :
  pickOf <$> participantsOf 1
    (sql (editOrderParticipants (H := Demo.collaborators) 1 [Guard.mkPick 9 true]
            Demo.adminContext Demo.world).2)
  = [Guard.mkPick 9 true].
Proof.
  destruct (editOrderParticipants (H := Demo.collaborators) 1 [Guard.mkPick 9 true]
              Demo.adminContext Demo.world) as [[rows|e] w'] eqn:Hrun;
    [|by vm_compute in Hrun].
  by apply (editOrderParticipants_replaces (H := Demo.collaborators) 1
              [Guard.mkPick 9 true] Demo.adminContext Demo.world rows w').
Defined.

Section CreateExtras.
Context `{Collaborators}.

(** X13. The only error [createOrderParticipants] ever throws is the one
    of its insert: the guard on an empty set of default approvers never
    fires, because the set is built from the two-element array
    [[buyerOrgId, supplierOrgId]]. *)
Theorem createOrderParticipants_errors buyerOrgId supplierOrgId otherCompanyIds orderId
    queryRunner w e :
  (createOrderParticipants buyerOrgId supplierOrgId otherCompanyIds orderId queryRunner
     w).1 = Throw e →
  e = mkError ApolloError "Failed to create order participants.".
Proof.
  unfold createOrderParticipants.
  match goal with |- context [defaultApproversOf ?b ?s ?ps] =>
    pose proof (defaultApprovers_never_empty b s ps) as Hsize;
    destruct (defaultApproversOf b s ps) as [defaultApprovers participants]
  end.
  simpl in Hsize. rewrite bool_decide_eq_false_2 by done.
  unfold bind at 1. unfold ret at 1. cbv beta iota.
  match goal with |- context [executeInsertOrderParticipants ?o ?vs] =>
    destruct (executeInsertOrderParticipants_run o vs w)
      as [[_ Hinsert]|[_ (rows & Hinsert & _)]]
  end; rewrite (bind_Ok _ _ _ _ _ Hinsert).
  - simpl. unfold throw. simpl. by intros [= <-].
  - destruct rows; simpl; unfold throw, ret; simpl; [by intros [= <-]|done].
Qed.

(** X14. What [pickDefaultApprover] picks for a company is one of the
    participants at hand that belongs to that company; it picks none
    exactly when the company has no participant at hand; and the array it
    leaves is the one it was given, possibly reordered. *)
Theorem pickDefaultApprover_picks companyId participants :
  let picked := (pickDefaultApprover (Some companyId) participants).1 in
  (picked = None
   ↔ Forall (λ p, OrderParticipantsRights.orgId p ≠ companyId) participants)
  ∧ (∀ id, picked = Some id →
       ∃ p, p ∈ participants ∧ OrderParticipantsRights.orgId p = companyId
            ∧ OrderParticipantsRights.participantId p = id)
  ∧ (pickDefaultApprover (Some companyId) participants).2 ≡ₚ participants.
Proof.
  unfold pickDefaultApprover.
  destruct (find (λ p, bool_decide (Some (OrderParticipantsRights.orgId p) = Some companyId)
                       && OrderParticipantsRights.isAllowedToAcceptChangeRequest p)
              participants) as [allowed|] eqn:Hallowed; simpl.
  - apply find_some in Hallowed as [Hin [Horg%bool_decide_eq_true _]%andb_true_iff].
    injection Horg as Horg. apply list_elem_of_In in Hin.
    destruct (negb (OrderParticipantsRights.participantId allowed =? 0)) eqn:Hid; simpl.
    + split; [|split; [|done]].
      * split; [done|]. intros Hall. rewrite Forall_forall in Hall.
        by destruct (Hall allowed Hin).
      * intros id [= <-]. by exists allowed.
    + unfold sortByParticipantId.
      match goal with |- context [@merge_sort _ ?R ?D participants] =>
        pose proof (@merge_sort_Permutation _ R D participants) as Hperm;
        destruct (find _ (@merge_sort _ R D participants)) as [first|] eqn:Hfirst
      end; simpl.
      * apply find_some in Hfirst as [Hfirst Hcompany%bool_decide_eq_true].
        injection Hcompany as Hcompany. apply list_elem_of_In in Hfirst.
        rewrite Hperm in Hfirst.
        split; [|split; [|done]].
        -- split; [done|]. intros Hall. rewrite Forall_forall in Hall.
           by destruct (Hall first Hfirst).
        -- intros id [= <-]. by exists first.
      * rewrite find_none_iff in Hfirst.
        specialize (Hfirst allowed ltac:(by rewrite Hperm)).
        apply bool_decide_eq_false in Hfirst. by rewrite Horg in Hfirst.
  - unfold sortByParticipantId.
    match goal with |- context [@merge_sort _ ?R ?D participants] =>
      pose proof (@merge_sort_Permutation _ R D participants) as Hperm;
      destruct (find _ (@merge_sort _ R D participants)) as [first|] eqn:Hfirst
    end; simpl.
    + apply find_some in Hfirst as [Hfirst Hcompany%bool_decide_eq_true].
      injection Hcompany as Hcompany. apply list_elem_of_In in Hfirst.
      rewrite Hperm in Hfirst.
      split; [|split; [|done]].
      * split; [done|]. intros Hall. rewrite Forall_forall in Hall.
        by destruct (Hall first Hfirst).
      * intros id [= <-]. by exists first.
    + rewrite find_none_iff in Hfirst.
      split; [|split; [done|done]]. split; [intros _|done].
      apply Forall_forall. intros p Hp Horg.
      specialize (Hfirst p ltac:(by rewrite Hperm)).
      apply bool_decide_eq_false in Hfirst. by rewrite Horg in Hfirst.
Qed.

Lemma insertOrderParticipants_orders orderId values :
  preserves (keeps (λ w, orders (sql w))) (insertOrderParticipants orderId values).
Proof.
  induction values; simpl; unfold freshOid; frame_with ltac:(unfold keeps; done).
Qed.
Local Hint Resolve insertOrderParticipants_orders : frame.

Lemma createOrderParticipants_orders buyerOrgId supplierOrgId others orderId qr :
  preserves (keeps (λ w, orders (sql w)))
    (createOrderParticipants buyerOrgId supplierOrgId others orderId qr).
Proof.
  unfold createOrderParticipants, executeInsertOrderParticipants.
  frame_with ltac:(unfold keeps; done).
Qed.

(** X15. When the transaction of [createOrder] returns, exactly one order
    row has been added to the store: it carries the id returned, which is
    the next identity value, it is in Issued status, and it is not ready
    for booking. *)
Theorem createOrderTransaction_creates input orgId orderOrgsFields terms number w
    orderId w' :
  createOrderTransaction input orgId orderOrgsFields terms number w = (Ok orderId, w') →
  orderId = nextOid (sql w)
  ∧ ∃ row,
      orders (sql w') = orders (sql w) ++ [row]
      ∧ Order.id row = orderId
      ∧ Order.orderStatusId row = getStatusId "Issued" "OrderStatus"
      ∧ Order.isReadyForBooking row = false.
Proof.
  unfold createOrderTransaction. intros Hrun.
  rewrite (bind_Ok _ _ _ _ _ (queryRunnerStartTransaction_run _)) in Hrun.
  unfold tryCatch in Hrun.
  match type of Hrun with context [bind ?m ?k ?w1] =>
    destruct (bind m k w1) as [[created|e] w2] eqn:Hbody
  end.
  2: { unfold transactionActive, rollbackTransaction, release, when in Hrun.
       unfold_primitives. simpl in Hrun. by repeat case_match. }
  injection Hrun as -> ->. inv_binds Hbody.
  unfold ret in Hbody. injection Hbody as -> <-.
  assert (orders (sql w2) = orders (sql w0)) as ->.
  { clear -Hrun0 Hrun1. unfold commitTransaction, release, modify in *.
    by simplify_eq/=. }
  clear Hrun0 Hrun1. unfold createOrderWrites in Hrun.
  apply bind_inv_Ok in Hrun as (createdOn & wa & Hnow & Hrun).
  unfold gets in Hnow. injection Hnow as <- <-.
  apply bind_inv_Ok in Hrun as (noRow & wa & Hfails & Hrun).
  unfold fails, gets in Hfails. injection Hfails as <- <-.
  apply bind_inv_Ok in Hrun as ([] & wa & Hguard & Hrun).
  apply guard_inv in Hguard as [-> _].
  apply bind_inv_Ok in Hrun as (oid & wa & Hfresh & Hrun).
  unfold freshOid, bind, gets, modify, ret in Hfresh. simpl in Hfresh.
  injection Hfresh as <- <-.
  apply bind_inv_Ok in Hrun as ([] & wa & Hinsert & Hrun).
  unfold modify in Hinsert. injection Hinsert as <-.
  apply bind_inv_Ok in Hrun as ([] & wb & Hparticipants & Hrun).
  apply bind_inv_Ok in Hrun as ([] & wc & Hextra & Hrun).
  apply bind_inv_Ok in Hrun as ([] & wd & Hmilestones & Hrun).
  unfold ret in Hrun. injection Hrun as <- <-.
  match type of Hparticipants with ?m ?w1 = _ =>
    pose proof (createOrderParticipants_orders _ _ _ _ _ w1 : keeps _ _ (m w1).2) as Hp
  end.
  rewrite Hparticipants in Hp. unfold keeps in Hp. simpl in Hp.
  assert (orders (sql wc) = orders (sql wb)) as Hsame.
  { clear -Hextra. destruct (createExtraData input) as [[|x l]|];
      unfold ret in Hextra; simplify_eq; try done.
    unfold bind, fails, gets, throw, modify in Hextra. simpl in Hextra.
    by destruct (bool_decide _); simplify_eq/=. }
  assert (orders (sql wd) = orders (sql wc)) as Hlater.
  { clear -Hmilestones.
    unfold external, call, bind, fails, gets, throw, ret, modify in Hmilestones.
    simpl in Hmilestones. by destruct (bool_decide _); simplify_eq/=. }
  split; [done|]. eexists. rewrite Hlater, Hsame, Hp. by repeat split.
Qed.

(** X16. Outside an integration, [createOrder] refuses a user who does
    not belong to the organisation of the request: it throws the
    Forbidden error naming the user, and nothing has been written or
    called. *)
Theorem createOrder_forbidden input context w buyer :
  idOf (createFields input !! "buyerId"%string) ≫= findCompany = Some buyer →
  checkPermissions (GraphQLContext.permissions context) [INTEGRATION] = false →
  User.orgId <$> findUser (createUserId input) ≠ Some (GraphQLContext.orgId context) →
  createOrder input context w
  = (Throw (mkError ForbiddenError
              ("User " +:+ pretty (createUserId input)
               +:+ " does not have permission to create an order for this org.")),
     w).
Proof.
  intros Hbuyer Hplain Huser. unfold createOrder.
  rewrite Hbuyer, Hplain. unfold bind at 1. unfold ret at 1. cbv beta iota.
  rewrite (bool_decide_eq_false_2 _ Huser). simpl.
  rewrite orb_true_r. simpl. reflexivity.
Qed.

End CreateExtras.

(** The participant insert of a new order stores no row. *)
Lemma createOrderParticipants_errors_witness :
  (createOrderParticipants (H := Demo.collaborators) 100 (Some 300) [] 60 None
     (Demo.failingOn OpInsertOrderParticipants Demo.world)).1
  = Throw (mkError ApolloError "Failed to create order participants.").
Proof.
  destruct (createOrderParticipants (H := Demo.collaborators) 100 (Some 300) [] 60 None
              (Demo.failingOn OpInsertOrderParticipants Demo.world)) as [[[]|e] w'] eqn:Hrun;
    [by vm_compute in Hrun|].
  simpl. f_equal.
  apply (createOrderParticipants_errors (H := Demo.collaborators) 100 (Some 300) [] 60
           None (Demo.failingOn OpInsertOrderParticipants Demo.world)).
  by rewrite Hrun.
Defined.

(** A new order of buyer 100 is created with the next identity value. *)
Lemma createOrderTransaction_creates_witness :
  ∃ row,
    orders (sql (createOrderTransaction (H := Demo.collaborators) Demo.newOrder 100
                   (createFields Demo.newOrder) None None Demo.world).2)
    = orders (sql Demo.world) ++ [row]
    ∧ Order.id row = 50 ∧ Order.orderStatusId row = 1
    ∧ Order.isReadyForBooking row = false.
Proof.
  destruct (createOrderTransaction (H := Demo.collaborators) Demo.newOrder 100
              (createFields Demo.newOrder) None None Demo.world)
    as [[orderId|e] w'] eqn:Hrun; [|by vm_compute in Hrun].
  destruct (createOrderTransaction_creates (H := Demo.collaborators) Demo.newOrder 100
              (createFields Demo.newOrder) None None Demo.world orderId w' Hrun)
    as (-> & row & Horders & Hid & Hstatus & Hready).
  exists row. split; [exact Horders|]. split; [exact Hid|]. split; [exact Hstatus|].
  exact Hready.
Defined.

(** User 7 of organisation 100 asks to create an order in the name of
    organisation 200. *)
Lemma createOrder_forbidden_witness :
  createOrder (H := Demo.collaborators) Demo.newOrder (GraphQLContext.mk 200 7 [])
    Demo.world
  = (Throw (mkError ForbiddenError
              "User 7 does not have permission to create an order for this org."),
     Demo.world).
Proof.
  apply (createOrder_forbidden (H := Demo.collaborators) Demo.newOrder
           (GraphQLContext.mk 200 7 []) Demo.world Demo.buyer); by vm_compute.
Defined.

Section PagingFacts.
Context {T : Type}.

Lemma selectWhere_spec (wheres : list (T → bool)) rows row :
  row ∈ Paging.selectWhere wheres rows
  ↔ row ∈ rows ∧ Forall (λ p, p row = true) wheres.
Proof.
  unfold Paging.selectWhere. rewrite list_elem_of_filter, forallb_forall, Forall_forall.
  split.
  - intros [Hall Hrow]. split; [done|]. intros p Hp. apply Hall.
    by apply list_elem_of_In.
  - intros [Hrow Hall]. split; [|done]. intros p Hp. apply Hall.
    by apply list_elem_of_In.
Qed.

Lemma andWhereIf_spec (condition : bool) (p : T → bool) row :
  Forall (λ q, q row = true) (Paging.andWhereIf condition p)
  ↔ (condition = true → p row = true).
Proof.
  destruct condition; simpl.
  - rewrite Forall_singleton. naive_solver.
  - split; [done|by constructor].
Qed.

(** A page holds at most [n] of the selected rows when [n] is not zero,
    taken from position [after] on; the count is that of all the selected
    rows. *)
Lemma getManyAndCount_spec (selected : list T) after n :
  let '(page, total) := Paging.getManyAndCount selected after n in
  total = length selected
  ∧ ((0 < n)%nat → (length page ≤ n)%nat) ∧ (length page ≤ total - after)%nat
  ∧ ∀ row, row ∈ page → row ∈ selected.
Proof.
  unfold Paging.getManyAndCount. split; [done|]. destruct n as [|n].
  - rewrite length_drop. repeat split; try lia.
    intros row Hrow. by apply (subseteq_drop after).
  - rewrite length_take, length_drop. repeat split; try lia.
    intros row Hrow. by apply (subseteq_drop after), (subseteq_take (S n)).
Qed.

(** The engine returns the selected rows, in an order of its own. *)
Lemma engineOrder_Permutation (rank : T → Z) rows : Paging.engineOrder rank rows ≡ₚ rows.
Proof. unfold Paging.engineOrder, arrangedBy. apply merge_sort_Permutation. Qed.

End PagingFacts.

Section QueryFacts.
Context `{Collaborators} `{QueryAdapters}.

(** X17. With no [number] given, every condition of [ordersByQuery] is a
    bound parameter: the call returns and writes nothing.  Its page holds
    at most [min(first, 1000)] edges (50 when [first] is not given) unless
    [first] is zero, and no more than the selected rows past [after].
    Every edge is a stored order that [isVisible] accepts, with the order
    id as cursor; outside integration and analytics it also passes the
    visibility filter of the organisation; and an id given for the buyer
    or the supplier is the one the order carries.  With a [number], which
    is spliced into the statement, the call still writes nothing. *)
Theorem ordersByQuery_edges args context w :
  (ordersByQuery args context w).2 = w
  ∧ (truthyText (GetByArgs.number args) = false →
     ∃ connection,
       ordersByQuery args context w = (Ok connection, w)
       ∧ (GetByArgs.first args ≠ Some 0%nat →
          (length (Paging.edges connection)
           ≤ Nat.min (default 50 (GetByArgs.first args)) 1000)%nat)
       ∧ (length (Paging.edges connection)
          ≤ Paging.totalCount connection - default 0 (GetByArgs.after args))%nat
       ∧ (Paging.totalCount connection ≤ length (orders (sql w)))%nat
       ∧ ∀ edge, edge ∈ Paging.edges connection →
           let o := Paging.node edge in
           Paging.cursor edge = Order.id o
           ∧ o ∈ orders (sql w)
           ∧ isVisible context o = true
           ∧ (checkPermissions (GraphQLContext.permissions context)
                [INTEGRATION; ANALYTICS] = false →
              visibilityFilters (GraphQLContext.orgId context) o = true)
           ∧ (∀ buyerId, GetByArgs.buyerId args = Some buyerId → buyerId ≠ 0 →
                Order.buyerId o = buyerId)
           ∧ (∀ supplierId, GetByArgs.supplierId args = Some supplierId →
                supplierId ≠ 0 → Order.supplierId o = Some supplierId)).
Proof.
  split.
  { unfold ordersByQuery, bind, gets, ret, throw. cbv beta iota zeta.
    destruct (truthyText (GetByArgs.number args)).
    - by destruct (splicedOrderStatement _ _ _) as [[result total]|].
    - by destruct (Paging.getManyAndCount _ _ _). }
  intros Hplain.
  unfold ordersByQuery, bind, gets, ret. rewrite Hplain. cbv beta iota zeta.
  match goal with |- context [Paging.getManyAndCount ?selected ?after ?n] =>
    pose proof (getManyAndCount_spec selected after n) as Hpage;
    destruct (Paging.getManyAndCount selected after n) as [result total]
  end.
  destruct Hpage as (Htotal & Hfirst & Hafter & Hrows).
  eexists. split; [reflexivity|]. cbn [Paging.edges Paging.totalCount].
  rewrite length_fmap.
  pose proof (length_filter (λ o, isVisible context o = true) result) as Hvisible.
  split.
  { intros Hsome.
    assert (0 < Nat.min (default 50 (GetByArgs.first args)) 1000)%nat as Hpositive.
    { destruct (GetByArgs.first args) as [[|n]|]; simpl; [done|lia|lia]. }
    specialize (Hfirst Hpositive). lia. }
  split; [lia|]. split.
  { rewrite Htotal, engineOrder_Permutation. apply length_filter. }
  intros edge (o & -> & [Ho Hin]%list_elem_of_filter)%list_elem_of_fmap.
  cbn [Paging.node Paging.cursor].
  apply Hrows in Hin. rewrite engineOrder_Permutation in Hin.
  apply selectWhere_spec in Hin as [Hstored Hwheres].
  rewrite !Forall_app, !andWhereIf_spec in Hwheres.
  destruct Hwheres as (Hbuyer & Hsupplier & _ & _ & _ & Horg).
  repeat split; try done.
  - intros Hordinary. apply Horg. by rewrite Hordinary.
  - intros buyerId Hgiven Hid. rewrite Hgiven in Hbuyer. simpl in Hbuyer.
    assert (Some (Order.buyerId o) = Some buyerId) as [= ->]; [|done].
    apply (bool_decide_eq_true_1 _), Hbuyer, negb_true_iff. by apply Z.eqb_neq.
  - intros supplierId Hgiven Hid. rewrite Hgiven in Hsupplier. simpl in Hsupplier.
    apply (bool_decide_eq_true_1 _), Hsupplier, negb_true_iff. by apply Z.eqb_neq.
Qed.



(** X21. A page size of zero is not honoured by [locationsQueryResolver]:
    [args.first || 5] turns it into the default, so the call answers as if
    five rows had been asked for, which is also what it does when no page
    size is given. *)
Theorem locationsQueryResolver_first_zero after orderByKey orderByValue search orgId
    context table :
  let query first :=
    locationsQueryResolver
      (GetMultiArgs.mk first after orderByKey orderByValue search orgId) context table in
  query (Some 0%nat) = query (Some 5%nat) ∧ query None = query (Some 5%nat).
Proof. split; reflexivity. Qed.

End QueryFacts.

(** Buyer 100 asks for one of its orders, in the store that holds two. *)
Lemma ordersByQuery_edges_witness :
  let args := GetByArgs.mk (Some 1%nat) None None None (Some 100) None None None None in
  ∃ connection,
    ordersByQuery (H := Demo.collaborators) (H0 := DemoQueries.adapters) args
      Demo.context Demo.receivedWorld = (Ok connection, Demo.receivedWorld)
    ∧ (length (Paging.edges connection) ≤ 1)%nat
    ∧ (∀ edge, edge ∈ Paging.edges connection →
         Order.buyerId (Paging.node edge) = 100).
Proof.
  intros args.
  destruct (proj2 (ordersByQuery_edges (H := Demo.collaborators)
                     (H0 := DemoQueries.adapters) args Demo.context Demo.receivedWorld)
              eq_refl) as (connection & Hrun & Hfirst & _ & _ & Hedges).
  exists connection. split; [exact Hrun|]. split; [by apply Hfirst|].
  intros edge Hedge. destruct (Hedges edge Hedge) as (_ & _ & _ & _ & Hbuyer & _).
  by apply Hbuyer.
Defined.


Section ProvisioningFacts.
Import ValidateOrderOrg.
Variable roleName : CompanyType → string.
Variable createOrganization : OrderCompanyInput → option Id.
Variable emailOf : string → string.

Lemma vforEach_emit {A} (l : list A) (effect : A → Effect) log :
  vforEach l (λ x, emit (effect x)) log = (Ok tt, log ++ (effect <$> l)).
Proof.
  revert log. induction l as [|x l IH]; intros log; simpl.
  - unfold vret. by rewrite app_nil_r.
  - unfold vbind, emit. rewrite IH. by rewrite <- app_assoc.
Qed.

(** One entity: a required role with neither id nor data stops the loop
    after the e-mails; any other entity passes, adds effects, and adds a
    key only for an organisation it created. *)
Lemma provision_spec buyerOrgId purchaseOrderNumber newAdminUsers firstAdminEmail
    orgEntity orderOrgs log :
  let run :=
    provision roleName createOrganization emailOf buyerOrgId purchaseOrderNumber
      newAdminUsers firstAdminEmail orgEntity orderOrgs log in
  (missing orgEntity = true
   ∧ run = (Throw (mkError ApolloError
                     ("Both " +:+ roleName (role orgEntity) +:+ "Id and "
                      +:+ roleName (role orgEntity) +:+ " can't be empty")),
            log ++ ((λ adminUserId, SentEmail (emailOf adminUserId) purchaseOrderNumber)
                      <$> newAdminUsers)))
  ∨ (missing orgEntity = false
     ∧ ∃ effects orderOrgs',
         run = (Ok orderOrgs', log ++ effects)
         ∧ (toCreate orgEntity = true →
            ∃ data, orgData orgEntity = Some data
                    ∧ CreatedOrganization data firstAdminEmail ∈ effects)
         ∧ (orderOrgs' = orderOrgs
            ∨ ∃ data org,
                toCreate orgEntity = true ∧ orgData orgEntity = Some data
                ∧ createOrganization data = Some org
                ∧ orderOrgs' = <[ roleName (role orgEntity) +:+ "Id" := VNum org ]>
                                 orderOrgs)).
Proof.
  intros run. subst run. unfold provision, missing, toCreate.
  destruct (negb (truthyId (orgId orgEntity))) eqn:Hid; simpl.
  - destruct (orgData orgEntity) as [data|] eqn:Hdata; simpl.
    + right. split; [done|].
      unfold vbind at 1. unfold emit at 1.
      destruct (createOrganization data) as [org|] eqn:Horg.
      * unfold vbind at 1. rewrite vforEach_emit.
        unfold vbind at 1. unfold emit at 1. unfold vbind at 1.
        destruct (truthyText (externalID data)); unfold emit, vret;
          rewrite <- !app_assoc; do 2 eexists; (split; [reflexivity|]);
          (split; [intros _; exists data; split; [done|]; set_solver|]);
          right; by exists data, org.
      * unfold vret. do 2 eexists. split; [reflexivity|].
        split; [intros _; exists data; split; [done|]; set_solver|]. by left.
    + destruct (required orgEntity).
      * left. split; [done|]. unfold vbind. by rewrite vforEach_emit.
      * right. split; [done|]. exists [], orderOrgs. unfold vret.
        rewrite app_nil_r. split; [done|]. split; [done|]. by left.
  - right. split; [done|]. exists [], orderOrgs.
    destruct (orgData orgEntity); unfold vret; rewrite app_nil_r;
      (split; [done|]); (split; [done|]); by left.
Qed.

(** The loop over the entities: effects are only ever added; every
    entity reached whose organisation has to be created has had it
    created; the loop stops at the first required role with neither id
    nor data, after the e-mails; and a loop that completes returns keys
    only for organisations it created. *)
Lemma provisionAll_spec buyerOrgId purchaseOrderNumber newAdminUsers firstAdminEmail
    entities orderOrgs log :
  let run :=
    provisionAll roleName createOrganization emailOf buyerOrgId purchaseOrderNumber
      newAdminUsers firstAdminEmail entities orderOrgs log in
  ∃ effects,
    run.2 = log ++ effects
    ∧ (∀ i orgEntity,
         entities !! i = Some orgEntity →
         Forall (λ x, missing x = false) (take (S i) entities) →
         toCreate orgEntity = true →
         ∃ data, orgData orgEntity = Some data
                 ∧ CreatedOrganization data firstAdminEmail ∈ effects)
    ∧ match find missing entities with
      | Some orgEntity =>
          run.1 = Throw (mkError ApolloError
                           ("Both " +:+ roleName (role orgEntity) +:+ "Id and "
                            +:+ roleName (role orgEntity) +:+ " can't be empty"))
          ∧ ∃ before,
              effects
              = before ++ ((λ adminUserId,
                              SentEmail (emailOf adminUserId) purchaseOrderNumber)
                             <$> newAdminUsers)
      | None =>
          ∃ orderOrgs',
            run.1 = Ok orderOrgs'
            ∧ ∀ key value,
                orderOrgs' !! key = Some value →
                orderOrgs !! key = Some value
                ∨ ∃ orgEntity data org,
                    orgEntity ∈ entities ∧ toCreate orgEntity = true
                    ∧ orgData orgEntity = Some data
                    ∧ createOrganization data = Some org
                    ∧ key = roleName (role orgEntity) +:+ "Id" ∧ value = VNum org
      end.
Proof.
  intros run. subst run. revert orderOrgs log.
  induction entities as [|orgEntity entities IH]; intros orderOrgs log.
  { exists []. simpl. rewrite app_nil_r. split; [done|]. split; [done|].
    exists orderOrgs. split; [done|]. auto. }
  simpl. unfold vbind.
  destruct (provision_spec buyerOrgId purchaseOrderNumber newAdminUsers firstAdminEmail
              orgEntity orderOrgs log)
    as [[Hmissing ->]|(Hpresent & effects & orderOrgs' & -> & Hcreated & Hkeys)].
  - rewrite Hmissing. eexists. split; [reflexivity|]. split.
    + intros i e _ Hreached. apply Forall_cons in Hreached as [Hfirst _]. congruence.
    + split; [done|]. by exists [].
  - rewrite Hpresent.
    destruct (IH orderOrgs' (log ++ effects)) as (later & Hlog & Hreached & Hresult).
    exists (effects ++ later). split; [by rewrite Hlog, app_assoc|]. split.
    + intros [|i] e Hlookup Hall Hcreate.
      * injection Hlookup as <-. destruct (Hcreated Hcreate) as (data & ? & ?).
        exists data. split; [done|]. apply elem_of_app. by left.
      * apply Forall_cons in Hall as [_ Hall].
        destruct (Hreached i e Hlookup Hall Hcreate) as (data & ? & ?).
        exists data. split; [done|]. apply elem_of_app. by right.
    + destruct (find missing entities) as [stop|].
      * destruct Hresult as [Hthrow [before ->]]. split; [done|].
        exists (effects ++ before). by rewrite app_assoc.
      * destruct Hresult as (final & Hok & Hfinal). exists final. split; [done|].
        intros key value Hkey.
        destruct (Hfinal key value Hkey) as [Hold|(e & data & org & He & ?)].
        -- destruct Hkeys as [->|(data & org & Hcreate & Hdata & Horg & ->)]; [by left|].
           destruct (decide (key = roleName (role orgEntity) +:+ "Id")) as [->|Hne].
           ++ rewrite lookup_insert_eq in Hold. injection Hold as <-.
              right. exists orgEntity, data, org. split; [by left|done].
           ++ rewrite lookup_insert_ne in Hold by done. by left.
        -- right. exists e, data, org. split; [by right|done].
Qed.

(** X22. With a contact list at hand, [validateOrderOrg] fails exactly
    when a required role (supplier, forwarder, consignee) comes with
    neither an id nor data: the error names the first such role, and the
    last thing done before it is one e-mail to every contact.  Otherwise
    it returns. *)
Theorem validateOrderOrg_required fields purchaseOrderNumber buyerId buyer
    firstAdminUserId others log :
  Company.companyAutoCreateContactList buyer = firstAdminUserId :: others →
  let run :=
    validateOrderOrg roleName createOrganization emailOf fields purchaseOrderNumber
      buyerId buyer log in
  match find missing (orgEntities fields) with
  | Some orgEntity =>
      required orgEntity = true
      ∧ run.1 = Throw (mkError ApolloError
                         ("Both " +:+ roleName (role orgEntity) +:+ "Id and "
                          +:+ roleName (role orgEntity) +:+ " can't be empty"))
      ∧ ∃ before,
          run.2
          = log ++ before
            ++ ((λ adminUserId, SentEmail (emailOf adminUserId) purchaseOrderNumber)
                  <$> firstAdminUserId :: others)
  | None => ∃ orderOrgs, run.1 = Ok orderOrgs
  end.
Proof.
  intros Hcontacts run. subst run. unfold validateOrderOrg. rewrite Hcontacts.
  destruct (provisionAll_spec buyerId purchaseOrderNumber (firstAdminUserId :: others)
              (emailOf firstAdminUserId) (orgEntities fields) ∅ log)
    as (effects & Hlog & _ & Hresult).
  destruct (find missing (orgEntities fields)) as [orgEntity|] eqn:Hfind.
  - destruct Hresult as [Hthrow [before ->]]. split.
    { apply find_some in Hfind as [_ Hmissing]. unfold missing in Hmissing.
      by apply andb_true_iff in Hmissing as [_ ?]. }
    split; [done|]. exists before. by rewrite Hlog.
  - destruct Hresult as (orderOrgs & Hok & _). by exists orderOrgs.
Qed.

(** X23. The object [validateOrderOrg] returns holds a key only for an
    organisation the call created: the role had data and no id, and the
    value is the id of the organisation created from that data.  A role
    that came with an id is never given another one. *)
Theorem validateOrderOrg_returns_created fields purchaseOrderNumber buyerId buyer log
    orderOrgs key value :
  (validateOrderOrg roleName createOrganization emailOf fields purchaseOrderNumber
     buyerId buyer log).1 = Ok orderOrgs →
  orderOrgs !! key = Some value →
  ∃ orgEntity data org,
    orgEntity ∈ orgEntities fields
    ∧ truthyId (orgId orgEntity) = false
    ∧ orgData orgEntity = Some data
    ∧ createOrganization data = Some org
    ∧ key = roleName (role orgEntity) +:+ "Id" ∧ value = VNum org.
Proof.
  unfold validateOrderOrg.
  destruct (Company.companyAutoCreateContactList buyer) as [|firstAdminUserId others];
    [done|].
  destruct (provisionAll_spec buyerId purchaseOrderNumber (firstAdminUserId :: others)
              (emailOf firstAdminUserId) (orgEntities fields) ∅ log)
    as (effects & _ & _ & Hresult).
  intros Hok Hkey. destruct (find missing (orgEntities fields)).
  { destruct Hresult as [Hthrow _]. congruence. }
  destruct Hresult as (final & Hfinal & Hkeys).
  rewrite Hok in Hfinal. injection Hfinal as <-.
  destruct (Hkeys key value Hkey) as [Hempty|(e & data & org & He & Hcreate & ?)];
    [by rewrite lookup_empty in Hempty|].
  exists e, data, org. split; [done|]. split; [|done].
  unfold toCreate in Hcreate. apply andb_true_iff in Hcreate as [Hid _].
  by apply negb_true_iff.
Qed.

(** X24. [validateOrderOrg] undoes nothing: whether it returns or throws,
    the effects made before the call are still there, followed by those
    of the call; and every role reached before a failure whose
    organisation had to be created has had it created, with the e-mail
    address of the first contact as its administrator. *)
Theorem validateOrderOrg_keeps_effects fields purchaseOrderNumber buyerId buyer
    firstAdminUserId others log :
  Company.companyAutoCreateContactList buyer = firstAdminUserId :: others →
  ∃ effects,
    (validateOrderOrg roleName createOrganization emailOf fields purchaseOrderNumber
       buyerId buyer log).2 = log ++ effects
    ∧ ∀ i orgEntity,
        orgEntities fields !! i = Some orgEntity →
        Forall (λ x, missing x = false) (take (S i) (orgEntities fields)) →
        toCreate orgEntity = true →
        ∃ data, orgData orgEntity = Some data
                ∧ CreatedOrganization data (emailOf firstAdminUserId) ∈ effects.
Proof.
  intros Hcontacts. unfold validateOrderOrg. rewrite Hcontacts.
  destruct (provisionAll_spec buyerId purchaseOrderNumber (firstAdminUserId :: others)
              (emailOf firstAdminUserId) (orgEntities fields) ∅ log)
    as (effects & Hlog & Hreached & _).
  by exists effects.
Qed.

End ProvisioningFacts.

(** A supplier to create, a forwarder given by id and no consignee: the
    call fails on the consignee, after one e-mail to each of the two
    contacts. *)
Lemma validateOrderOrg_required_witness :
  let run :=
    ValidateOrderOrg.validateOrderOrg DemoQueries.roleNames (λ _, Some 900) id
      DemoQueries.noConsignee "PO-1" 100 DemoQueries.autoCreatingBuyer [] in
  run.1 = Throw (mkError ApolloError "Both consigneeId and consignee can't be empty")
  ∧ ∃ before,
      run.2
      = [] ++ before
        ++ [ValidateOrderOrg.SentEmail "admin-1" "PO-1";
            ValidateOrderOrg.SentEmail "admin-2" "PO-1"].
Proof.
  intros run.
  pose proof (validateOrderOrg_required DemoQueries.roleNames (λ _, Some 900) id
                DemoQueries.noConsignee "PO-1" 100 DemoQueries.autoCreatingBuyer
                "admin-1" ["admin-2"] [] eq_refl) as Hrequired.
  cbv zeta in Hrequired. fold run in Hrequired.
  set (stop := find ValidateOrderOrg.missing _) in Hrequired.
  vm_compute in stop. subst stop. cbv beta iota in Hrequired.
  destruct Hrequired as (_ & Hthrow & Hlog). split; [exact Hthrow|exact Hlog].
Defined.

(** With the consignee given too, the call returns the id of the supplier
    it created, and nothing for the roles that came with an id. *)
Lemma validateOrderOrg_returns_created_witness :
  ∃ orgEntity data org,
    orgEntity ∈ ValidateOrderOrg.orgEntities DemoQueries.complete
    ∧ truthyId (ValidateOrderOrg.orgId orgEntity) = false
    ∧ ValidateOrderOrg.orgData orgEntity = Some data
    ∧ Some 900 = Some org
    ∧ "supplierId"%string
      = DemoQueries.roleNames (ValidateOrderOrg.role orgEntity) +:+ "Id"
    ∧ VNum 900 = VNum org.
Proof.
  apply (validateOrderOrg_returns_created DemoQueries.roleNames (λ _, Some 900) id
           DemoQueries.complete "PO-1" 100 DemoQueries.autoCreatingBuyer []
           {[ "supplierId"%string := VNum 900 ]}).
  - vm_compute. reflexivity.
  - apply lookup_singleton_eq.
Defined.

(** The supplier created before the failure on the consignee stays
    created. *)
Lemma validateOrderOrg_keeps_effects_witness :
  ∃ effects,
    (ValidateOrderOrg.validateOrderOrg DemoQueries.roleNames (λ _, Some 900) id
       DemoQueries.noConsignee "PO-1" 100 DemoQueries.autoCreatingBuyer []).2
    = [] ++ effects
    ∧ ValidateOrderOrg.CreatedOrganization DemoQueries.acme "admin-1" ∈ effects.
Proof.
  destruct (validateOrderOrg_keeps_effects DemoQueries.roleNames (λ _, Some 900) id
              DemoQueries.noConsignee "PO-1" 100 DemoQueries.autoCreatingBuyer
              "admin-1" ["admin-2"] [] eq_refl) as (effects & Hlog & Hreached).
  exists effects. split; [exact Hlog|].
  destruct (Hreached 0%nat
              (ValidateOrderOrg.mkEntity None (Some DemoQueries.acme)
                 ValidateOrderOrg.SUPPLIER true))
    as (data & [= <-] & Hcreated); [reflexivity| |reflexivity|exact Hcreated].
  repeat constructor.
Defined.

Section LineItemExtras.
Context `{Collaborators}.

(** X25. When the payload asks for a replacement and the utilities
    resolve, [updateLineItems] calls the replace utility and nothing else,
    whatever add, edit or remove instructions come with it; and what the
    utility has written stays, also when [handleErrors] then rejects its
    response. *)
Theorem updateLineItems_replace_only order user lineItems items w :
  replaceLineItems lineItems = Some items →
  OpLineItems ∉ failing w →
  orderLineItems (sql (updateLineItems order (Some user) lineItems w).2)
  = (replaceLineItemsInOrder items (Order.id order) (Order.supplierId order)
       (User.orgId user) (orderLineItems (sql w))).2.
Proof.
  intros Hreplace Hresolve. unfold updateLineItems. rewrite Hreplace.
  unfold lineItemQuery, fails, must, bind, gets, modify, ret, throw. simpl.
  rewrite bool_decide_eq_false_2 by done. by rewrite handleErrors_unchanged.
Qed.

(** X26. With no user at hand, a payload that replaces, adds or edits
    line items makes [updateLineItems] throw the [TypeError] of reading
    [user.orgId], before any utility has run. *)
Theorem updateLineItems_without_user order lineItems w :
  is_Some (replaceLineItems lineItems) ∨ is_Some (addLineItems lineItems)
  ∨ is_Some (editLineItems lineItems) →
  updateLineItems order None lineItems w
  = (Throw (mkError TypeError "Cannot read properties of undefined"), w).
Proof.
  intros Hgiven. unfold updateLineItems.
  destruct (replaceLineItems lineItems) as [items|]; [done|].
  destruct (addLineItems lineItems) as [added|]; [done|].
  destruct (editLineItems lineItems) as [edited|]; [done|].
  destruct Hgiven as [[? [=]]|[[? [=]]|[? [=]]]].
Qed.

End LineItemExtras.

(** A replacement sent together with an addition: the rows of order 1
    are the replacement's. *)
Lemma updateLineItems_replace_only_witness :
  orderLineItems
    (sql (updateLineItems (H := Demo.collaborators) Demo.order (Some (User.mk 7 100))
            (default noLineItems (lineItems Demo.editConflictingItems)) Demo.world).2)
  = [OrderLineItem.mk 0 1 {[ "quantity"%string := VNum 3 ]}].
Proof.
  rewrite (updateLineItems_replace_only (H := Demo.collaborators) Demo.order
             (User.mk 7 100) (default noLineItems (lineItems Demo.editConflictingItems))
             [{[ "quantity"%string := VNum 3 ]}] Demo.world eq_refl);
    [reflexivity|].
  simpl. by intros ?%elem_of_nil.
Defined.

(** An addition with no user. *)
Lemma updateLineItems_without_user_witness :
  updateLineItems (H := Demo.collaborators) Demo.order None
    (default noLineItems (lineItems Demo.editInstructionsAndItems)) Demo.world
  = (Throw (mkError TypeError "Cannot read properties of undefined"), Demo.world).
Proof.
  apply (updateLineItems_without_user (H := Demo.collaborators)).
  right. left. by eexists.
Defined.

Section FinishExtras.
Context `{Collaborators}.

Lemma checkReadyForBookingResolver_calls orderId context :
  preserves (keeps calls) (checkReadyForBookingResolver orderId context).
Proof.
  unfold checkReadyForBookingResolver, orderLoader.
  frame_with ltac:(unfold keeps; done).
Qed.

(** X27. The housekeeping that ends [editOrder] notifies the
    purchase-order message thread exactly when the edit carries one of
    the six company id keys (agent, broker, consignee, forwarder,
    supplier, trucker): when it returns, that one call has been made, or
    no call at all. *)
Theorem editOrderFinish_notifies input context order editFields w updatedOrder w' :
  editOrderFinish input context order editFields w = (Ok updatedOrder, w') →
  (Exists (λ key, is_Some (editFields !! key)) associatedCompanyIdKeys
   ∧ calls w' = calls w ++ [CallEditPOMessageThread (orderId input)])
  ∨ (Forall (λ key, editFields !! key = None) associatedCompanyIdKeys
     ∧ calls w' = calls w).
Proof.
  unfold editOrderFinish. intros Hrun.
  apply bind_inv_Ok in Hrun as ([] & w1 & Hcheck & Hrun).
  pose proof (checkReadyForBookingResolver_calls (Order.id order) context w) as Hcalls.
  rewrite Hcheck in Hcalls. unfold keeps in Hcalls. simpl in Hcalls.
  apply bind_inv_Ok in Hrun as (loaded & w2 & Hload & Hrun).
  apply orderLoader_Ok in Hload as (-> & _ & _).
  apply bind_inv_Ok in Hrun as ([] & w3 & Hnotify & Hrun).
  unfold ret in Hrun. injection Hrun as _ <-.
  destruct (find _ associatedCompanyIdKeys) as [key|] eqn:Hfind; simpl in Hnotify.
  - left. apply find_some in Hfind as [Hin Hkey%bool_decide_eq_true].
    split.
    + apply Exists_exists. exists key. split; [by apply list_elem_of_In|done].
    + unfold editPOMessageThread, external, call, bind, fails, gets, modify, throw, ret
        in Hnotify.
      simpl in Hnotify. destruct (bool_decide _); simplify_eq/=. by rewrite Hcalls.
  - right. unfold ret in Hnotify. injection Hnotify as <-. split; [|done].
    rewrite find_none_iff in Hfind. apply Forall_forall. intros key Hkey.
    specialize (Hfind key Hkey). apply bool_decide_eq_false in Hfind.
    by apply eq_None_not_Some.
Qed.

End FinishExtras.

(** An edit of the destination alone notifies no thread. *)
Lemma editOrderFinish_notifies_witness :
  let editFields : gmap string EditParam :=
    {[ "destinationId"%string := PScalar (VNum 6) ]} in
  let run :=
    editOrderFinish (H := Demo.collaborators) Demo.editDestination Demo.context
      Demo.order editFields Demo.world in
  calls run.2 = calls Demo.world.
Proof.
  intros editFields run.
  destruct run as [[updatedOrder|e] w'] eqn:Hrun; [|by vm_compute in Hrun].
  destruct (editOrderFinish_notifies (H := Demo.collaborators) Demo.editDestination
              Demo.context Demo.order editFields Demo.world updatedOrder w' Hrun)
    as [[Hgiven _]|[_ Hcalls]]; [|exact Hcalls].
  exfalso. apply Exists_exists in Hgiven as (key & Hkey & [value Hvalue]).
  apply lookup_singleton_Some in Hvalue as [<- _].
  unfold associatedCompanyIdKeys in Hkey.
  repeat (apply elem_of_cons in Hkey as [[=]|Hkey]). by apply elem_of_nil in Hkey.
Defined.
